(** * evan-chat-crew: response coordination and shared memory

    A shallow embedding of the coordination pipeline of [main.py]
    ([coordinate_user_responses], [process_message_interest_after_delay],
    [is_bot_name_mentioned], [personality_mentions_bot]) and of the JSON
    store of [shared_memory.py] ([SharedMemory]), followed by the
    properties of the specification that are about them.

    Modelling conventions.
    - Python [str] is [string]; [str.lower], [str.split], [str.strip] and
      the regular expressions act on the ASCII range (bytes above 127 are
      caseless, non-blank, non-digit characters).
    - Python dictionaries whose iteration order is observed (the bot
      registry, the reports of one message, JSON objects) are association
      lists in insertion order; dictionaries used only by key
      ([pending_interest_reports], the file system) are [gmap]s.
    - [time.time()], [datetime.now().strftime(...)] and the random source
      are inputs of the operations; times and random numbers are read as
      rationals.
    - The event loop runs one callback at a time, and
      [process_message_interest_after_delay] does not await before it is
      done with the pending table: a timer expiry is one step.
    - A file holds either the text [json.dump] wrote for a value or some
      other text; [json.loads] on other text is a parameter.  Failures of
      the operating system are modelled where the store handles them, in
      [save_data].
    - Logging has no effect on any state that is modelled. *)

From Stdlib Require Import String Ascii ZArith QArith List Bool Lia.
From stdpp Require Import base option list gmap strings.
Import ListNotations.

Local Open Scope Z_scope.
Local Open Scope string_scope.
Local Open Scope list_scope.

(** ** Python string primitives *)

Module Text.

Definition chars (s : string) : list ascii := list_ascii_of_string s.
Definition of_chars (l : list ascii) : string := string_of_list_ascii l.

(** [c.lower()] on one character. *)
Definition lower_char (c : ascii) : ascii :=
  let n := nat_of_ascii c in
  if (Nat.leb 65 n && Nat.leb n 90)%bool then ascii_of_nat (n + 32) else c.

(** [s.lower()] *)
Fixpoint lower (s : string) : string :=
  match s with
  | EmptyString => EmptyString
  | String c s' => String (lower_char c) (lower s')
  end.

(** [c.isspace()]: tab, newline, vertical tab, form feed, carriage
    return, the four separators 28..31 and the blank. *)
Definition is_space (c : ascii) : bool :=
  let n := nat_of_ascii c in
  ((Nat.leb 9 n && Nat.leb n 13) || (Nat.leb 28 n && Nat.leb n 32))%bool.

Definition is_digit (c : ascii) : bool :=
  let n := nat_of_ascii c in (Nat.leb 48 n && Nat.leb n 57)%bool.

(** [hay.startswith(p)] *)
Fixpoint startswith (p hay : string) : bool :=
  match p, hay with
  | EmptyString, _ => true
  | String a p', String b hay' => (Ascii.eqb a b && startswith p' hay')%bool
  | String _ _, EmptyString => false
  end.

(** [needle in hay] *)
Fixpoint contains (needle hay : string) : bool :=
  (startswith needle hay ||
   match hay with
   | EmptyString => false
   | String _ hay' => contains needle hay'
   end)%bool.

(** [s.endswith(p)] *)
Definition endswith (p s : string) : bool :=
  startswith (of_chars (rev (chars p))) (of_chars (rev (chars s))).

(** [s.split()]: maximal runs of non-blank characters.  [cur] is the
    word being read, in reverse. *)
Fixpoint split_go (cur : list ascii) (s : string) : list string :=
  match s with
  | EmptyString =>
      match cur with [] => [] | _ => [of_chars (rev cur)] end
  | String c s' =>
      if is_space c
      then match cur with
           | [] => split_go [] s'
           | _ => of_chars (rev cur) :: split_go [] s'
           end
      else split_go (c :: cur) s'
  end.

Definition split (s : string) : list string := split_go [] s.

Fixpoint lstrip (s : string) : string :=
  match s with
  | String c s' => if is_space c then lstrip s' else s
  | EmptyString => EmptyString
  end.

(** [s.strip()] *)
Definition strip (s : string) : string :=
  of_chars (rev (chars (lstrip (of_chars (rev (chars (lstrip s))))))).

(** [w in words] for a list of strings. *)
Definition mem (w : string) (words : list string) : bool :=
  existsb (String.eqb w) words.

(** [any(p in s for p in ps)] *)
Definition any_in (ps : list string) (s : string) : bool :=
  existsb (fun p => contains p s) ps.

(** [s[n:]] *)
Fixpoint drop (n : nat) (s : string) : string :=
  match n, s with
  | S n', String _ s' => drop n' s'
  | _, _ => s
  end.

(** Truth value of a string: [bool(s)]. *)
Definition truthy (s : string) : bool :=
  match s with EmptyString => false | _ => true end.

End Text.

(** ** The fragment of [re] used by the coordinator

    Every pattern of the spam table is a sequence of single-character
    atoms (a literal, [.], [\d]), each with an optional [*], [+] or [?].
    [compile] reads the pattern text; [search] is [re.search] with
    [re.IGNORECASE]. *)

Module Re.

Inductive cls := Lit (c : ascii) | AnyChar | Digit.
Inductive quant := One | Star | Plus | Opt.
Definition item : Type := cls * quant.

Definition newline : ascii := ascii_of_nat 10.

Definition cls_ok (c : cls) (a : ascii) : bool :=
  match c with
  | Lit x => Ascii.eqb (Text.lower_char x) (Text.lower_char a)
  | AnyChar => negb (Ascii.eqb a newline)
  | Digit => Text.is_digit a
  end.

Definition read_quant (s : string) : quant * string :=
  match s with
  | String "*" s' => (Star, s')
  | String "+" s' => (Plus, s')
  | String "?" s' => (Opt, s')
  | _ => (One, s)
  end.

(** [fuel] bounds the number of atoms; the length of the pattern text is
    always enough. *)
Fixpoint compile_go (fuel : nat) (s : string) : list item :=
  match fuel with
  | O => []
  | S fuel' =>
      match s with
      | EmptyString => []
      | String "\" (String "d" s') =>
          let (q, r) := read_quant s' in (Digit, q) :: compile_go fuel' r
      | String "\" (String x s') =>
          let (q, r) := read_quant s' in (Lit x, q) :: compile_go fuel' r
      | String "." s' =>
          let (q, r) := read_quant s' in (AnyChar, q) :: compile_go fuel' r
      | String x s' =>
          let (q, r) := read_quant s' in (Lit x, q) :: compile_go fuel' r
      end
  end.

Definition compile (pattern : string) : list item :=
  compile_go (String.length pattern) pattern.

(** [c+] is [c] followed by [c*]. *)
Fixpoint expand (p : list item) : list item :=
  match p with
  | [] => []
  | (c, Plus) :: p' => (c, One) :: (c, Star) :: expand p'
  | x :: p' => x :: expand p'
  end.

Definition is_star (q : quant) : bool :=
  match q with Star => true | _ => false end.

Definition skippable (q : quant) : bool :=
  match q with Star | Opt => true | _ => false end.

(** The matcher follows all the ways to match at once.  A position is a
    number of atoms already matched; [old] flags, atom by atom, the
    positions that are open before the character [a] is read, and the
    result flags those open after it.  [carry] opens the current
    position from the left: by the previous atom consuming [a], or by
    skipping a starred or optional atom.  The last component tells
    whether the position after the last atom is open, that is, whether
    a match ends here.  [a = None] computes the positions open at the
    start. *)
Fixpoint advance (a : option ascii) (p : list item) (old : list bool) (carry : bool)
  : list bool * bool :=
  match p with
  | [] => ([], carry)
  | (c, q) :: p' =>
      let was_open := match old with x :: _ => x | [] => false end in
      let hit := (was_open && match a with Some ch => cls_ok c ch | None => false end)%bool in
      let open := (carry || (hit && is_star q))%bool in
      let carry' := ((hit && negb (is_star q)) || (open && skippable q))%bool in
      let (rest, fin) := advance a p' (tl old) carry' in
      (open :: rest, fin)
  end.

(** A match may start at every character: the first position is opened
    again at each step. *)
Fixpoint scan (p : list item) (open : list bool) (s : list ascii) : bool :=
  match s with
  | [] => false
  | a :: s' =>
      let (open', fin) := advance (Some a) p open true in
      (fin || scan p open' s')%bool
  end.

Definition search_at (p : list item) (s : list ascii) : bool :=
  let (open, fin) := advance None p [] true in
  (fin || scan p open s)%bool.

(** [re.search(pattern, text, re.IGNORECASE) is not None] *)
Definition search (pattern text : string) : bool :=
  search_at (expand (compile pattern)) (Text.chars text).

End Re.

(** ** The coordinator of [main.py] *)

Module Coordinator.

(** An interest report, as put on [interest_report_queue] by a bot. *)
Record Report := {
  message_id : Z;
  bot_id : string;
  is_interested : bool;
  is_personal_question : bool;
  user_id : Z;
  username : string;
  message_text : string;
  replied_to_message_id : option Z
}.

(** A record of the conversation log, with the fields the coordinator
    reads through [msg.get]. *)
Record Msg := {
  msg_message_id : option Z;
  msg_sender_type : option string;
  msg_sender_id : option string;
  msg_in_reply_to : option Z
}.

(** The registry [bots]: bot id and [bot.personality['name']], in
    insertion order. *)
Definition Bots : Type := list (string * string).

(** [bot_id in bots] *)
Definition in_bots (b : string) (bots : Bots) : bool :=
  existsb (fun kv => String.eqb (fst kv) b) bots.

(** [bots[bot_id].personality['name']] *)
Fixpoint name_of (b : string) (bots : Bots) : option string :=
  match bots with
  | [] => None
  | (k, n) :: bots' => if String.eqb k b then Some n else name_of b bots'
  end.

(** [reports[bot_id] = report]: an existing key keeps its place. *)
Fixpoint dict_set {V : Type} (k : string) (v : V) (d : list (string * V))
  : list (string * V) :=
  match d with
  | [] => [(k, v)]
  | (k', v') :: d' =>
      if String.eqb k' k then (k, v) :: d' else (k', v') :: dict_set k v d'
  end.

(** Truth value of an optional message id ([None] and [0] are false). *)
Definition id_truthy (o : option Z) : bool :=
  match o with Some z => negb (Z.eqb z 0) | None => false end.

Definition opt_Z_eqb (a b : option Z) : bool :=
  match a, b with
  | Some x, Some y => Z.eqb x y
  | None, None => true
  | _, _ => false
  end.

Definition opt_str_is (a : option string) (s : string) : bool :=
  match a with Some x => String.eqb x s | None => false end.

(** [is_bot_name_mentioned(bot_id, message_text, bots)] *)
Definition is_bot_name_mentioned (b text : string) (bots : Bots) : bool :=
  if negb (Text.truthy text) || negb (in_bots b bots) then false
  else
    let message_text_lower := Text.lower text in
    match name_of b bots with
    | None => false
    | Some name =>
        if Text.contains (Text.lower name) message_text_lower then true
        else
          let words := Text.split message_text_lower in
          if String.eqb b "bot1" then Text.mem "max" words || Text.mem "btc" words
          else if String.eqb b "bot2" then Text.mem "evan" words || Text.mem "$evan" words
          else if String.eqb b "bot3" then Text.mem "goldy" words || Text.mem "goldilocks" words
          else false
    end.

Definition btc_indicators : list string :=
  ["bitcoin"; "btc"; "crypto"; "trading"; "hodl"; "chart";
   "conference"; "wharton"; "miami"; "tesla"; "f1"].
Definition evan_indicators : list string :=
  ["liquidity"; "cat"; "degen"; "storage"; "unit"; "hobo";
   "ramen"; "energy drink"; "rugpull"; "rug"; "wallet"].
Definition goldy_indicators : list string :=
  ["gold"; "kids"; "family"; "children"; "goldilocks"; "balance";
   "portfolio"; "husband"; "david"; "emma"; "jackson"; "lily"].

(** [personality_mentions_bot(message_text, bot_id, bots)] *)
Definition personality_mentions_bot (text b : string) (bots : Bots) : bool :=
  if negb (Text.truthy text) || negb (in_bots b bots) then false
  else
    let message_lower := Text.lower text in
    if String.eqb b "bot1" then Text.any_in btc_indicators message_lower
    else if String.eqb b "bot2" then Text.any_in evan_indicators message_lower
    else if String.eqb b "bot3" then Text.any_in goldy_indicators message_lower
    else false.

(** *** The coordinator-level spam filter *)

Definition spam_patterns : list string :=
  [ "FORWARDED FROM.*";
    ".*Booosts?:.*";
    ".*RAID.*FOR.*EVAN.*";
    ".*raid.*";
    ".*raid.*evan.*";
    ".*evan.*raid.*";
    ".*ðŸ’° FORWARDED FROM.*";
    ".*\$EVAN \| LORD OF DEGENS.*";
    ".*evanraiderbot.*";
    ".*ruginaha:.*";
    "FORWARDED MESSAGE";
    ".*FORWARDED MESSAGE.*";
    ".*t\.me/.*";
    ".*https://x\.com/.*";
    ".*Likes \d+ \| \d+.*";
    ".*Retweets \d+ \| \d+.*";
    ".*Replies \d+ \| \d+.*";
    ".*tg://resolve\?domain=.*";
    ".*airdrop.*\.com.*";
    ".*giveaway.*\.com.*";
    ".*promo.*\.com.*";
    ".*token.*sale.*\.com.*";
    ".*flooz\.io.*";
    ".*raydium\.io.*pump.*" ].

Definition suspicious_patterns : list string :=
  ["forwarded"; "boost"; "raid"; "promotion"; "vote"; "bot"; "airdrop"; "giveaway"].

(** The value of [is_spam] when the early exit is tested: the pattern
    loop, then the check of an [evan] mention in a suspicious context. *)
Definition is_spam (text : string) : bool :=
  if existsb (fun pattern => Re.search pattern text) spam_patterns then true
  else
    let t := Text.lower text in
    (Text.contains "$evan" t || Text.contains "evan" t)
    && Text.any_in suspicious_patterns t.

(** *** [is_general_request], the helper local to the pipeline *)

Definition request_phrases : list string :=
  [ "can someone"; "can anyone"; "anyone know"; "get me"; "find me"; "show me";
    "check on"; "tell me"; "look up"; "search for"; "what are"; "whats"; "what's";
    "what is happening"; "what's happening"; "whats happening";
    "what is going on"; "what's going on"; "whats going on";
    "update on"; "latest on"; "news from"; "news on"; "anything new";
    "any news"; "so any"; "give me"; "who knows"; "you guys";
    "what about"; "trenches"; "updates"; "anyone here"; "somebody";
    "search"; "look up"; "find"; "get info"; "information on"; "details about";
    "latest news"; "recent news"; "news about"; "news now"; "rugs"; "rug pulls";
    "find news"; "search news"; "get news"; "crypto news" ].

Definition question_starters : list string :=
  ["what"; "how"; "who"; "where"; "why"; "when"; "is"; "are"; "can"; "could";
   "do"; "does"; "has"; "have"; "should"; "would"].

Definition casual_words : list string :=
  ["hi"; "hello"; "hey"; "lol"; "haha"; "nice"; "cool"; "wow"].

Definition is_general_request (text : string) : bool :=
  let text_lower := Text.strip (Text.lower text) in
  if Text.any_in request_phrases text_lower then true
  else
    let words := Text.split text_lower in
    let first_word := match words with w :: _ => w | [] => "" end in
    if Text.mem first_word question_starters then true
    else if Text.endswith "?" text then true
    else if Text.contains "trenches" text_lower then true
    else if (Nat.leb 2 (length words) && Nat.leb (length words) 5)
            && negb (existsb (fun word => Text.mem word casual_words) words)
         then true
    else false.

(** *** [process_message_interest_after_delay] *)

(** The random source: the value of the one [random.random()] call a run
    makes, and the index picked by [random.choice]. *)
Record Rand := { random_random : Q; random_choice : nat }.

Definition Qltb (a b : Q) : bool := negb (Qle_bool b a).

(** What one run of the pipeline does: the bots whose
    [generate_and_send_response_async] task is created, the
    [assignment_reason] they are given, and whether the run deleted the
    entry of the message from [pending_interest_reports]. *)
Record Outcome := {
  responders : list string;
  reason : option string;
  cleared : bool
}.

Definition nothing : Outcome :=
  {| responders := []; reason := None; cleared := false |}.

(** The state of [responding_bots] and [assignment_reason] between two
    stages, or an early [return]. *)
Inductive Stage :=
| Return (o : Outcome)
| Continue (responding_bots : list string) (assignment_reason : option string).

Definition is_nil {A : Type} (l : list A) : bool :=
  match l with [] => true | _ => false end.

Definition keys {V : Type} (d : list (string * V)) : list string := map fst d.

(** First loop of the reply check: the first record with the id and a
    bot sender ends the search. *)
Fixpoint find_replied_to_bot (rid : option Z) (recent : list Msg) : option string :=
  match recent with
  | [] => None
  | msg :: recent' =>
      if opt_Z_eqb (msg_message_id msg) rid
      then match msg_sender_id msg with
           | Some sender_id =>
               if opt_str_is (msg_sender_type msg) "bot" && Text.truthy sender_id
               then Some sender_id
               else find_replied_to_bot rid recent'
           | None => find_replied_to_bot rid recent'
           end
      else find_replied_to_bot rid recent'
  end.

(** Inner loop of the second lookup: the first bot the text points at. *)
Definition likely_sender (text : string) (bots : Bots) : option string :=
  match List.filter (fun b => Text.contains ("message from " ++ b) (Text.lower text)
                         || is_bot_name_mentioned b text bots) (keys bots) with
  | b :: _ => Some b
  | [] => None
  end.

(** Second lookup: every bot record that replies to the same id runs the
    inner loop again. *)
Definition infer_replied_to_bot (rid : option Z) (text : string) (bots : Bots)
    (recent : list Msg) : option string :=
  fold_left
    (fun acc msg =>
       if opt_Z_eqb (msg_in_reply_to msg) rid && opt_str_is (msg_sender_type msg) "bot"
       then match likely_sender text bots with Some b => Some b | None => acc end
       else acc)
    recent None.

Definition direct_reply_reason (b : string) : string :=
  if String.eqb b "bot1" then "direct_reply_to_btcmax"
  else if String.eqb b "bot2" then "direct_reply_to_evan"
  else if String.eqb b "bot3" then "direct_reply_to_goldilocks"
  else "direct_reply_to_bot".

(** Content fallback of the reply check. *)
Fixpoint content_mention_fallback (text : string) (bots : Bots) : Stage :=
  match bots with
  | [] => Continue [] None
  | (b, bot_name) :: bots' =>
      if Text.contains (Text.lower bot_name) (Text.lower text)
         || Text.contains (Text.lower b) (Text.lower text)
      then Continue [b] (Some "content_mention_fallback")
      else content_mention_fallback text bots'
  end.

(** The branch [elif replied_to_message_id:]. *)
Definition reply_to_bot_check (rid : option Z) (text : string) (bots : Bots)
    (recent : nat -> list Msg) : Stage :=
  let recent_conversations := recent 500%nat in
  let replied_to_bot_id :=
    match find_replied_to_bot rid recent_conversations with
    | Some b => Some b
    | None => infer_replied_to_bot rid text bots recent_conversations
    end in
  match replied_to_bot_id with
  | Some b =>
      if Text.truthy b && in_bots b bots
      then Return {| responders := [b];
                     reason := Some (direct_reply_reason b);
                     cleared := true |}
      else content_mention_fallback text bots
  | None => content_mention_fallback text bots
  end.

(** The loop that collects [mentioned_bots] over the whole registry. *)
Definition mentioned_bots (text : string) (bots : Bots) : list string :=
  fold_left
    (fun acc b =>
       if is_bot_name_mentioned b text bots
       then (if Text.mem b acc then acc else acc ++ [b])
       else acc)
    (keys bots) [].

(** The branch of the bot name mentions. *)
Definition name_mention_routing (text : string) (bots : Bots) : Stage :=
  match mentioned_bots text bots with
  | [] => Continue [] None
  | [mentioned_bot_id] => Continue [mentioned_bot_id] (Some "name_mention")
  | several => Continue several (Some "multiple_name_mentions")
  end.

(** The branch of the interest reports. *)
Definition interest_based_routing (reports : list (string * Report)) : Stage :=
  let truly_interested_bots :=
    keys (List.filter (fun kv => is_interested (snd kv)) reports) in
  match truly_interested_bots with
  | [] => Continue [] None
  | first :: _ =>
      if Text.mem "bot1" truly_interested_bots
      then Continue ["bot1"] (Some "interest_priority_bot1")
      else if Text.mem "bot3" truly_interested_bots
      then Continue ["bot3"] (Some "interest_priority_bot3")
      else if Text.mem "bot2" truly_interested_bots
      then Continue ["bot2"] (Some "interest_priority_bot2")
      else Continue [first] None
  end.

(** The chain [if ... elif ... elif not responding_bots: ... elif not
    responding_bots: ...].  [responding_bots] is the empty list assigned
    just before the chain, and no test of the chain changes it. *)
Definition routing_chain (reports : list (string * Report)) (text : string)
    (rid : option Z) (bots : Bots) (recent : nat -> list Msg) : Stage :=
  let responding_bots : list string := [] in
  if Text.contains "$evan" (Text.lower text) && in_bots "bot2" bots
  then Continue ["bot2"] (Some "$evan_token_mention")
  else if id_truthy rid
  then reply_to_bot_check rid text bots recent
  else if is_nil responding_bots
  then name_mention_routing text bots
  else if is_nil responding_bots
  then interest_based_routing reports
  else Continue responding_bots None.

(** General request routing, entered when no bot is selected yet. *)
Definition general_request_routing (text : string) (bots : Bots) (rnd : Rand)
  : list string * option string :=
  if is_general_request text then
    let assignment_choice := random_random rnd in
    if Qltb assignment_choice (7 # 10) && in_bots "bot2" bots
    then (["bot2"], Some "general_request")
    else if Qltb assignment_choice (85 # 100) && in_bots "bot1" bots
    then (["bot1"], Some "general_request")
    else if in_bots "bot3" bots
    then (["bot3"], Some "general_request")
    else
      let available_bot_ids := keys bots in
      match available_bot_ids with
      | [] => ([], None)
      | b :: _ =>
          ([nth (random_choice rnd mod length available_bot_ids) available_bot_ids b],
           Some "general_request_fallback")
      end
  else if Nat.leb (length (Text.split text)) 5 && in_bots "bot2" bots
          && Qltb (random_random rnd) (3 # 10)
  then (["bot2"], Some "random_short_message_fallback")
  else ([], None).

(** The lookup of the final check: no [break], the last record with the
    id and a known bot sender wins. *)
Definition direct_reply_fallback (rid : option Z) (bots : Bots) (recent : list Msg)
  : list string * option string :=
  fold_left
    (fun acc msg =>
       if opt_Z_eqb (msg_message_id msg) rid && opt_str_is (msg_sender_type msg) "bot"
       then match msg_sender_id msg with
            | Some b => if Text.truthy b && in_bots b bots
                        then ([b], Some "direct_reply_fallback") else acc
            | None => acc
            end
       else acc)
    recent ([], None).

Definition reply_phrases : list string :=
  [ "glad you"; "why did you"; "how did you"; "tell me more"; "when did you";
    "where did you"; "glad to hear"; "that's great"; "that's good"; "congratulations";
    "congrats"; "thanks for"; "thank you for"; "appreciate your"; "interesting point";
    "good point"; "nice to hear"; "sorry to hear"; "that's too bad" ].

Definition search_keywords : list string :=
  ["search"; "find"; "look up"; "check"; "news"; "info";
   "current"; "latest"; "update"; "price"; "rugs"; "status"].

(** The reply part of the final check. *)
Definition reply_fallbacks (rid : option Z) (text : string) (bots : Bots)
    (recent : nat -> list Msg) : list string * option string :=
  let found := direct_reply_fallback rid bots (recent 1000%nat) in
  if negb (is_nil (fst found)) then found
  else
    match List.filter (fun b => is_bot_name_mentioned b text bots
                           || personality_mentions_bot text b bots) (keys bots) with
    | b :: _ => ([b], Some "content_reference_fallback")
    | [] =>
        if Text.contains "liquidity" (Text.lower text)
           && Text.contains "cat" (Text.lower text) && in_bots "bot2" bots
        then (["bot2"], Some "liquidity_cat_fallback")
        else if Text.any_in reply_phrases (Text.lower text) && in_bots "bot2" bots
        then (["bot2"], Some "reply_phrase_fallback")
        else found
    end.

Definition search_keyword_fallback (text : string) (bots : Bots)
  : list string * option string :=
  let message_words := Text.split (Text.lower text) in
  if existsb (fun keyword => Text.mem keyword message_words) search_keywords
  then
    if in_bots "bot2" bots then (["bot2"], Some "search_keyword_fallback")
    else if in_bots "bot1" bots then (["bot1"], Some "search_keyword_fallback")
    else if in_bots "bot3" bots then (["bot3"], Some "search_keyword_fallback")
    else ([], None)
  else ([], None).

(** The final check, entered when no bot is selected yet. *)
Definition final_check (rid : option Z) (text : string) (bots : Bots)
    (recent : nat -> list Msg) : list string * option string :=
  let sel := if id_truthy rid then reply_fallbacks rid text bots recent
             else ([], None) in
  if is_nil (fst sel) then search_keyword_fallback text bots else sel.

(** The loop that creates the response tasks.  A selection without an
    [assignment_reason] cannot be announced: the run ends in the handler
    of the outer [try] before any task is created. *)
Definition trigger (responding_bots : list string) (assignment_reason : option string)
    (bots : Bots) : Outcome :=
  match assignment_reason with
  | Some r =>
      {| responders := List.filter (fun b => in_bots b bots) responding_bots;
         reason := Some r; cleared := false |}
  | None => nothing
  end.

(** The stages after the [elif] chain. *)
Definition after_chain (responding_bots : list string) (assignment_reason : option string)
    (rid : option Z) (text : string) (bots : Bots) (recent : nat -> list Msg)
    (rnd : Rand) : Outcome :=
  let sel1 := if is_nil responding_bots then general_request_routing text bots rnd
              else (responding_bots, assignment_reason) in
  let sel2 := if is_nil (fst sel1) then final_check rid text bots recent else sel1 in
  if is_nil (fst sel2) then nothing
  else trigger (fst sel2) (snd sel2) bots.

(** [process_message_interest_after_delay], on the reports found in
    [pending_interest_reports] for the message. *)
Definition process_message_interest_after_delay (reports : list (string * Report))
    (bots : Bots) (recent : nat -> list Msg) (rnd : Rand) : Outcome :=
  match reports with
  | [] => nothing
  | (_, first_report) :: _ =>
      let text := message_text first_report in
      let rid := replied_to_message_id first_report in
      if is_spam text
      then {| responders := []; reason := None; cleared := true |}
      else
        let personal_question_reports :=
          List.filter (fun kv => is_personal_question (snd kv)) reports in
        if negb (is_nil personal_question_reports)
        then {| responders := List.filter (fun b => in_bots b bots)
                                     (keys personal_question_reports);
                reason := Some "personal_question"; cleared := true |}
        else
          match routing_chain reports text rid bots recent with
          | Return o => o
          | Continue responding_bots assignment_reason =>
              after_chain responding_bots assignment_reason rid text bots recent rnd
          end
  end.

(** A report with its [is_interested] replaced. *)
Definition with_interest (i : bool) (r : Report) : Report :=
  {| message_id := message_id r; bot_id := bot_id r; is_interested := i;
     is_personal_question := is_personal_question r; user_id := user_id r;
     username := username r; message_text := message_text r;
     replied_to_message_id := replied_to_message_id r |}.

(** The registry [main] builds when the three tokens are set. *)
Definition all_bots : Bots :=
  [("bot1", "BTC Max"); ("bot2", "$EVAN the hobo"); ("bot3", "Goldilocks")].

End Coordinator.

(** ** The consumer of [interest_report_queue] and its timers *)

Module Aggregator.
Import Coordinator.

(** One entry of [pending_interest_reports]: the reports by bot id and
    whether [timer_handle] is set. *)
Record Bucket := {
  reports : list (string * Report);
  timer_handle : bool
}.

(** The entry [defaultdict] creates on a missing key. *)
Definition fresh_bucket : Bucket := {| reports := []; timer_handle := false |}.

(** The coordination state: the pending table, the message ids of the
    [call_later] handles that have not fired yet, and the runs of
    [process_message_interest_after_delay] made so far, oldest first. *)
Record State := {
  pending_interest_reports : gmap Z Bucket;
  armed : list Z;
  runs : list (Z * Outcome)
}.

Definition initial : State :=
  {| pending_interest_reports := ∅; armed := []; runs := [] |}.


Definition suspicious_terms : list string :=
  ["raid"; "forward"; "boost"; "vote"; "promotion"; "bot"; "airdrop"].

(** The guard at the head of the consumer loop that drops a report. *)
Definition evan_protection (report : Report) : bool :=
  let text := Text.lower (message_text report) in
  String.eqb (bot_id report) "bot2"
  && (Text.contains "evan" text || Text.contains "$evan" text)
  && Text.any_in suspicious_terms text.

(** One iteration of the loop of [coordinate_user_responses], on the
    report taken from the queue. *)
Definition coordinate_user_responses (report : Report) (st : State) : State :=
  if evan_protection report then st
  else
    let mid := message_id report in
    let message_reports :=
      default fresh_bucket (pending_interest_reports st !! mid) in
    let stored := dict_set (bot_id report) report (reports message_reports) in
    if timer_handle message_reports
    then {| pending_interest_reports :=
              <[mid := {| reports := stored; timer_handle := true |}]>
                (pending_interest_reports st);
            armed := armed st;
            runs := runs st |}
    else {| pending_interest_reports :=
              <[mid := {| reports := stored; timer_handle := true |}]>
                (pending_interest_reports st);
            armed := armed st ++ [mid];
            runs := runs st |}.










End Aggregator.

(** ** JSON values, as [json.loads] builds them *)

Module Json.

#[local] Set Warnings "-register-all".

Inductive json :=
| JNull
| JBool (b : bool)
| JNum (q : Q)
| JStr (s : string)
| JArr (l : list json)
| JObj (o : list (string * json)).

Definition dict : Type := list (string * json).

(** [k in d] *)
Definition has_key (k : string) (d : dict) : bool :=
  existsb (fun kv => String.eqb (fst kv) k) d.

(** [d.get(k)]; a missing key gives [None]. *)
Fixpoint get (k : string) (d : dict) : json :=
  match d with
  | [] => JNull
  | (k', v) :: d' => if String.eqb k' k then v else get k d'
  end.

(** [d[k] = v] *)
Definition set (k : string) (v : json) (d : dict) : dict :=
  Coordinator.dict_set k v d.

Definition num_of_bool (b : bool) : Q := if b then 1 else 0.

(** [a == b] on JSON values: numbers by value, [True == 1], lists in
    order, dictionaries key by key. *)
Fixpoint py_eq (a b : json) {struct a} : bool :=
  match a, b with
  | JNull, JNull => true
  | JBool x, JBool y => Bool.eqb x y
  | JBool x, JNum q => Qeq_bool (num_of_bool x) q
  | JNum q, JBool y => Qeq_bool q (num_of_bool y)
  | JNum p, JNum q => Qeq_bool p q
  | JStr s, JStr t => String.eqb s t
  | JArr l, JArr m =>
      (fix go (l m : list json) : bool :=
         match l, m with
         | [], [] => true
         | x :: l', y :: m' => py_eq x y && go l' m'
         | _, _ => false
         end) l m
  | JObj o, JObj p =>
      Nat.eqb (length o) (length p)
      && (fix go (o : list (string * json)) : bool :=
            match o with
            | [] => true
            | (k, v) :: o' => has_key k p && py_eq v (get k p) && go o'
            end) o
  | _, _ => false
  end.


(** The document every reset path writes. *)
Definition default_data : dict :=
  [ ("conversations", JArr []);
    ("user_data", JObj []);
    ("web_content", JArr []);
    ("recent_bot_topics", JArr []);
    ("recent_topics", JObj []) ].

(** The five fields [load_data] backfills. *)
Definition required_fields : list string :=
  ["conversations"; "user_data"; "web_content"; "recent_bot_topics"; "recent_topics"].

Definition complete (d : dict) : bool :=
  forallb (fun k => has_key k d) required_fields.

(** The value each of them is created with. *)
Definition empty_container (k : string) : json :=
  if String.eqb k "conversations" then JArr []
  else if String.eqb k "user_data" then JObj []
  else if String.eqb k "web_content" then JArr []
  else if String.eqb k "recent_bot_topics" then JArr []
  else if String.eqb k "recent_topics" then JObj []
  else JNull.

(** [if k not in d: d[k] = v] *)
Definition fill (k : string) (v : json) (d : dict) : dict :=
  if has_key k d then d else set k v d.

End Json.

(** ** The files under the store *)

Module Fs.
Import Json.

(** What a file holds: the text [json.dump] wrote for a value, or any
    other text. *)
Inductive content :=
| Dumped (v : json)
| Raw (text : string).

Record file := { data : content; mtime : Q }.

(** [os.path.basename] *)
Fixpoint basename_go (cur : list ascii) (s : string) : string :=
  match s with
  | EmptyString => Text.of_chars (rev cur)
  | String c s' =>
      if Ascii.eqb c "/"%char then basename_go [] s' else basename_go (c :: cur) s'
  end.

Definition basename (path : string) : string := basename_go [] path.

(** A path matches [prefix*] when it starts with [prefix] and the rest
    stays in the same directory. *)
Definition glob_match (prefix path : string) : bool :=
  Text.startswith prefix path
  && negb (Text.contains "/" (Text.drop (String.length prefix) path)).

(** [glob.glob(prefix + "*")], in the order of the directory listing. *)
Definition glob (prefix : string) (fs : gmap string file) : list (string * file) :=
  List.filter (fun pf => glob_match prefix (fst pf)) (map_to_list fs).

(** [max(files, key=os.path.getmtime)]: the first of the newest. *)
Fixpoint newest (cur : string * file) (l : list (string * file)) : string * file :=
  match l with
  | [] => cur
  | x :: l' =>
      if Coordinator.Qltb (mtime (snd cur)) (mtime (snd x))
      then newest x l' else newest cur l'
  end.

(** [files.sort(key=os.path.getmtime, reverse=True)]: newest first,
    files of equal age in their former order. *)
Fixpoint insert_by_mtime (x : string * file) (l : list (string * file))
  : list (string * file) :=
  match l with
  | [] => [x]
  | y :: l' =>
      if Coordinator.Qltb (mtime (snd y)) (mtime (snd x))
      then x :: y :: l'
      else y :: insert_by_mtime x l'
  end.

Definition sort_newest_first (l : list (string * file)) : list (string * file) :=
  fold_right insert_by_mtime [] l.

(** [os.path.getsize(path) > 0] *)
Definition nonempty (f : file) : bool :=
  match data f with
  | Dumped _ => true
  | Raw text => Text.truthy text
  end.

End Fs.

(** ** [SharedMemory]: reading *)

Module Store.
Import Json Fs.

(** The outcome of a call that can end in an exception the method does
    not handle. *)
Inductive result (A : Type) :=
| Ok (a : A)
| Raise.
Arguments Ok {A} a.
Arguments Raise {A}.

(** The instance: its path, the files it can see, the read cache and
    the in-memory copy [self.conversations]. *)
Record Store := {
  file_path : string;
  fs : gmap string file;
  _cached_data : option json;
  _cache_timestamp : Q;
  conversations : json
}.

Definition _cache_valid_seconds : Q := 5.
Definition max_retries : nat := 5.

Definition with_fs (st : Store) (fs' : gmap string file) : Store :=
  {| file_path := file_path st; fs := fs';
     _cached_data := _cached_data st;
     _cache_timestamp := _cache_timestamp st;
     conversations := conversations st |}.

Definition with_cache (st : Store) (d : json) (now : Q) : Store :=
  {| file_path := file_path st; fs := fs st;
     _cached_data := Some d;
     _cache_timestamp := now;
     conversations := conversations st |}.

(** [open(path, 'w')] followed by [json.dump(v, f, indent=2)]. *)
Definition write_json (path : string) (v : json) (now : Q) (fs : gmap string file)
  : gmap string file :=
  <[path := {| data := Dumped v; mtime := now |}]> fs.

(** [shutil.copy2(src, dst)]: content and modification time. *)
Definition copy2 (src dst : string) (fs : gmap string file)
  : option (gmap string file) :=
  match fs !! src with
  | Some f => Some (<[dst := f]> fs)
  | None => None
  end.

(** [x.copy()]: dictionaries and lists have the method. *)
Definition copy (v : json) : result json :=
  match v with
  | JObj _ | JArr _ => Ok v
  | _ => Raise
  end.

(** [if k not in data: data[k] = v] on whatever was parsed: a list is
    searched for the element and a string for the substring, and neither
    accepts the assignment. *)
Definition ensure_field (k : string) (v : json) (data : json) : result json :=
  match data with
  | JObj d => Ok (JObj (if has_key k d then d else set k v d))
  | JArr l => if existsb (py_eq (JStr k)) l then Ok data else Raise
  | JStr text => if Text.contains k text then Ok data else Raise
  | _ => Raise
  end.

Definition bind {A B : Type} (r : result A) (k : A -> result B) : result B :=
  match r with Ok a => k a | Raise => Raise end.

(** The backfill of [load_data], in its order. *)
Definition ensure_required_fields (data : json) : result json :=
  bind (ensure_field "recent_bot_topics" (JArr []) data) (fun data =>
  bind (ensure_field "conversations" (JArr []) data) (fun data =>
  bind (ensure_field "user_data" (JObj []) data) (fun data =>
  bind (ensure_field "web_content" (JArr []) data) (fun data =>
  ensure_field "recent_topics" (JObj []) data)))).

(** *** The text repair of [_try_repair_json_file] *)

(** [re.sub(r',\s*X', 'X', content)] for a closing character [X]:
    [held] is a comma and the blanks read after it, in reverse. *)
Fixpoint strip_trailing_go (close : ascii) (held : list ascii) (s : string) : string :=
  match s with
  | EmptyString => Text.of_chars (rev held)
  | String c s' =>
      match held with
      | [] =>
          if Ascii.eqb c ","%char then strip_trailing_go close [c] s'
          else String c (strip_trailing_go close [] s')
      | _ =>
          if Text.is_space c then strip_trailing_go close (c :: held) s'
          else if Ascii.eqb c close then String c (strip_trailing_go close [] s')
          else if Ascii.eqb c ","%char
          then (Text.of_chars (rev held) ++ strip_trailing_go close [c] s')%string
          else (Text.of_chars (rev held) ++ String c (strip_trailing_go close [] s'))%string
      end
  end.

Definition strip_trailing (close : ascii) (s : string) : string :=
  strip_trailing_go close [] s.

(** [content.count(c)] *)
Fixpoint count (c : ascii) (s : string) : nat :=
  match s with
  | EmptyString => 0
  | String x s' => (if Ascii.eqb x c then 1 else 0) + count c s'
  end.

Fixpoint replicate_char (n : nat) (c : ascii) : string :=
  match n with O => EmptyString | S n' => String c (replicate_char n' c) end.

Definition repaired_text (content : string) : string :=
  let content := strip_trailing "]"%char (strip_trailing "}"%char content) in
  let open_braces := (count "{"%char content - count "}"%char content)%nat in
  let open_brackets := (count "["%char content - count "]"%char content)%nat in
  (content ++ replicate_char open_braces "}"%char
           ++ replicate_char open_brackets "]"%char)%string.

Section Reading.

(** [json.loads] on a text that [json.dump] did not write. *)
Variable json_loads : string -> option json.

(** The parse of [load_data]: [None] stands for the two exceptions its
    handler catches, a missing file and a text that does not parse (a
    blank file is rejected before [json.loads] sees it). *)
Definition read_json (st : Store) : option json :=
  match fs st !! file_path st with
  | None => None
  | Some f =>
      match data f with
      | Dumped v => Some v
      | Raw text =>
          if Text.truthy (Text.strip text) then json_loads text else None
      end
  end.

(** [_try_restore_from_backup] *)
Definition _try_restore_from_backup (st : Store) : bool * Store :=
  match glob (file_path st ++ ".backup.") (fs st) with
  | [] => (false, st)
  | first :: others =>
      let newest_backup := fst (newest first others) in
      match copy2 newest_backup (file_path st) (fs st) with
      | Some fs' => (true, with_fs st fs')
      | None => (false, st)
      end
  end.

(** [_try_repair_json_file].  [load_data] calls it only after a failed
    parse, when the file does not hold a dumped value; such a file, were
    it repaired, is written back as it is. *)
Definition _try_repair_json_file (st : Store) (now : Q) (stamp : string)
  : bool * Store :=
  match fs st !! file_path st with
  | None => (false, st)
  | Some f =>
      let backup_path := (file_path st ++ ".beforerepair." ++ stamp)%string in
      let fs1 := <[backup_path := {| data := data f; mtime := now |}]> (fs st) in
      match data f with
      | Dumped v => (true, with_fs st (write_json (file_path st) v now fs1))
      | Raw content =>
          if negb (Text.truthy (Text.strip content))
          then (true, with_fs st (write_json (file_path st) (JObj default_data) now fs1))
          else
            match json_loads (repaired_text content) with
            | Some repaired_data =>
                (true, with_fs st (write_json (file_path st) repaired_data now fs1))
            | None => (false, with_fs st fs1)
            end
      end
  end.

(** [_create_new_memory_file] *)
Definition _create_new_memory_file (st : Store) (now : Q) (stamp : string) : Store :=
  let backup_path := (file_path st ++ ".corrupted." ++ stamp)%string in
  let fs1 := default (fs st) (copy2 (file_path st) backup_path (fs st)) in
  with_fs st (write_json (file_path st) (JObj default_data) now fs1).

(** The end of a successful read: backfill, fill the cache, return a
    copy. *)
Definition finish_load (data : json) (st : Store) (now : Q) : result json * Store :=
  match ensure_required_fields data with
  | Raise => (Raise, st)
  | Ok data => (copy data, with_cache st data now)
  end.

(** The code after the retry loop. *)
Definition all_retries_failed (st : Store) (now : Q) : result json * Store :=
  let st1 := with_fs st (write_json (file_path st) (JObj default_data) now (fs st)) in
  (Ok (JObj default_data), with_cache st1 (JObj default_data) now).

(** The retry loop of [load_data] over the attempts still to make. *)
Fixpoint load_attempts (attempts : list nat) (st : Store) (now : Q) (stamp : string)
  : result json * Store :=
  match attempts with
  | [] => all_retries_failed st now
  | attempt :: rest =>
      match read_json st with
      | Some data => finish_load data st now
      | None =>
          if Nat.eqb attempt 0
          then load_attempts rest (snd (_try_restore_from_backup st)) now stamp
          else if Nat.eqb attempt 1
          then load_attempts rest (snd (_try_repair_json_file st now stamp)) now stamp
          else if Nat.eqb attempt (max_retries - 1)
          then
            let st1 := _create_new_memory_file st now stamp in
            (Ok (JObj default_data), with_cache st1 (JObj default_data) now)
          else load_attempts rest st now stamp
      end
  end.

(** [load_data] at time [now]; [stamp] is the text of the date that the
    recovery steps put in file names. *)
Definition load_data (st : Store) (now : Q) (stamp : string) : result json * Store :=
  match _cached_data st with
  | Some cached =>
      if Coordinator.Qltb (now - _cache_timestamp st) _cache_valid_seconds
      then (copy cached, st)
      else load_attempts (seq 0 max_retries) st now stamp
  | None => load_attempts (seq 0 max_retries) st now stamp
  end.

End Reading.

(** ** [SharedMemory]: writing *)

(** Where one attempt of [save_data] can fail: opening the temporary
    file, while [json.dump] writes (the text written so far stays in the
    temporary file), in [os.fsync], or in [os.rename]. *)
Inductive Fault :=
| NoFault
| OpenFails
| DumpFails (partial : string)
| SyncFails
| RenameFails.

(** The successive states of the file system during a call, oldest
    first: one entry for each operation that changes a file. *)
Definition Trace : Type := list (gmap string file).

Definition last_fs (t : Trace) (fs0 : gmap string file) : gmap string file :=
  List.last t fs0.

Definition backup_prefix (path : string) : string :=
  ("backups/" ++ basename path ++ ".backup.")%string.

Definition temp_file (path : string) : string := (path ++ ".tmp")%string.

(** The removals of [cleanup_old_backups], one state after each. *)
Fixpoint remove_all (files : list (string * file)) (fs : gmap string file) : Trace :=
  match files with
  | [] => []
  | old_file :: files' =>
      let fs' := delete (fst old_file) fs in
      fs' :: remove_all files' fs'
  end.

(** [cleanup_old_backups(max_backups=10)] *)
Definition cleanup_old_backups (path : string) (fs : gmap string file) : Trace :=
  let backup_files := glob (backup_prefix path) fs in
  if Nat.leb (length backup_files) 10 then []
  else remove_all (skipn 10 (sort_newest_first backup_files)) fs.

(** The backup taken at the first attempt; [copy_fails] says that
    [shutil.copy2] raised, which skips the cleanup as well. *)
Definition backup_before_save (path : string) (stamp : string) (copy_fails : bool)
    (fs : gmap string file) : Trace :=
  match fs !! path with
  | Some f =>
      if nonempty f && negb copy_fails
      then
        let backup_path := (backup_prefix path ++ stamp)%string in
        let fs1 := <[backup_path := f]> fs in
        fs1 :: cleanup_old_backups path fs1
      else []
  | None => []
  end.

(** The two steps of one attempt: write the temporary file, rename it
    over the primary file.  The flag says whether the attempt reached
    its [return]. *)
Definition write_attempt (path : string) (data : dict) (now : Q) (fault : Fault)
    (fs : gmap string file) : Trace * bool :=
  let created := <[temp_file path := {| Fs.data := Raw ""; mtime := now |}]> fs in
  let written := <[temp_file path := {| Fs.data := Dumped (JObj data); mtime := now |}]> fs in
  match fault with
  | OpenFails => ([], false)
  | DumpFails partial =>
      ([created; <[temp_file path := {| Fs.data := Raw partial; mtime := now |}]> fs], false)
  | SyncFails => ([created; written], false)
  | RenameFails => ([created; written], false)
  | NoFault =>
      ([created; written;
        <[path := {| Fs.data := Dumped (JObj data); mtime := now |}]>
          (delete (temp_file path) written)], true)
  end.

(** The retry loop of [save_data]: the trace of the attempts and
    whether one of them succeeded. *)
Fixpoint save_attempts (attempts : list nat) (path : string) (data : dict) (now : Q)
    (stamp : string) (copy_fails : bool) (faults : nat -> Fault)
    (fs : gmap string file) : Trace * bool :=
  match attempts with
  | [] => ([], false)
  | attempt :: rest =>
      let t1 := if Nat.eqb attempt 0
                then backup_before_save path stamp copy_fails fs else [] in
      let fs1 := last_fs t1 fs in
      let (t2, ok) := write_attempt path data now (faults attempt) fs1 in
      if ok then (t1 ++ t2, true)
      else
        let (t3, ok') :=
          save_attempts rest path data now stamp copy_fails faults (last_fs t2 fs1) in
        (t1 ++ t2 ++ t3, ok')
  end.

(** The trace of a call of [save_data]. *)
Definition save_trace (st : Store) (data : dict) (now : Q) (stamp : string)
    (copy_fails : bool) (faults : nat -> Fault) : Trace * bool :=
  save_attempts (seq 0 max_retries) (file_path st) data now stamp copy_fails faults (fs st).

(** [save_data]: the files after the last operation, and the cache
    refreshed when an attempt succeeded. *)
Definition save_data (st : Store) (data : dict) (now : Q) (stamp : string)
    (copy_fails : bool) (faults : nat -> Fault) : Store :=
  let (t, ok) := save_trace st data now stamp copy_fails faults in
  let st1 := with_fs st (last_fs t (fs st)) in
  if ok then with_cache st1 (JObj data) now else st1.

Definition no_faults : nat -> Fault := fun _ => NoFault.

(** The primary file is as it was before the call. *)
Definition kept (path : string) (old : option file) (fs' : gmap string file) : Prop :=
  fs' !! path = old.

(** The trace ends with the complete temporary file and then the
    rename; before the rename the primary file is as it was. *)
Definition committed (path : string) (old : option file) (new : file) (t : Trace)
  : Prop :=
  exists pre written final,
    t = pre ++ [written; final]
    /\ List.Forall (kept path old) pre
    /\ kept path old written
    /\ written !! temp_file path = Some new
    /\ final !! path = Some new
    /\ final !! temp_file path = None.

(** ** [SharedMemory]: construction, conversations, topics, settings *)

(** [l[-n:]] for a positive [n]. *)
Definition lastn {A : Type} (n : nat) (l : list A) : list A :=
  skipn (length l - n) l.



(** The record that is appended: the message, stamped unless it has a
    timestamp. *)
Definition stamped (message : dict) (now : Q) : json :=
  JObj (if has_key "timestamp" message then message
        else set "timestamp" (JNum now) message).



(** The topic entry [add_recently_used_topic] appends. *)
Definition topic_entry (topic_query : string) (current_time : Q) : json :=
  JObj [("query", JStr topic_query); ("time", JNum current_time)].

(** The body of [add_recently_used_topic] on the loaded document;
    [None] when it ends in the exception handler. *)
Definition add_topic (bot_id topic_query : string) (current_time : Q) (data : json)
  : option dict :=
  match data with
  | JObj d =>
      let d := if has_key "recent_topics" d then d else set "recent_topics" (JObj []) d in
      match get "recent_topics" d with
      | JObj recent_topics =>
          let recent_topics :=
            if has_key bot_id recent_topics then recent_topics
            else set bot_id (JArr []) recent_topics in
          match get bot_id recent_topics with
          | JArr topics =>
              let topics := topics ++ [topic_entry topic_query current_time] in
              let kept := if Nat.ltb 50 (length topics) then lastn 50 topics else topics in
              Some (set "recent_topics" (JObj (set bot_id (JArr kept) recent_topics)) d)
          | _ => None
          end
      | _ => None
      end
  | _ => None
  end.

(** [topic.get("time", 0)] as a number that can be compared; [None]
    when the comparison with the cutoff raises. *)
Definition time_of (topic : json) : option Q :=
  match topic with
  | JObj t =>
      if has_key "time" t
      then match get "time" t with
           | JNum q => Some q
           | JBool b => Some (num_of_bool b)
           | _ => None
           end
      else Some 0%Q
  | _ => None
  end.

(** [[topic for topic in topics if topic.get("time", 0) > cutoff_time]] *)
Fixpoint recent_entries (cutoff_time : Q) (topics : list json) : option (list json) :=
  match topics with
  | [] => Some []
  | topic :: topics' =>
      match time_of topic, recent_entries cutoff_time topics' with
      | Some t, Some r =>
          Some (if Coordinator.Qltb cutoff_time t then topic :: r else r)
      | _, _ => None
      end
  end.

(** The same comprehension over whatever the ledger holds for a bot. *)
Definition recent_of (cutoff_time : Q) (topics : json) : option (list json) :=
  match topics with
  | JArr l => recent_entries cutoff_time l
  | JObj [] => Some []
  | JStr EmptyString => Some []
  | _ => None
  end.

Fixpoint recent_by_bot (cutoff_time : Q) (ledger : dict)
  : option (list (string * list json)) :=
  match ledger with
  | [] => Some []
  | (bot_id, topics) :: ledger' =>
      match recent_of cutoff_time topics, recent_by_bot cutoff_time ledger' with
      | Some r, Some rest =>
          Some (match r with [] => rest | _ => (bot_id, r) :: rest end)
      | _, _ => None
      end
  end.

(** The body of [get_recently_used_topics] on the loaded document; an
    exception gives the empty dictionary. *)
Definition get_recently_used_topics (data : json) (now minutes : Q) : list (string * list json) :=
  match data with
  | JObj d =>
      if has_key "recent_topics" d
      then match get "recent_topics" d with
           | JObj ledger => default [] (recent_by_bot (now - minutes * 60) ledger)
           | _ => []
           end
      else []
  | _ => []
  end.

(** The dictionary a positive lookup returns. *)
Record Match := { m_bot_id : string; m_topic : string; m_time : Q }.

(** The test of [is_topic_recently_used] on one pair of lower-cased
    texts. *)
Definition topic_matches (used_query query_lower : string) : bool :=
  String.eqb used_query query_lower
  || (Nat.ltb 10 (String.length query_lower)
      && (Text.contains used_query query_lower || Text.contains query_lower used_query)).

(** [topic.get("query", "").lower()]; [None] when the value has no
    [lower]. *)
Definition used_query_of (topic : json) : option string :=
  match topic with
  | JObj t =>
      if has_key "query" t
      then match get "query" t with
           | JStr q => Some (Text.lower q)
           | _ => None
           end
      else Some ""
  | _ => None
  end.

(** The query and the time of a ledger entry that has both, a text and a
    number. *)
Definition entry_fields (topic : json) : option (string * Q) :=
  match topic with
  | JObj t =>
      if has_key "query" t && has_key "time" t
      then match get "query" t, get "time" t with
           | JStr q, JNum time => Some (q, time)
           | _, _ => None
           end
      else None
  | _ => None
  end.


(** An entry inside the window. *)
Definition in_window (cutoff : Q) (e : json) : bool :=
  match entry_fields e with
  | Some (_, t) => Coordinator.Qltb cutoff t
  | None => false
  end.


(** A ledger of lists of entries with a text query and a numeric time. *)
Definition wf_ledger (ledger : dict) : Prop :=
  forall bot_id topics, In (bot_id, topics) ledger ->
    exists l, topics = JArr l /\ forall e, In e l -> entry_fields e <> None.

Inductive Scan :=
| Found (m : Match)
| NotFound
| Error.

Fixpoint scan_topics (bot_id query_lower : string) (topics : list json) : Scan :=
  match topics with
  | [] => NotFound
  | topic :: topics' =>
      match used_query_of topic, time_of topic with
      | Some used_query, Some t =>
          if topic_matches used_query query_lower
          then Found {| m_bot_id := bot_id; m_topic := used_query; m_time := t |}
          else scan_topics bot_id query_lower topics'
      | _, _ => Error
      end
  end.

Fixpoint scan_bots (query_lower : string) (recently_used : list (string * list json))
  : Scan :=
  match recently_used with
  | [] => NotFound
  | (bot_id, topics) :: rest =>
      match scan_topics bot_id query_lower topics with
      | NotFound => scan_bots query_lower rest
      | r => r
      end
  end.

(** The body of [is_topic_recently_used] on the loaded document. *)
Definition topic_recently_used (data : json) (topic_query : string) (now minutes : Q)
  : bool * option Match :=
  match scan_bots (Text.lower topic_query) (get_recently_used_topics data now minutes) with
  | Found m => (true, Some m)
  | _ => (false, None)
  end.

(** The body of [get_system_setting] on the loaded document. *)
Definition system_setting (data : json) (key : string) (default_value : json) : json :=
  match data with
  | JObj d =>
      if has_key "system_settings" d
      then match get "system_settings" d with
           | JObj settings =>
               if has_key key settings then get key settings else default_value
           | _ => default_value
           end
      else default_value
  | _ => default_value
  end.

Section Operations.

Variable json_loads : string -> option json.

(** [json.load] of [ensure_file_exists]. *)
Definition parse (c : content) : option json :=
  match c with
  | Dumped v => Some v
  | Raw text => if Text.truthy (Text.strip text) then json_loads text else None
  end.

(** The backfill of [ensure_file_exists], in its order. *)
Definition verify_structure (data : json) : result json :=
  bind (ensure_field "conversations" (JArr []) data) (fun data =>
  bind (ensure_field "user_data" (JObj []) data) (fun data =>
  bind (ensure_field "web_content" (JArr []) data) (fun data =>
  bind (ensure_field "recent_bot_topics" (JArr []) data) (fun data =>
  ensure_field "recent_topics" (JObj []) data)))).

Definition same_keys (a b : json) : bool :=
  match a, b with
  | JObj x, JObj y => Nat.eqb (length x) (length y)
  | _, _ => true
  end.

(** The loop of [ensure_file_exists] over an existing file.  A field was
    created exactly when the dictionary grew. *)
Fixpoint verify_attempts (attempts : list nat) (path : string) (now : Q)
    (stamp : string) (fs : gmap string file) : result (gmap string file) :=
  match attempts with
  | [] => Ok fs
  | attempt :: rest =>
      match fs !! path ≫= (fun f => parse (data f)) with
      | Some data =>
          match verify_structure data with
          | Raise => Raise
          | Ok data' =>
              Ok (if same_keys data data' then fs else write_json path data' now fs)
          end
      | None =>
          if Nat.eqb attempt 2
          then
            let backup_path :=
              ("backups/" ++ basename path ++ ".corrupted." ++ stamp)%string in
            let fs1 := default fs (copy2 path backup_path fs) in
            Ok (write_json path (JObj default_data) now fs1)
          else verify_attempts rest path now stamp fs
      end
  end.

(** [ensure_file_exists] *)
Definition ensure_file_exists (path : string) (now : Q) (stamp : string)
    (fs : gmap string file) : result (gmap string file) :=
  match fs !! path with
  | None => Ok (write_json path (JObj default_data) now fs)
  | Some _ => verify_attempts [0; 1; 2]%nat path now stamp fs
  end.


Definition with_conversations (st : Store) (v : json) : Store :=
  {| file_path := file_path st; fs := fs st;
     _cached_data := _cached_data st;
     _cache_timestamp := _cache_timestamp st;
     conversations := v |}.


(** [add_recently_used_topic]: every change is made in place in the
    ledger the cached document shares. *)
Definition add_recently_used_topic (st : Store) (bot_id topic_query : string)
    (current_time now : Q) (stamp : string) (copy_fails : bool)
    (faults : nat -> Fault) : Store :=
  let (r, st1) := load_data json_loads st now stamp in
  match r with
  | Raise => st1
  | Ok data =>
      match add_topic bot_id topic_query current_time data with
      | Some data' =>
          let st2 := with_cache st1 (JObj data') (_cache_timestamp st1) in
          save_data st2 data' now stamp copy_fails faults
      | None => st1
      end
  end.

(** [is_topic_recently_used] *)
Definition is_topic_recently_used (st : Store) (topic_query : string) (minutes now : Q)
    (stamp : string) : (bool * option Match) * Store :=
  let (r, st1) := load_data json_loads st now stamp in
  match r with
  | Raise => ((false, None), st1)
  | Ok data => (topic_recently_used data topic_query now minutes, st1)
  end.

(** [get_system_setting] *)
Definition get_system_setting (st : Store) (key : string) (default_value : json)
    (now : Q) (stamp : string) : json * Store :=
  let (r, st1) := load_data json_loads st now stamp in
  match r with
  | Raise => (default_value, st1)
  | Ok data => (system_setting data key default_value, st1)
  end.

End Operations.

End Store.

(** ** The wording of the specification, where it is compared with the code *)

Module Spec.
Import Coordinator.

(** A word character: a letter, a digit or the underscore. *)
Definition is_word_char (c : ascii) : bool :=
  let n := nat_of_ascii c in
  (Nat.leb 48 n && Nat.leb n 57) || (Nat.leb 65 n && Nat.leb n 90)
  || (Nat.leb 97 n && Nat.leb n 122) || Nat.eqb n 95.

Definition boundary_at (s : string) : bool :=
  match s with
  | EmptyString => true
  | String c _ => negb (is_word_char c)
  end.

(** [w] occurs in [s] with no word character on either side. *)
Fixpoint occurs_go (w : string) (after_word_char : bool) (s : string) : bool :=
  (negb after_word_char && Text.startswith w s
   && boundary_at (Text.drop (String.length w) s))
  || match s with
     | EmptyString => false
     | String c s' => occurs_go w (is_word_char c) s'
     end.

(** Word-boundary matching of a name, letter case ignored. *)
Definition occurs_as_word (w text : string) : bool :=
  occurs_go (Text.lower w) false (Text.lower text).

(** The nicknames the registry knows for each agent. *)
Definition nicknames (b : string) : list string :=
  if String.eqb b "bot1" then ["max"; "btc"]
  else if String.eqb b "bot2" then ["evan"; "$evan"]
  else if String.eqb b "bot3" then ["goldy"; "goldilocks"]
  else [].

(** "scan the message text for each agent's canonical name and known
    nicknames using word-boundary matching" *)
Definition word_boundary_mentioned (b text : string) (bots : Bots) : bool :=
  match name_of b bots with
  | Some name => existsb (fun w => occurs_as_word w text) (name :: nicknames b)
  | None => false
  end.

Definition matched_agents (text : string) (bots : Bots) : list string :=
  List.filter (fun b => word_boundary_mentioned b text bots) (keys bots).





End Spec.

(** ** Sample inputs *)

Module Sample.
Import Coordinator.

Definition report (b : string) (interested personal : bool) (text : string)
    (rid : option Z) : Report :=
  {| message_id := 7; bot_id := b; is_interested := interested;
     is_personal_question := personal; user_id := 1001; username := "alice";
     message_text := text; replied_to_message_id := rid |}.

Definition rnd : Rand := {| random_random := 1 # 2; random_choice := 0 |}.

Definition no_history : nat -> list Msg := fun _ => [].

(** A forwarded-message banner around a mention of the token. *)
Definition spam_text : string := "FORWARDED FROM crypto news: buy $EVAN now".

(** Small talk that no stage but the interest stage could pick up. *)
Definition small_talk : string := "hello there everyone it is a lovely sunny day".

(** A nickname followed by a comma. *)
Definition comma_text : string := "hey max, any update?".

(** The log records message 42 as sent by [bot1]. *)
Definition history_42 : nat -> list Msg :=
  fun _ => [ {| msg_message_id := Some 42; msg_sender_type := Some "bot";
                msg_sender_id := Some "bot1"; msg_in_reply_to := None |} ].

(** A store just built on an empty directory, the parser of damaged
    files that rejects everything, and two versions of the document. *)
Definition path : string := "shared_memory.json".

Definition rejects : string -> option Json.json := fun _ => None.

Definition fresh_store : Store.Store :=
  {| Store.file_path := path;
     Store.fs := Store.write_json path (Json.JObj Json.default_data) 1 ∅;
     Store._cached_data := None;
     Store._cache_timestamp := 0;
     Store.conversations := Json.JArr [] |}.

Definition record (message_id : Z) (sender_type : string) : Json.dict :=
  [("message_id", Json.JNum (inject_Z message_id));
   ("sender_type", Json.JStr sender_type)].

Definition version1 : Json.dict :=
  Json.set "conversations" (Json.JArr [Json.JObj (record 1 "user")]) Json.default_data.

Definition version2 : Json.dict :=
  Json.set "conversations"
    (Json.JArr [Json.JObj (record 1 "user"); Json.JObj (record 2 "bot")])
    Json.default_data.

(** Version 1 on disk, saved over by version 2, then damaged. *)
Definition saved_twice : Store.Store :=
  Store.save_data
    (Store.save_data fresh_store version1 2 "20250101120000" false Store.no_faults)
    version2 3 "20250101120001" false Store.no_faults.

Definition damaged : Store.Store :=
  Store.with_fs saved_twice
    (<[path := {| Fs.data := Fs.Raw "{ conversations: ["; Fs.mtime := 4 |}]>
       (Store.fs saved_twice)).

End Sample.

(** ** The stores a program can hold *)

Module Reach.
Import Json Fs Store.

Section Reachable.

Variable json_loads : string -> option json.


(** A dictionary in the cache has the five fields. *)
Definition cache_complete (st : Store) : Prop :=
  forall d, _cached_data st = Some (JObj d) -> complete d = true.


End Reachable.

End Reach.

(** ** The pending table between two events *)

Module Pending.
Import Coordinator Aggregator.




End Pending.

(** ** [process_bot_notifications]: who joins a bot's answer *)

Module Chain.
Import Coordinator.

(** The fields of a notification that the selection and the follow-up
    read. *)
Record Notification := {
  initiator_bot_id : string;
  user_message : string;
  bot_response : string;
  bot_message_id : option Z;
  in_reply_to_bot : bool;
  conversation_chain : list string
}.

(** What the run reads from [random]: the values of the successive
    calls of [random.random], and the raw values behind the successive
    index draws of [random.sample]. *)
Record Source := {
  random : nat -> Q;
  randbelow : nat -> nat
}.

(** [conversation_chain[-2:]] *)
Definition last_two (l : list string) : list string :=
  skipn (length l - 2)%nat l.

(** The chain the run works on: a notification that does not answer a
    bot starts a new chain. *)
Definition chain_of (n : Notification) : list string :=
  if in_reply_to_bot n then conversation_chain n else [initiator_bot_id n].

Definition base_response_chance (chain_length : nat) : Q :=
  if Nat.leb chain_length 3 then 35 # 100
  else if Nat.leb chain_length 6 then 25 # 100
  else 15 # 100.

Definition max_responding_bots (chain_length : nat) : Z :=
  Z.max 1 (3 - Z.of_nat chain_length / 2).

(** The loop over [bots.items()]: a bot that is neither the initiator
    nor one of the last two of the chain draws once; [drawn] counts the
    draws made so far.  [interesting] is the answer of
    [is_topic_interesting] for the bot on the combined text. *)
Fixpoint joiners (ids : list string) (initiator_id : string) (chain : list string)
    (interesting : string -> bool) (base : Q) (random : nat -> Q) (drawn : nat)
  : list string :=
  match ids with
  | [] => []
  | bot_id :: ids' =>
      if negb (String.eqb bot_id initiator_id) && negb (Text.mem bot_id (last_two chain))
      then
        let should_join :=
          if interesting bot_id
          then Qltb (random drawn) (base + (2 # 10))
          else Qltb (random drawn) base in
        (if should_join then [bot_id] else [])
          ++ joiners ids' initiator_id chain interesting base random (S drawn)
      else joiners ids' initiator_id chain interesting base random drawn
  end.

(** [random.sample(population, k)] for a population of at most 21, as
    CPython computes it: the [i]-th pick takes [pool[j]] for an index
    [j] below [n - i] and moves [pool[n - i - 1]] into the vacancy. *)
Fixpoint sample_go (pool : list string) (n : nat) (randbelow : nat -> nat)
    (i k : nat) : list string :=
  match k with
  | O => []
  | S k' =>
      let j := (randbelow i mod (n - i))%nat in
      match pool !! j, pool !! (n - i - 1)%nat with
      | Some x, Some y => x :: sample_go (<[j := y]> pool) n randbelow (S i) k'
      | _, _ => []
      end
  end.

Definition sample (population : list string) (k : nat) (randbelow : nat -> nat)
  : list string :=
  sample_go population (length population) randbelow 0 k.

(** The bots chosen to answer. *)
Definition responding_bots (n : Notification) (bots : Bots)
    (interesting : string -> bool) (rnd : Source) : list string :=
  let conversation_chain := chain_of n in
  let chain_length := length conversation_chain in
  let responding :=
    joiners (keys bots) (initiator_bot_id n) conversation_chain interesting
      (base_response_chance chain_length) (random rnd) 0 in
  let limit := max_responding_bots chain_length in
  if Z.ltb limit (Z.of_nat (length responding))
  then
    let new_bots :=
      List.filter (fun b => negb (Text.mem b conversation_chain)) responding in
    if negb (is_nil new_bots) && Z.leb (Z.of_nat (length new_bots)) limit
    then new_bots
    else sample responding (Z.to_nat limit) (randbelow rnd)
  else responding.

(** The record handed to [add_conversation] for an answer that was
    sent, and the notification queued for it. *)
Definition response_data (n : Notification) (bot_id : string) (sent_msg_id : Z) : Msg :=
  {| msg_message_id := Some sent_msg_id;
     msg_sender_type := Some "bot";
     msg_sender_id := Some bot_id;
     msg_in_reply_to := bot_message_id n |}.

Definition new_notification (n : Notification) (bot_id response : string)
    (sent_msg_id : Z) : Notification :=
  {| initiator_bot_id := bot_id;
     user_message := user_message n;
     bot_response := response;
     bot_message_id := Some sent_msg_id;
     in_reply_to_bot := true;
     conversation_chain := chain_of n ++ [bot_id] |}.

(** One run.  [deliver] gives, for a chosen bot, the answer generated
    and the id [send_message] returned, or [None] when one of the two
    raised; an id of [-1] is a failed send.  The prompt of the first
    chosen bot reads [bots[initiator_id]], a [KeyError] for an
    initiator that is not registered: [None].  The history read for the
    prompt and the [relevant_content] of the notification are taken to
    be well formed, so that nothing else raises. *)
Definition process_bot_notifications (n : Notification) (bots : Bots)
    (interesting : string -> bool) (rnd : Source)
    (deliver : string -> option (string * Z))
  : option (list (Msg * Notification)) :=
  let chosen := responding_bots n bots interesting rnd in
  if is_nil chosen then Some []
  else if in_bots (initiator_bot_id n) bots
  then Some (flat_map
               (fun bot_id =>
                  match deliver bot_id with
                  | Some (response, sent_msg_id) =>
                      if Z.eqb sent_msg_id (-1) then []
                      else [(response_data n bot_id sent_msg_id,
                             new_notification n bot_id response sent_msg_id)]
                  | None => []
                  end)
               chosen)
  else None.

(** The notifications of one conversation: one that answers a user, and
    what runs on them queue. *)
Inductive thread (bots : Bots) : Notification -> Prop :=
| thread_start (n : Notification) :
    in_reply_to_bot n = false -> thread bots n
| thread_next (n n' : Notification) (m : Msg) interesting rnd deliver outs :
    thread bots n ->
    process_bot_notifications n bots interesting rnd deliver = Some outs ->
    In (m, n') outs ->
    thread bots n'.

(** No member of the chain is one of the two before it. *)
Definition spaced (l : list string) : Prop :=
  forall (i j : nat) (x : string),
    (i < j)%nat -> (j <= i + 2)%nat -> l !! i = Some x -> l !! j <> Some x.

End Chain.

(** ** Orderings used for the backups *)

Module Backups.
Import Fs.


End Backups.

(** ** [SharedMemory]: the other readers and writers *)

Module Ops.
Import Json Fs Store.

(** [bool(v)] *)
Definition truthy (v : json) : bool :=
  match v with
  | JNull => false
  | JBool b => b
  | JNum q => negb (Qeq_bool q 0)
  | JStr s => Text.truthy s
  | JArr l => negb (Coordinator.is_nil l)
  | JObj d => negb (Coordinator.is_nil d)
  end.

(** [l[start:]] for an integer [start]. *)
Definition slice_from {A : Type} (start : Z) (l : list A) : list A :=
  if Z.ltb start 0
  then skipn (Z.to_nat (Z.max 0 (Z.of_nat (length l) + start))) l
  else skipn (Z.to_nat start) l.

(** [v[-limit:]]: lists and strings can be sliced. *)
Definition tail_of (limit : Z) (v : json) : result json :=
  match v with
  | JArr l => Ok (JArr (slice_from (- limit) l))
  | JStr s => Ok (JStr (Text.of_chars (slice_from (- limit) (Text.chars s))))
  | _ => Raise
  end.

Definition max_topics : nat := 50.

(** [d.update(update_data)] *)
Definition update (update_data d : dict) : dict :=
  fold_left (fun acc kv => set (fst kv) (snd kv) acc) update_data d.

(** The entry [add_bot_topic] inserts. *)
Definition bot_topic_entry (bot_id : string) (topic content_summary : json) (now : Q)
  : json :=
  JObj [("bot_id", JStr bot_id); ("topic", topic);
        ("content_summary", content_summary); ("timestamp", JNum now)].

(** [topic["timestamp"]] as a number that can be compared. *)
Definition timestamp_of (topic : json) : option Q :=
  match topic with
  | JObj t =>
      if has_key "timestamp" t
      then match get "timestamp" t with
           | JNum q => Some q
           | JBool b => Some (num_of_bool b)
           | _ => None
           end
      else None
  | _ => None
  end.

(** [[topic for topic in topics if topic["timestamp"] > cutoff_time]] *)
Fixpoint newer_topics (cutoff_time : Q) (topics : list json) : option (list json) :=
  match topics with
  | [] => Some []
  | topic :: topics' =>
      match timestamp_of topic, newer_topics cutoff_time topics' with
      | Some t, Some r =>
          Some (if Coordinator.Qltb cutoff_time t then topic :: r else r)
      | _, _ => None
      end
  end.

(** [topic.get("timestamp", 0)] as a number that can be compared. *)
Definition timestamp_or_zero (topic : json) : option Q :=
  match topic with
  | JObj t =>
      if has_key "timestamp" t
      then match get "timestamp" t with
           | JNum q => Some q
           | JBool b => Some (num_of_bool b)
           | _ => None
           end
      else Some 0%Q
  | _ => None
  end.

(** [[topic for topic in topics if topic.get("timestamp", 0) > cutoff_time]] *)
Fixpoint stamped_after (cutoff_time : Q) (topics : list json) : option (list json) :=
  match topics with
  | [] => Some []
  | topic :: topics' =>
      match timestamp_or_zero topic, stamped_after cutoff_time topics' with
      | Some t, Some r =>
          Some (if Coordinator.Qltb cutoff_time t then topic :: r else r)
      | _, _ => None
      end
  end.

(** The same comprehension over whatever the field holds, with the
    length of what it held; [None] when one of the two raises. *)
Definition stamped_after_of (cutoff_time : Q) (topics : json)
  : option (list json * nat) :=
  match topics with
  | JArr l =>
      match stamped_after cutoff_time l with
      | Some r => Some (r, length l)
      | None => None
      end
  | JObj [] => Some ([], 0%nat)
  | JStr EmptyString => Some ([], 0%nat)
  | _ => None
  end.

(** [len(topics)] for a value [recent_of] accepts. *)
Definition len_of (topics : json) : nat :=
  match topics with
  | JArr l => length l
  | _ => 0%nat
  end.

(** The loop of [cleanup_old_topics] over the ledger: the ledger as the
    loop leaves it, whether a list was replaced, and whether the loop
    raised (the lists of the bots before that one are replaced by
    then). *)
Fixpoint cleanup_ledger (cutoff_time : Q) (ledger : dict) : dict * bool * bool :=
  match ledger with
  | [] => ([], false, false)
  | (bot_id, topics) :: rest =>
      match recent_of cutoff_time topics with
      | None => (ledger, false, true)
      | Some recent_topics =>
          let '(rest', modified, raised) := cleanup_ledger cutoff_time rest in
          if Nat.ltb (length recent_topics) (len_of topics)
          then ((bot_id, JArr recent_topics) :: rest', true, raised)
          else ((bot_id, topics) :: rest', modified, raised)
      end
  end.

Section Calls.

Variable json_loads : string -> option json.

(** [get_recent_conversations(limit)]: the answer and the store, with
    [self.conversations] as the call leaves it. *)
Definition get_recent_conversations (st : Store) (limit : Z) (now : Q) (stamp : string)
  : result json * Store :=
  let (r, st1) := load_data json_loads st now stamp in
  match r with
  | Ok (JObj d) =>
      let found := get "conversations" d in
      if negb (truthy found) && truthy (conversations st1)
      then (tail_of limit (conversations st1), st1)
      else
        let st2 :=
          with_conversations st1 (if has_key "conversations" d then found else JArr []) in
        if truthy found then (tail_of limit found, st2) else (Ok (JArr []), st2)
  | _ =>
      (if truthy (conversations st1) then tail_of limit (conversations st1)
       else Ok (JArr []),
       st1)
  end.

(** [set_system_setting].  A settings dictionary that is already in the
    document is the one of the cached document, and is changed in
    place; a new one is bound in the copy only. *)
Definition set_system_setting (st : Store) (key : string) (value : json) (now : Q)
    (stamp : string) (copy_fails : bool) (faults : nat -> Fault) : bool * Store :=
  let (r, st1) := load_data json_loads st now stamp in
  match r with
  | Ok (JObj d) =>
      if has_key "system_settings" d
      then
        match get "system_settings" d with
        | JObj settings =>
            let data' := set "system_settings" (JObj (set key value settings)) d in
            let st2 := with_cache st1 (JObj data') (_cache_timestamp st1) in
            (true, save_data st2 data' now stamp copy_fails faults)
        | _ => (false, st1)
        end
      else
        let data' := set "system_settings" (JObj [(key, value)]) d in
        (true, save_data st1 data' now stamp copy_fails faults)
  | _ => (false, st1)
  end.

(** [update_user_data]: no handler, an exception leaves the method.  The
    user table and the record are those of the cached document. *)
Definition update_user_data (st : Store) (user_id : string) (update_data : dict)
    (now : Q) (stamp : string) (copy_fails : bool) (faults : nat -> Fault)
  : result unit * Store :=
  let (r, st1) := load_data json_loads st now stamp in
  match r with
  | Ok (JObj d) =>
      if has_key "user_data" d
      then
        match get "user_data" d with
        | JObj users =>
            let users :=
              if has_key user_id users then users else set user_id (JObj []) users in
            match get user_id users with
            | JObj record =>
                let users := set user_id (JObj (update update_data record)) users in
                let data' := set "user_data" (JObj users) d in
                let st2 := with_cache st1 (JObj data') (_cache_timestamp st1) in
                (Ok tt, save_data st2 data' now stamp copy_fails faults)
            | _ => (Raise, st1)
            end
        | _ => (Raise, st1)
        end
      else (Raise, st1)
  | _ => (Raise, st1)
  end.

(** [get_user_data] *)
Definition get_user_data (st : Store) (user_id : string) (now : Q) (stamp : string)
  : result json * Store :=
  let (r, st1) := load_data json_loads st now stamp in
  match r with
  | Ok (JObj d) =>
      if has_key "user_data" d
      then
        match get "user_data" d with
        | JObj users =>
            (Ok (if has_key user_id users then get user_id users else JObj []), st1)
        | _ => (Raise, st1)
        end
      else (Raise, st1)
  | _ => (Raise, st1)
  end.

(** [add_bot_topic]: the entry goes to the front of the list the cached
    document shares; the trimmed list is bound in the copy only. *)
Definition add_bot_topic (st : Store) (bot_id : string) (topic content_summary : json)
    (now : Q) (stamp : string) (copy_fails : bool) (faults : nat -> Fault)
  : result unit * Store :=
  let (r, st1) := load_data json_loads st now stamp in
  match r with
  | Ok (JObj d) =>
      let shared := has_key "recent_bot_topics" d in
      let d := if shared then d else set "recent_bot_topics" (JArr []) d in
      match get "recent_bot_topics" d with
      | JArr topics =>
          let inserted := bot_topic_entry bot_id topic content_summary now :: topics in
          let kept := if Nat.ltb max_topics (length inserted)
                      then firstn max_topics inserted else inserted in
          let data' := set "recent_bot_topics" (JArr kept) d in
          let st2 :=
            if shared
            then with_cache st1 (JObj (set "recent_bot_topics" (JArr inserted) d))
                   (_cache_timestamp st1)
            else st1 in
          (Ok tt, save_data st2 data' now stamp copy_fails faults)
      | _ => (Raise, st1)
      end
  | _ => (Raise, st1)
  end.

(** [get_recent_bot_topics(hours)] *)
Definition get_recent_bot_topics (st : Store) (hours : Q) (now : Q) (stamp : string)
  : result (list json) * Store :=
  let (r, st1) := load_data json_loads st now stamp in
  match r with
  | Ok (JObj d) =>
      let cutoff_time := (now - hours * 3600)%Q in
      if has_key "recent_bot_topics" d
      then
        match get "recent_bot_topics" d with
        | JArr topics =>
            match newer_topics cutoff_time topics with
            | Some recent_topics => (Ok recent_topics, st1)
            | None => (Raise, st1)
            end
        | JObj [] => (Ok [], st1)
        | JStr EmptyString => (Ok [], st1)
        | _ => (Raise, st1)
        end
      else (Ok [], st1)
  | _ => (Raise, st1)
  end.

(** [cleanup_old_topics(hours)].  The lists of the ledger are replaced
    in the ledger the cached document shares; the filtered
    [recent_bot_topics] is bound in the copy only. *)
Definition cleanup_old_topics (st : Store) (hours : Q) (now : Q) (stamp : string)
    (copy_fails : bool) (faults : nat -> Fault) : Store :=
  let (r, st1) := load_data json_loads st now stamp in
  match r with
  | Ok (JObj d) =>
      if has_key "recent_topics" d
      then
        let cutoff_time := (now - hours * 3600)%Q in
        match get "recent_topics" d with
        | JObj ledger =>
            let '(ledger', modified, raised) := cleanup_ledger cutoff_time ledger in
            let d1 := set "recent_topics" (JObj ledger') d in
            let st2 := with_cache st1 (JObj d1) (_cache_timestamp st1) in
            if raised then st2
            else if has_key "recent_bot_topics" d1
            then
              match stamped_after_of cutoff_time (get "recent_bot_topics" d1) with
              | Some (kept, old_count) =>
                  let d2 := set "recent_bot_topics" (JArr kept) d1 in
                  if modified || Nat.ltb (length kept) old_count
                  then save_data st2 d2 now stamp copy_fails faults
                  else st2
              | None => st2
              end
            else if modified then save_data st2 d1 now stamp copy_fails faults
            else st2
        | _ => st1
        end
      else st1
  | _ => st1
  end.

End Calls.

End Ops.

(** ** [WebContentStorage], on the document its [load_data] returns *)

Module Web.
Import Json Store Ops.

Definition max_content_items : nat := 100.
Definition default_retention_hours : Q := 3.
Definition duplicate_check_hours : Q := 1.

(** The members of [set(words)]. *)
Fixpoint distinct (words : list string) : list string :=
  match words with
  | [] => []
  | w :: words' => if Text.mem w words' then distinct words' else w :: distinct words'
  end.

(** [len(common_words) / min(len(query_words), len(item_words)) >= 0.75]
    for two sets of words. *)
Definition overlap (query_words item_words : list string) : bool :=
  let common_words := List.filter (fun w => Text.mem w item_words) query_words in
  Qle_bool (75 # 100)
    (inject_Z (Z.of_nat (length common_words))
     / inject_Z (Z.of_nat (Nat.min (length query_words) (length item_words)))).

(** The loop of [has_recent_search]; [None] when it raises. *)
Fixpoint similar_recent (cutoff_time : Q) (query_lower : string) (content : list json)
  : option bool :=
  match content with
  | [] => Some false
  | item :: content' =>
      match timestamp_or_zero item with
      | None => None
      | Some t =>
          if Coordinator.Qltb t cutoff_time
          then similar_recent cutoff_time query_lower content'
          else
            match used_query_of item with
            | None => None
            | Some item_query =>
                if String.eqb query_lower item_query then Some true
                else
                  let query_words := distinct (Text.split query_lower) in
                  if Nat.leb 2 (length query_words)
                     && Nat.leb 2 (length (Text.split item_query))
                     && overlap query_words (distinct (Text.split item_query))
                  then Some true
                  else similar_recent cutoff_time query_lower content'
            end
      end
  end.

(** [data.get("web_content", [])] as something the loops can walk. *)
Definition content_of (data : json) : option (list json) :=
  match data with
  | JObj d =>
      if has_key "web_content" d
      then match get "web_content" d with
           | JArr l => Some l
           | JObj [] => Some []
           | JStr EmptyString => Some []
           | _ => None
           end
      else Some []
  | _ => None
  end.

(** [has_recent_search(query, hours)] *)
Definition has_recent_search (data : json) (query : string) (hours now : Q)
  : option bool :=
  match content_of data with
  | Some content => similar_recent (now - hours * 3600) (Text.lower query) content
  | None => None
  end.

(** What [add_content] does: it returns early on a recent similar
    search, raises, or hands a document to [save_data], which stamps it
    with [last_update]. *)
Inductive Added :=
| Skipped
| Raised
| Saved (data : dict).

Definition add_content (content : dict) (now : Q) (data : json) : Added :=
  match (if has_key "query" content then get "query" content else JStr "") with
  | JStr query =>
      match has_recent_search data query duplicate_check_hours now with
      | None => Raised
      | Some true => Skipped
      | Some false =>
          match data with
          | JObj d =>
              let content :=
                if has_key "timestamp" content then content
                else set "timestamp" (JNum now) content in
              if has_key "web_content" d
              then
                match get "web_content" d with
                | JArr items =>
                    let items := items ++ [JObj content] in
                    let items := if Nat.ltb max_content_items (length items)
                                 then lastn max_content_items items else items in
                    match stamped_after (now - default_retention_hours * 3600) items with
                    | Some kept =>
                        Saved (set "last_update" (JNum now)
                                 (set "web_content" (JArr kept) d))
                    | None => Raised
                    end
                | _ => Raised
                end
              else Raised
          | _ => Raised
          end
      end
  | _ => Raised
  end.

(** The sort keys [x.get('timestamp', 0)] of the items. *)
Fixpoint keyed (items : list json) : option (list (Q * json)) :=
  match items with
  | [] => Some []
  | item :: items' =>
      match timestamp_or_zero item, keyed items' with
      | Some t, Some r => Some ((t, item) :: r)
      | _, _ => None
      end
  end.

(** [sort(key=..., reverse=True)]: greatest key first, items of equal
    key in their former order. *)
Fixpoint insert_desc (x : Q * json) (l : list (Q * json)) : list (Q * json) :=
  match l with
  | [] => [x]
  | y :: l' =>
      if Coordinator.Qltb (fst x) (fst y) then y :: insert_desc x l'
      else x :: y :: l'
  end.

Definition sort_desc (l : list (Q * json)) : list (Q * json) :=
  fold_right insert_desc [] l.

(** [l[:limit]] for an integer [limit]. *)
Definition slice_to {A : Type} (limit : Z) (l : list A) : list A :=
  if Z.ltb limit 0
  then firstn (Z.to_nat (Z.max 0 (Z.of_nat (length l) + limit))) l
  else firstn (Z.to_nat limit) l.

(** [get_recent_content(limit)] *)
Definition get_recent_content (data : json) (limit : Z) : option (list json) :=
  match data with
  | JObj d =>
      if has_key "web_content" d
      then match get "web_content" d with
           | JArr items =>
               match keyed items with
               | Some l => Some (slice_to limit (map snd (sort_desc l)))
               | None => None
               end
           | _ => None
           end
      else Some []
  | _ => None
  end.

(** Keys in descending order. *)
Fixpoint descending (l : list (Q * json)) : Prop :=
  match l with
  | [] => True
  | x :: l' => (forall y, In y l' -> (fst y <= fst x)%Q) /\ descending l'
  end.

End Web.

(** * Properties *)

(** ** The primitives on sample texts *)

Section Primitives.

Example lower_sample : Text.lower "Hey MAX, $EVAN!" = "hey max, $evan!".
Proof. reflexivity. Qed.

Example split_sample :
  Text.split "  hey max,  any update? " = ["hey"; "max,"; "any"; "update?"].
Proof. reflexivity. Qed.

Example strip_sample : Text.strip "  what's up  " = "what's up".
Proof. reflexivity. Qed.

Example contains_sample :
  Text.contains "$evan" "gm $evan fam" = true /\ Text.contains "evans" "gm $evan fam" = false.
Proof. split; reflexivity. Qed.

Example search_counts :
  Re.search ".*Likes \d+ \| \d+.*" "so many likes 12 | 7 today" = true
  /\ Re.search ".*Likes \d+ \| \d+.*" "likes  | 7" = false.
Proof. split; vm_compute; reflexivity. Qed.

Example search_optional :
  Re.search ".*Booosts?:.*" "booost: now" = true
  /\ Re.search ".*Booosts?:.*" "BOOOSTS: now" = true
  /\ Re.search ".*Booosts?:.*" "booostss: now" = false.
Proof. repeat split; vm_compute; reflexivity. Qed.

Example search_escaped_dot :
  Re.search ".*t\.me/.*" "join T.ME/abc" = true
  /\ Re.search ".*t\.me/.*" "see tXme/abc" = false.
Proof. split; vm_compute; reflexivity. Qed.

Example repaired_text_sample :
  Store.repaired_text "{a: [1, 2, ], b: {c: 1, } , d: [ {" = "{a: [1, 2], b: {c: 1} , d: [ {}}]".
Proof. vm_compute. reflexivity. Qed.

Example basename_sample : Fs.basename "data/store/shared_memory.json" = "shared_memory.json".
Proof. reflexivity. Qed.

End Primitives.

(** ** The routing pipeline *)

Section Routing.
Import Coordinator.

Lemma mem_In (w : string) (l : list string) : Text.mem w l = true <-> In w l.
Proof.
  unfold Text.mem. rewrite existsb_exists. split.
  - intros [x [Hin Heq]]. apply String.eqb_eq in Heq. now subst.
  - intros Hin. exists w. split; [assumption | apply String.eqb_refl].
Qed.

Lemma mem_false (w : string) (l : list string) : ~ In w l -> Text.mem w l = false.
Proof.
  intros H. destruct (Text.mem w l) eqn:E; [|reflexivity].
  apply mem_In in E. contradiction.
Qed.

Lemma in_bots_keys (b : string) (bots : Bots) :
  in_bots b bots = true <-> In b (keys bots).
Proof.
  unfold in_bots, keys. rewrite existsb_exists, in_map_iff. split.
  - intros [kv [Hin Heq]]. apply String.eqb_eq in Heq. exists kv. now split.
  - intros [kv [Heq Hin]]. exists kv. split; [assumption|]. now apply String.eqb_eq.
Qed.

(** The spam test fires on every text one of the patterns matches. *)
Lemma is_spam_pattern (text : string) :
  existsb (fun pattern => Re.search pattern text) spam_patterns = true ->
  is_spam text = true.
Proof. intros H. unfold is_spam. now rewrite H. Qed.

(** The [elif] chain never consults the reports: its last test repeats
    the one before it. *)
Lemma routing_chain_unfold reports text rid bots recent :
  routing_chain reports text rid bots recent =
  if Text.contains "$evan" (Text.lower text) && in_bots "bot2" bots
  then Continue ["bot2"] (Some "$evan_token_mention")
  else if id_truthy rid
  then reply_to_bot_check rid text bots recent
  else name_mention_routing text bots.
Proof. reflexivity. Qed.

(** The collected mentions are the registry filtered by the name test. *)
Lemma mentioned_bots_acc (P : string -> bool) (l acc : list string) :
  List.NoDup l -> (forall b, In b l -> ~ In b acc) ->
  fold_left (fun acc b => if P b then (if Text.mem b acc then acc else acc ++ [b]) else acc)
            l acc
  = acc ++ List.filter P l.
Proof.
  revert acc. induction l as [|b l IH]; intros acc Hnd Hdis; simpl.
  - now rewrite app_nil_r.
  - inversion Hnd as [|? ? Hnotin Hnd']; subst.
    destruct (P b) eqn:HP.
    + rewrite (mem_false b acc) by (apply Hdis; now left).
      rewrite IH; [now rewrite <- app_assoc | assumption |].
      intros x Hx Hin. apply in_app_iff in Hin as [Hin|[->|[]]].
      * apply (Hdis x); [now right | assumption].
      * contradiction.
    + apply IH; [assumption|]. intros x Hx. apply Hdis. now right.
Qed.

Lemma mentioned_bots_filter (text : string) (bots : Bots) :
  List.NoDup (keys bots) ->
  mentioned_bots text bots
  = List.filter (fun b => is_bot_name_mentioned b text bots) (keys bots).
Proof.
  intros Hnd. unfold mentioned_bots.
  rewrite (mentioned_bots_acc (fun b => is_bot_name_mentioned b text bots));
    [reflexivity | assumption |].
  intros b _ [].
Qed.

Lemma filter_in_bots_id (bots : Bots) (l : list string) :
  (forall b, In b l -> In b (keys bots)) ->
  List.filter (fun b => in_bots b bots) l = l.
Proof.
  induction l as [|b l IH]; intros H; simpl; [reflexivity|].
  assert (Hb : in_bots b bots = true) by (apply in_bots_keys, H; now left).
  rewrite Hb. f_equal. apply IH. intros x Hx. apply H. now right.
Qed.

(** A selection made by the chain goes to the response tasks as it is. *)
Lemma after_chain_selected (sel : list string) (r : string) rid text bots recent rnd :
  sel <> [] -> (forall b, In b sel -> In b (keys bots)) ->
  after_chain sel (Some r) rid text bots recent rnd
  = {| responders := sel; reason := Some r; cleared := false |}.
Proof.
  intros Hne Hin. unfold after_chain.
  destruct sel as [|b sel]; [contradiction|].
  cbn [is_nil fst snd]. unfold trigger.
  now rewrite (filter_in_bots_id bots (b :: sel) Hin).
Qed.

(** The first lookup of the reply check finds the author when the
    window records one bot author for the id. *)
Lemma find_replied_to_bot_unique (rid : option Z) (b : string) (recent : list Msg) :
  b <> "" ->
  (exists msg, In msg recent /\ msg_message_id msg = rid
               /\ msg_sender_type msg = Some "bot" /\ msg_sender_id msg = Some b) ->
  (forall msg, In msg recent -> msg_message_id msg = rid ->
               msg_sender_type msg = Some "bot" -> msg_sender_id msg = Some b) ->
  find_replied_to_bot rid recent = Some b.
Proof.
  intros Hb. induction recent as [|m recent IH]; intros [msg [Hin Hmsg]] Huniq.
  - destruct Hin.
  - simpl. destruct (opt_Z_eqb (msg_message_id m) rid) eqn:Hid.
    + assert (Hm : msg_message_id m = rid).
      { destruct (msg_message_id m), rid; simpl in Hid; try discriminate; try reflexivity.
        apply Z.eqb_eq in Hid. now subst. }
      destruct (opt_str_is (msg_sender_type m) "bot") eqn:Hty.
      * assert (Hs : msg_sender_type m = Some "bot").
        { destruct (msg_sender_type m); simpl in Hty; [|discriminate].
          apply String.eqb_eq in Hty. now subst. }
        rewrite (Huniq m (or_introl eq_refl) Hm Hs). simpl.
        destruct b; [contradiction | reflexivity].
      * assert (Hrest : find_replied_to_bot rid recent = Some b).
        { apply IH.
          - destruct Hin as [->|Hin].
            + destruct Hmsg as (_ & Hs & _). rewrite Hs in Hty. discriminate.
            + exists msg. now split.
          - intros m' Hm'. apply Huniq. now right. }
        destruct (msg_sender_id m); simpl; assumption.
    + apply IH.
      * destruct Hin as [->|Hin].
        -- destruct Hmsg as (Hi & _). rewrite Hi in Hid.
           destruct rid; simpl in Hid; [rewrite Z.eqb_refl in Hid|]; discriminate.
        -- exists msg. now split.
      * intros m' Hm'. apply Huniq. now right.
Qed.

End Routing.

Section RoutingClaims.
Import Coordinator.

(** C4. Spam veto precedence: when the text of the message matches one
    of the spam patterns, the pipeline creates no response task, gives no
    reason and returns at once (removing the message from the pending
    table), whatever the reports say about interest or personal
    questions and whether or not the text mentions the $EVAN token. *)
Theorem spam_veto_precedence (b : string) (r : Report)
    (rest : list (string * Report)) (bots : Bots) (recent : nat -> list Msg)
    (rnd : Rand) :
  existsb (fun pattern => Re.search pattern (message_text r)) spam_patterns = true ->
  process_message_interest_after_delay ((b, r) :: rest) bots recent rnd
  = {| responders := []; reason := None; cleared := true |}.
Proof.
  intros H. unfold process_message_interest_after_delay.
  now rewrite (is_spam_pattern _ H).
Qed.

Lemma spam_veto_precedence_witness :
  Text.contains "$evan" (Text.lower Sample.spam_text) = true
  /\ process_message_interest_after_delay
       [("bot2", Sample.report "bot2" true true Sample.spam_text None);
        ("bot1", Sample.report "bot1" true false Sample.spam_text None)]
       all_bots Sample.no_history Sample.rnd
     = {| responders := []; reason := None; cleared := true |}.
Proof.
  split; [vm_compute; reflexivity|].
  apply (spam_veto_precedence "bot2"). vm_compute. reflexivity.
Defined.

Lemma personal_keys_with_interest (i : string -> bool) (reports : list (string * Report)) :
  keys (List.filter (fun kv => is_personal_question (snd kv))
          (map (fun kv => (fst kv, with_interest (i (fst kv)) (snd kv))) reports))
  = keys (List.filter (fun kv => is_personal_question (snd kv)) reports).
Proof.
  induction reports as [|[b r] reports IH]; simpl; [reflexivity|].
  destruct (is_personal_question r); simpl; now rewrite IH.
Qed.

(** The outcome of the pipeline is the same whatever the reports say in
    [is_interested]. *)
Lemma interest_never_consulted (i : string -> bool) reports bots recent rnd :
  process_message_interest_after_delay
    (map (fun kv => (fst kv, with_interest (i (fst kv)) (snd kv))) reports)
    bots recent rnd
  = process_message_interest_after_delay reports bots recent rnd.
Proof.
  destruct reports as [|[b r] reports]; [reflexivity|].
  unfold process_message_interest_after_delay.
  cbn [map fst snd with_interest message_text replied_to_message_id].
  destruct (is_spam (message_text r)); [reflexivity|].
  pose proof (personal_keys_with_interest i ((b, r) :: reports)) as Hk.
  cbn [map fst snd] in Hk.
  set (p1 := List.filter _ (_ :: map _ reports)) in *.
  set (p2 := List.filter _ ((b, r) :: reports)) in *.
  assert (Hnil : is_nil p1 = is_nil p2).
  { destruct p1, p2; simpl in Hk; try discriminate; reflexivity. }
  rewrite Hnil, Hk. reflexivity.
Qed.

(** C2. Interest-score resolution, at a message that no earlier stage
    selects for and that [bot1] reports interest in: the pipeline selects
    nobody.  The interest branch hangs on a second [elif not
    responding_bots] that is tested only when the first one was false. *)
Theorem interest_stage_not_reached (rnd : Rand) :
  let r := Sample.report "bot1" true false Sample.small_talk None in
  is_spam (message_text r) = false
  /\ Text.contains "$evan" (Text.lower (message_text r)) = false
  /\ mentioned_bots (message_text r) all_bots = []
  /\ interest_based_routing [("bot1", r)]
     = Continue ["bot1"] (Some "interest_priority_bot1")
  /\ process_message_interest_after_delay [("bot1", r)] all_bots Sample.no_history rnd
     = nothing.
Proof. vm_compute. repeat split; reflexivity. Qed.

(** C5, as stated, at "hey max, any update?": word-boundary matching
    finds exactly [bot1], the name stage of the code finds nobody, and
    the message is answered as a general request. *)
Lemma name_mention_word_boundary_counterexample :
  let r := Sample.report "bot1" false false Sample.comma_text None in
  is_spam (message_text r) = false
  /\ Text.contains "$evan" (Text.lower (message_text r)) = false
  /\ Spec.matched_agents (message_text r) all_bots = ["bot1"]
  /\ name_mention_routing (message_text r) all_bots = Continue [] None
  /\ process_message_interest_after_delay [("bot1", r)] all_bots Sample.no_history Sample.rnd
     = {| responders := ["bot2"]; reason := Some "general_request"; cleared := false |}.
Proof. vm_compute. repeat split; reflexivity. Qed.

(** C5, amended.  For a message that is not spam, is not a reply, has no
    personal-question flag and no $EVAN mention, the name stage tests
    every registered bot with [is_bot_name_mentioned] (the canonical name
    as a substring of the lower-cased text, the nicknames as
    blank-separated tokens of it).  One bot found: it alone is asked to
    respond, reason [name_mention].  Several found: all of them, reason
    [multiple_name_mentions].  None found: the stage selects nobody. *)
Theorem name_mention_resolution (b0 : string) (r : Report)
    (rest : list (string * Report)) (bots : Bots) (recent : nat -> list Msg)
    (rnd : Rand) :
  let reports := (b0, r) :: rest in
  let text := message_text r in
  let found := List.filter (fun b => is_bot_name_mentioned b text bots) (keys bots) in
  List.NoDup (keys bots) ->
  is_spam text = false ->
  List.filter (fun kv => is_personal_question (snd kv)) reports = [] ->
  Text.contains "$evan" (Text.lower text) = false ->
  id_truthy (replied_to_message_id r) = false ->
  (forall b, found = [b] ->
     process_message_interest_after_delay reports bots recent rnd
     = {| responders := [b]; reason := Some "name_mention"; cleared := false |})
  /\ ((2 <= length found)%nat ->
     process_message_interest_after_delay reports bots recent rnd
     = {| responders := found; reason := Some "multiple_name_mentions";
          cleared := false |})
  /\ (found = [] ->
     routing_chain reports text (replied_to_message_id r) bots recent
     = Continue [] None).
Proof.
  intros reports text found Hnd Hspam Hpers Htok Hrid.
  assert (Hchain : routing_chain reports text (replied_to_message_id r) bots recent
                   = name_mention_routing text bots).
  { rewrite routing_chain_unfold, Htok, Hrid. reflexivity. }
  assert (Hproc : forall sel reason,
             name_mention_routing text bots = Continue sel reason ->
             process_message_interest_after_delay reports bots recent rnd
             = after_chain sel reason (replied_to_message_id r) text bots recent rnd).
  { intros sel reason Hsel. subst reports text.
    unfold process_message_interest_after_delay.
    rewrite Hspam, Hpers, Hchain, Hsel. reflexivity. }
  assert (Hin : forall b, In b found -> In b (keys bots)).
  { intros b Hb. apply filter_In in Hb. tauto. }
  unfold name_mention_routing in *. rewrite (mentioned_bots_filter text bots Hnd) in *.
  fold found in Hchain, Hproc. repeat split.
  - intros b Hb. rewrite Hb in *.
    rewrite (Hproc _ _ eq_refl). apply after_chain_selected; [discriminate | assumption].
  - intros Hlen. destruct found as [|x [|y l]] eqn:Hf; simpl in Hlen; try lia.
    rewrite (Hproc _ _ eq_refl). apply after_chain_selected; [discriminate | assumption].
  - intros Hnone. rewrite Hchain, Hnone. reflexivity.
Qed.

Lemma name_mention_resolution_witness :
  process_message_interest_after_delay
    [("bot2", Sample.report "bot2" true false "hey max any update" None)]
    all_bots Sample.no_history Sample.rnd
  = {| responders := ["bot1"]; reason := Some "name_mention"; cleared := false |}.
Proof.
  refine (proj1 (name_mention_resolution "bot2"
                   (Sample.report "bot2" true false "hey max any update" None)
                   [] all_bots Sample.no_history Sample.rnd _ _ _ _ _) "bot1" _);
    try (vm_compute; reflexivity).
  repeat constructor; simpl; intuition discriminate.
Defined.

(** C6, as stated, at a reply to message 42 of [bot1] whose text
    mentions the token: the token stage comes first and [bot2] is asked
    to respond. *)
Lemma reply_resolution_counterexample :
  let r := Sample.report "bot1" false false "thanks, $evan rocks" (Some 42) in
  is_spam (message_text r) = false
  /\ find_replied_to_bot (replied_to_message_id r) (Sample.history_42 500%nat)
     = Some "bot1"
  /\ in_bots "bot1" all_bots = true
  /\ process_message_interest_after_delay [("bot1", r)] all_bots Sample.history_42 Sample.rnd
     = {| responders := ["bot2"]; reason := Some "$evan_token_mention";
          cleared := false |}.
Proof. vm_compute. repeat split; reflexivity. Qed.

(** C6, amended.  For a message that is not spam, has no
    personal-question flag and does not trigger the $EVAN stage, and
    that replies to a message id which the 500-record window records
    with one bot author [b] that is registered: exactly [b] is asked to
    respond, with the direct-reply reason of [b], whatever the reports
    say about interest and whatever else the text contains. *)
Theorem reply_chain_resolution (b0 b : string) (r : Report)
    (rest : list (string * Report)) (bots : Bots) (recent : nat -> list Msg)
    (rnd : Rand) :
  let reports := (b0, r) :: rest in
  let text := message_text r in
  let rid := replied_to_message_id r in
  is_spam text = false ->
  List.filter (fun kv => is_personal_question (snd kv)) reports = [] ->
  Text.contains "$evan" (Text.lower text) && in_bots "bot2" bots = false ->
  id_truthy rid = true ->
  (exists msg, In msg (recent 500%nat) /\ msg_message_id msg = rid
               /\ msg_sender_type msg = Some "bot" /\ msg_sender_id msg = Some b) ->
  (forall msg, In msg (recent 500%nat) -> msg_message_id msg = rid ->
               msg_sender_type msg = Some "bot" -> msg_sender_id msg = Some b) ->
  b <> "" -> in_bots b bots = true ->
  process_message_interest_after_delay reports bots recent rnd
  = {| responders := [b]; reason := Some (direct_reply_reason b); cleared := true |}.
Proof.
  intros reports text rid Hspam Hpers Htok Hrid Hex Huniq Hb Hin.
  subst reports text rid. unfold process_message_interest_after_delay.
  rewrite Hspam, Hpers, routing_chain_unfold, Htok, Hrid. cbn [is_nil negb].
  unfold reply_to_bot_check.
  rewrite (find_replied_to_bot_unique _ b (recent 500%nat) Hb Hex Huniq).
  rewrite Hin. destruct b; [contradiction | reflexivity].
Qed.

Lemma reply_chain_resolution_witness :
  process_message_interest_after_delay
    [("bot1", Sample.report "bot1" false false "thanks a lot" (Some 42))]
    all_bots Sample.history_42 Sample.rnd
  = {| responders := ["bot1"]; reason := Some "direct_reply_to_btcmax";
       cleared := true |}.
Proof.
  apply (reply_chain_resolution "bot1" "bot1"
           (Sample.report "bot1" false false "thanks a lot" (Some 42)) []
           all_bots Sample.history_42 Sample.rnd);
    try (vm_compute; reflexivity).
  - eexists. split; [left; reflexivity|]. repeat split.
  - intros msg [<-|[]] _ _. reflexivity.
  - discriminate.
Defined.

End RoutingClaims.

(** ** The aggregator *)

Section AggregatorClaims.
Import Coordinator Aggregator.

Variable bots : Bots.









End AggregatorClaims.

Section DispatchClaims.
Import Coordinator Aggregator.




End DispatchClaims.

(** ** The store: reading *)

Section LoadClaims.
Import Json Fs Store Reach.

Variable json_loads : string -> option json.

Lemma has_key_set_same (k : string) (v : json) (d : dict) :
  has_key k (set k v d) = true.
Proof.
  unfold set, has_key. induction d as [|[k' v'] d IH]; simpl.
  - now rewrite String.eqb_refl.
  - destruct (String.eqb k' k) eqn:E; simpl.
    + now rewrite String.eqb_refl.
    + now rewrite E.
Qed.

Lemma has_key_set_other (k k' : string) (v : json) (d : dict) :
  has_key k' d = true -> has_key k' (set k v d) = true.
Proof.
  unfold set, has_key. induction d as [|[k0 v0] d IH]; simpl; [discriminate|].
  intros H. destruct (String.eqb k0 k) eqn:E; simpl.
  - apply String.eqb_eq in E. subst k0.
    destruct (String.eqb k k'); [reflexivity | exact H].
  - destruct (String.eqb k0 k'); [reflexivity | now apply IH].
Qed.

Lemma ensure_field_dict (k : string) (v : json) (d : dict) :
  exists d', ensure_field k v (JObj d) = Ok (JObj d')
             /\ has_key k d' = true
             /\ (forall k', has_key k' d = true -> has_key k' d' = true).
Proof.
  simpl. destruct (has_key k d) eqn:E.
  - exists d. repeat split; auto.
  - exists (set k v d). repeat split.
    + apply has_key_set_same.
    + intros k'. apply has_key_set_other.
Qed.

Lemma ensure_field_other (k : string) (v data r : json) :
  (forall d, data <> JObj d) -> ensure_field k v data = Ok r -> r = data.
Proof.
  intros Hd. destruct data; simpl; try discriminate.
  - destruct (Text.contains k s); [intros H; injection H as <-; reflexivity | discriminate].
  - match goal with |- (if ?c then _ else _) = _ -> _ => destruct c end;
      [intros H; injection H as <-; reflexivity | discriminate].
  - exfalso. now apply (Hd o).
Qed.



Lemma copy_ok (v r : json) : copy v = Ok r -> r = v.
Proof. destruct v; simpl; intros H; try discriminate; now injection H. Qed.



Lemma cache_complete_with_fs (st : Store) (fs' : gmap string file) :
  cache_complete st -> cache_complete (with_fs st fs').
Proof. exact (fun H => H). Qed.





End LoadClaims.

Section Backfill.
Import Json Fs Store.

Lemma get_set_same (k : string) (v : json) (d : dict) : get k (set k v d) = v.
Proof.
  unfold set. induction d as [|[k' v'] d IH]; simpl.
  - now rewrite String.eqb_refl.
  - destruct (String.eqb k' k) eqn:E; simpl.
    + now rewrite String.eqb_refl.
    + now rewrite E.
Qed.

Lemma get_absent (k : string) (d : dict) : has_key k d = false -> get k d = JNull.
Proof.
  unfold has_key. induction d as [|[k' v'] d IH]; simpl; [reflexivity|].
  destruct (String.eqb k' k); [discriminate | exact IH].
Qed.

Lemma get_set_other (k k' : string) (v : json) (d : dict) :
  String.eqb k k' = false -> get k' (set k v d) = get k' d.
Proof.
  intros Hne. unfold set. induction d as [|[k0 v0] d IH]; simpl.
  - now rewrite Hne.
  - destruct (String.eqb k0 k) eqn:E; simpl.
    + apply String.eqb_eq in E. subst k0. now rewrite Hne.
    + destruct (String.eqb k0 k'); [reflexivity | exact IH].
Qed.

Lemma has_key_set_absent (k k' : string) (v : json) (d : dict) :
  String.eqb k k' = false -> has_key k' d = false -> has_key k' (set k v d) = false.
Proof.
  intros Hne. unfold set, has_key.
  induction d as [|[k0 v0] d IH]; simpl; intros H.
  - now rewrite Hne.
  - apply orb_false_iff in H as [H0 H]. destruct (String.eqb k0 k); simpl.
    + now rewrite Hne.
    + rewrite H0. now apply IH.
Qed.

Lemma has_key_fill (k k' : string) (v : json) (d : dict) :
  has_key k' (fill k v d) = has_key k' d || String.eqb k k'.
Proof.
  unfold fill. destruct (has_key k d) eqn:Hk.
  - destruct (String.eqb_spec k k') as [<-|Hne]; [now rewrite Hk | now rewrite orb_false_r].
  - destruct (String.eqb_spec k k') as [<-|Hne].
    + now rewrite has_key_set_same, orb_true_r.
    + rewrite orb_false_r. destruct (has_key k' d) eqn:Hk'.
      * now apply has_key_set_other.
      * apply has_key_set_absent; [now apply String.eqb_neq | assumption].
Qed.

Lemma get_fill (k k' : string) (v : json) (d : dict) :
  get k' (fill k v d)
  = if has_key k' d then get k' d else if String.eqb k k' then v else JNull.
Proof.
  unfold fill. destruct (has_key k d) eqn:Hk.
  - destruct (has_key k' d) eqn:Hk'; [reflexivity|].
    destruct (String.eqb_spec k k') as [<-|Hne]; [congruence | now apply get_absent].
  - destruct (String.eqb_spec k k') as [<-|Hne].
    + now rewrite Hk, get_set_same.
    + rewrite get_set_other by now apply String.eqb_neq.
      destruct (has_key k' d) eqn:Hk'; [reflexivity | now apply get_absent].
Qed.

(** On a dictionary the backfill keeps what is there and creates each
    missing field as an empty container. *)
Lemma ensure_required_fields_backfills (d0 : dict) :
  exists d, ensure_required_fields (JObj d0) = Ok (JObj d)
            /\ forall k, get k d = if has_key k d0 then get k d0 else empty_container k.
Proof.
  exists (fill "recent_topics" (JObj [])
           (fill "web_content" (JArr [])
              (fill "user_data" (JObj [])
                 (fill "conversations" (JArr [])
                    (fill "recent_bot_topics" (JArr []) d0))))).
  split; [reflexivity|]. intros k.
  rewrite !get_fill, !has_key_fill. unfold empty_container.
  destruct (has_key k d0); [reflexivity|]. cbn [orb].
  destruct (String.eqb_spec "recent_bot_topics" k) as [<-|H1]; [reflexivity|].
  destruct (String.eqb_spec "conversations" k) as [<-|H2]; [reflexivity|].
  destruct (String.eqb_spec "user_data" k) as [<-|H3]; [reflexivity|].
  destruct (String.eqb_spec "web_content" k) as [<-|H4]; [reflexivity|].
  destruct (String.eqb_spec "recent_topics" k) as [<-|H5]; [reflexivity|].
  cbn [orb].
  rewrite !(proj2 (String.eqb_neq k _)) by congruence. reflexivity.
Qed.

End Backfill.

Section CompletenessClaims.
Import Json Fs Store Reach.

Variable json_loads : string -> option json.








End CompletenessClaims.

Section FieldCompleteness.
Import Json Fs Store Reach.



End FieldCompleteness.

(** ** The store: writing *)

Section Paths.
Import Fs.

Lemma str_app_cons (x : ascii) (a b : string) :
  (String x a ++ b = String x (a ++ b))%string.
Proof. reflexivity. Qed.


Lemma str_app_assoc (a b c : string) : ((a ++ b) ++ c = a ++ (b ++ c))%string.
Proof.
  induction a as [|x a IH]; [reflexivity|].
  now rewrite !str_app_cons, IH.
Qed.

Lemma str_length_app (a b : string) :
  String.length (a ++ b) = (String.length a + String.length b)%nat.
Proof.
  induction a as [|x a IH]; [reflexivity|].
  rewrite str_app_cons. simpl. now rewrite IH.
Qed.

Lemma chars_app (a b : string) : Text.chars (a ++ b) = Text.chars a ++ Text.chars b.
Proof.
  unfold Text.chars. induction a as [|x a IH]; [reflexivity|].
  rewrite str_app_cons. simpl. now rewrite IH.
Qed.

Lemma of_chars_app (l m : list ascii) :
  Text.of_chars (l ++ m) = (Text.of_chars l ++ Text.of_chars m)%string.
Proof.
  unfold Text.of_chars. induction l as [|x l IH]; [reflexivity|].
  simpl. now rewrite str_app_cons, IH.
Qed.

Lemma contains_slash_cons (c : ascii) (s : string) :
  Text.contains "/" (String c s) = (Ascii.eqb "/" c || Text.contains "/" s)%bool.
Proof.
  cbn [Text.contains Text.startswith]. now rewrite andb_true_r.
Qed.

(** A text contains ["/"] exactly when the character occurs in it. *)
Lemma contains_slash (s : string) :
  Text.contains "/" s = true <-> In "/"%char (Text.chars s).
Proof.
  induction s as [|c s IH].
  - split; [discriminate | intros []].
  - rewrite contains_slash_cons, orb_true_iff, IH, Ascii.eqb_eq.
    unfold Text.chars. cbn [list_ascii_of_string In]. intuition congruence.
Qed.

Lemma no_slash_app (a b : string) :
  Text.contains "/" a = false -> Text.contains "/" b = false ->
  Text.contains "/" (a ++ b) = false.
Proof.
  intros Ha Hb. apply not_true_iff_false. rewrite contains_slash, chars_app, in_app_iff.
  intros [H|H]; apply contains_slash in H; congruence.
Qed.

Lemma basename_go_no_slash (cur : list ascii) (s : string) :
  Text.contains "/" s = false ->
  basename_go cur s = (Text.of_chars (rev cur) ++ s)%string.
Proof.
  revert cur. induction s as [|c s IH]; intros cur H.
  - simpl. induction (Text.of_chars (rev cur)) as [|x t IHt];
      [reflexivity | now rewrite str_app_cons, <- IHt].
  - rewrite contains_slash_cons in H. apply orb_false_iff in H as [Hc Hs].
    cbn [basename_go]. rewrite Ascii.eqb_sym, Hc. rewrite (IH _ Hs).
    cbn [rev]. now rewrite of_chars_app, str_app_assoc.
Qed.

Lemma basename_go_slash (cur : list ascii) (a b : string) :
  basename_go cur (a ++ String "/" b) = basename b.
Proof.
  revert cur. induction a as [|c a IH]; intros cur.
  - reflexivity.
  - rewrite str_app_cons. cbn [basename_go]. destruct (Ascii.eqb c "/"); apply IH.
Qed.

Lemma basename_go_clean (cur : list ascii) (s : string) :
  ~ In "/"%char cur -> Text.contains "/" (basename_go cur s) = false.
Proof.
  revert cur. induction s as [|c s IH]; intros cur H; cbn [basename_go].
  - apply not_true_iff_false. rewrite contains_slash. unfold Text.chars, Text.of_chars.
    rewrite list_ascii_of_string_of_list_ascii, <- in_rev. exact H.
  - destruct (Ascii.eqb c "/") eqn:E.
    + apply IH. intros [].
    + apply IH. intros [Hc|Hc]; [|contradiction].
      subst c. now rewrite Ascii.eqb_refl in E.
Qed.

Lemma basename_clean (path : string) : Text.contains "/" (basename path) = false.
Proof. apply basename_go_clean. intros []. Qed.

(** No file that [save_data] writes as a backup, and no file that the
    cleanup of the backups can remove, is the primary file. *)
Lemma backup_path_ne (path rest : string) :
  Text.contains "/" rest = false ->
  (Store.backup_prefix path ++ rest)%string <> path.
Proof.
  intros Hrest Heq. unfold Store.backup_prefix in Heq.
  assert (Hb : basename (("backups/" ++ basename path ++ ".backup.") ++ rest)
               = (basename path ++ ".backup." ++ rest)%string).
  { change ("backups/" ++ basename path ++ ".backup.")%string
      with ("backups" ++ String "/" (basename path ++ ".backup."))%string.
    rewrite str_app_assoc. change (String "/" (basename path ++ ".backup.") ++ rest)%string
      with (String "/" ((basename path ++ ".backup.") ++ rest)).
    unfold basename at 1. rewrite basename_go_slash.
    unfold basename at 1. rewrite basename_go_no_slash.
    - simpl. now rewrite str_app_assoc.
    - apply no_slash_app; [apply no_slash_app|]; auto using basename_clean. }
  rewrite Heq in Hb. apply (f_equal String.length) in Hb.
  rewrite !str_length_app in Hb. simpl in Hb. lia.
Qed.

Lemma startswith_drop (a q : string) :
  Text.startswith a q = true -> q = (a ++ Text.drop (String.length a) q)%string.
Proof.
  revert q. induction a as [|x a IH]; intros q H.
  - now destruct q.
  - destruct q as [|y q]; simpl in H; [discriminate|].
    apply andb_true_iff in H as [Hx Hq]. apply Ascii.eqb_eq in Hx. subst y.
    rewrite str_app_cons. simpl. f_equal. now apply IH.
Qed.

Lemma glob_match_ne (path q : string) :
  glob_match (Store.backup_prefix path) q = true -> q <> path.
Proof.
  unfold glob_match. intros H. apply andb_true_iff in H as [Hs Hn].
  apply negb_true_iff in Hn. rewrite (startswith_drop _ _ Hs).
  now apply backup_path_ne.
Qed.

Lemma temp_file_ne (path : string) : Store.temp_file path <> path.
Proof.
  unfold Store.temp_file. intros H. apply (f_equal String.length) in H.
  rewrite str_length_app in H. simpl in H. lia.
Qed.

End Paths.

Section Atomicity.
Import Json Fs Store.

Variables (path : string) (old : option file).

Local Abbreviation kept := (Store.kept path old).
Local Abbreviation committed := (Store.committed path old).

Lemma remove_all_kept (files : list (string * file)) (fs : gmap string file) :
  (forall x, In x files -> fst x <> path) -> kept fs ->
  List.Forall kept (remove_all files fs).
Proof.
  revert fs. induction files as [|x files IH]; intros fs Hne Hk; simpl.
  - constructor.
  - assert (Hk' : kept (delete (fst x) fs)).
    { unfold Store.kept. rewrite lookup_delete_ne; [exact Hk | apply Hne; now left]. }
    constructor; [exact Hk'|]. apply IH; [|exact Hk'].
    intros y Hy. apply Hne. now right.
Qed.

Lemma In_insert_by_mtime (x y : string * file) (l : list (string * file)) :
  In y (insert_by_mtime x l) -> y = x \/ In y l.
Proof.
  induction l as [|z l IH]; simpl.
  - intros [H|[]]. now left.
  - destruct (Coordinator.Qltb _ _); simpl.
    + intros [H|[H|H]]; auto.
    + intros [H|H]; auto. destruct (IH H); auto.
Qed.

Lemma In_sort_newest_first (y : string * file) (l : list (string * file)) :
  In y (sort_newest_first l) -> In y l.
Proof.
  induction l as [|x l IH]; simpl; [auto|].
  intros H. apply In_insert_by_mtime in H as [->|H]; auto.
Qed.

Lemma In_skipn_In {A : Type} (n : nat) (x : A) (l : list A) :
  In x (skipn n l) -> In x l.
Proof.
  intros H. rewrite <- (firstn_skipn n l). apply in_or_app. now right.
Qed.

Lemma cleanup_kept (fs : gmap string file) :
  kept fs -> List.Forall kept (cleanup_old_backups path fs).
Proof.
  intros Hk. unfold cleanup_old_backups.
  destruct (Nat.leb _ 10); [constructor|].
  apply remove_all_kept; [|exact Hk].
  intros x Hx. apply In_skipn_In, In_sort_newest_first in Hx.
  unfold glob in Hx. apply filter_In in Hx as [_ Hm].
  now apply glob_match_ne.
Qed.

Lemma last_kept (t : Trace) (fs : gmap string file) :
  List.Forall kept t -> kept fs -> kept (last_fs t fs).
Proof.
  unfold last_fs. induction 1 as [|x t Hx Ht IH]; intros Hk; [exact Hk|].
  destruct t as [|y t]; [exact Hx|]. now apply IH.
Qed.

Lemma backup_kept (stamp : string) (copy_fails : bool) (fs : gmap string file) :
  Text.contains "/" stamp = false -> kept fs ->
  List.Forall kept (backup_before_save path stamp copy_fails fs).
Proof.
  intros Hs Hk. unfold backup_before_save.
  destruct (fs !! path) as [f|] eqn:E; [|constructor].
  destruct (nonempty f && negb copy_fails); [|constructor].
  assert (Hk' : kept (<[(backup_prefix path ++ stamp)%string := f]> fs)).
  { unfold Store.kept. rewrite lookup_insert_ne; [exact Hk | now apply backup_path_ne]. }
  constructor; [exact Hk'|]. now apply cleanup_kept.
Qed.

Lemma insert_temp_kept (f : file) (fs : gmap string file) :
  kept fs -> kept (<[temp_file path := f]> fs).
Proof.
  intros Hk. unfold Store.kept. rewrite lookup_insert_ne; [exact Hk | apply temp_file_ne].
Qed.

Lemma write_attempt_spec (data : dict) (now : Q) (fault : Fault) (fs : gmap string file) :
  kept fs ->
  let new := {| Fs.data := Dumped (JObj data); mtime := now |} in
  match write_attempt path data now fault fs with
  | (t, true) => fault = NoFault /\ committed new t
  | (t, false) => fault <> NoFault /\ List.Forall kept t
  end.
Proof.
  intros Hk new. unfold write_attempt.
  destruct fault; (split; [try reflexivity; try discriminate|]);
    try (repeat constructor; now apply insert_temp_kept).
  exists [<[temp_file path := {| Fs.data := Raw ""; mtime := now |}]> fs].
  eexists. eexists. split; [reflexivity|].
  repeat split.
  - repeat constructor. now apply insert_temp_kept.
  - now apply insert_temp_kept.
  - apply lookup_insert_eq.
  - apply lookup_insert_eq.
  - rewrite lookup_insert_ne by (intros H; symmetry in H; now apply temp_file_ne in H).
    apply lookup_delete_eq.
Qed.

Lemma save_attempts_spec (attempts : list nat) (data : dict) (now : Q) (stamp : string)
    (copy_fails : bool) (faults : nat -> Fault) (fs : gmap string file) :
  Text.contains "/" stamp = false -> kept fs ->
  let new := {| Fs.data := Dumped (JObj data); mtime := now |} in
  match save_attempts attempts path data now stamp copy_fails faults fs with
  | (t, true) => committed new t /\ exists a, In a attempts /\ faults a = NoFault
  | (t, false) => List.Forall kept t /\ forall a, In a attempts -> faults a <> NoFault
  end.
Proof.
  intros Hs. revert fs. induction attempts as [|a rest IH]; intros fs Hk new.
  - simpl. split; [constructor | intros a []].
  - cbn [save_attempts].
    set (t1 := if Nat.eqb a 0 then backup_before_save path stamp copy_fails fs else []).
    assert (H1 : List.Forall kept t1).
    { unfold t1. destruct (Nat.eqb a 0); [now apply backup_kept | constructor]. }
    pose proof (last_kept t1 fs H1 Hk) as Hk1.
    pose proof (write_attempt_spec data now (faults a) _ Hk1) as Hw.
    destruct (write_attempt path data now (faults a) (last_fs t1 fs)) as [t2 [|]].
    + destruct Hw as [Hf (pre & written & final & -> & Hp & Hr)]. split.
      * exists (t1 ++ pre), written, final. split; [now rewrite <- app_assoc|].
        split; [now apply Forall_app|exact Hr].
      * exists a. split; [now left | exact Hf].
    + destruct Hw as [Hf H2].
      pose proof (last_kept t2 _ H2 Hk1) as Hk2.
      specialize (IH _ Hk2). cbv zeta in IH.
      destruct (save_attempts rest path data now stamp copy_fails faults
                  (last_fs t2 (last_fs t1 fs))) as [t3 [|]].
      * destruct IH as [(pre & written & final & -> & Hp & Hr) (a' & Ha' & Hn)]. split.
        -- exists (t1 ++ t2 ++ pre), written, final.
           split; [now rewrite <- !app_assoc|].
           split; [|exact Hr]. apply Forall_app. split; [exact H1|].
           now apply Forall_app.
        -- exists a'. split; [now right | exact Hn].
      * destruct IH as [H3 Hn]. split.
        -- apply Forall_app. split; [exact H1|]. now apply Forall_app.
        -- intros a' [<-|Ha']; [exact Hf | now apply Hn].
Qed.

End Atomicity.

Section WritePath.
Import Json Fs Store.




End WritePath.

Section Recovery.
Import Json Fs Store.

(** For a store file named without a directory, as the default
    [shared_memory.json] is, no backup that [save_data] writes matches
    the pattern the restore step searches with. *)
Lemma restore_pattern_misses_backups (path stamp : string) :
  Text.contains "/" path = false ->
  glob_match (path ++ ".backup.") (backup_prefix path ++ stamp) = false.
Proof.
  intros Hp. apply not_true_iff_false. unfold glob_match. intros H.
  apply andb_true_iff in H as [Hs Hn]. apply negb_true_iff in Hn.
  pose proof (startswith_drop _ _ Hs) as Heq.
  assert (Hno : Text.contains "/" (backup_prefix path ++ stamp) = false).
  { rewrite Heq. apply no_slash_app; [apply no_slash_app|]; auto. }
  apply not_true_iff_false in Hno. apply Hno.
  unfold backup_prefix. apply contains_slash.
  rewrite !chars_app. apply in_or_app. left. apply in_or_app. left.
  cbn. tauto.
Qed.

(** C3. Corruption recovery, first step, at a store whose previous
    version was backed up by the write path before the last replace and
    whose primary file is then damaged.  The backup is there, under
    [backups/]; the restore step looks for [shared_memory.json.backup.*]
    next to the primary file, finds nothing and reports failure; no
    repair applies, and the read returns the empty default document,
    not the previous version. *)
Theorem restore_misses_saved_backups :
  fs Sample.damaged !! "backups/shared_memory.json.backup.20250101120001"
  = Some {| Fs.data := Dumped (JObj Sample.version1); mtime := 2 |}
  /\ glob (Sample.path ++ ".backup.") (fs Sample.damaged) = []
  /\ fst (_try_restore_from_backup Sample.damaged) = false
  /\ fst (load_data Sample.rejects Sample.damaged 10 "20250101120010")
     = Ok (JObj default_data).
Proof. vm_compute. repeat split; reflexivity. Qed.

End Recovery.

Section Conversations.
Import Json Fs Store.

Variable json_loads : string -> option json.


Lemma file_path_restore (st : Store) :
  file_path (snd (_try_restore_from_backup st)) = file_path st.
Proof.
  unfold _try_restore_from_backup. destruct (glob _ _); [reflexivity|].
  destruct (copy2 _ _ _); reflexivity.
Qed.

Lemma file_path_repair (st : Store) (now : Q) (stamp : string) :
  file_path (snd (_try_repair_json_file json_loads st now stamp)) = file_path st.
Proof.
  unfold _try_repair_json_file.
  destruct (fs st !! file_path st) as [f|]; [|reflexivity].
  destruct (data f); [reflexivity|].
  destruct (negb _); [reflexivity|].
  destruct (json_loads _); reflexivity.
Qed.

Lemma file_path_load_attempts (attempts : list nat) (st : Store) now stamp :
  file_path (snd (load_attempts json_loads attempts st now stamp)) = file_path st.
Proof.
  revert st. induction attempts as [|a rest IH]; intros st; cbn [load_attempts].
  - reflexivity.
  - destruct (read_json json_loads st).
    + unfold finish_load. destruct (ensure_required_fields _); reflexivity.
    + destruct (Nat.eqb a 0); [now rewrite IH, file_path_restore|].
      destruct (Nat.eqb a 1); [now rewrite IH, file_path_repair|].
      destruct (Nat.eqb a (max_retries - 1)); [reflexivity | apply IH].
Qed.

Lemma file_path_load (st : Store) now stamp :
  file_path (snd (load_data json_loads st now stamp)) = file_path st.
Proof.
  unfold load_data. destruct (_cached_data st); [|apply file_path_load_attempts].
  destruct (Coordinator.Qltb _ _); [reflexivity | apply file_path_load_attempts].
Qed.

End Conversations.

Section ConversationClaims.
Import Json Fs Store.



End ConversationClaims.

Section Topics.
Import Json Fs Store.

Lemma Qltb_lt (a b : Q) : Coordinator.Qltb a b = true <-> (a < b)%Q.
Proof.
  unfold Coordinator.Qltb. rewrite negb_true_iff. split.
  - intros H. apply Qnot_le_lt. intros Hle. apply Qle_bool_iff in Hle. congruence.
  - intros H. apply not_true_iff_false. intros Hle. apply Qle_bool_iff in Hle.
    now apply (Qlt_not_le a b).
Qed.

Lemma entry_fields_reads (e : json) (q : string) (t : Q) :
  entry_fields e = Some (q, t) ->
  time_of e = Some t /\ used_query_of e = Some (Text.lower q).
Proof.
  destruct e as [| | | | |o]; try discriminate. unfold entry_fields, time_of, used_query_of.
  destruct (has_key "query" o); [|discriminate].
  destruct (has_key "time" o); [|discriminate]. cbn [andb].
  destruct (get "query" o); try discriminate.
  destruct (get "time" o); try discriminate.
  intros H. injection H as <- <-. split; reflexivity.
Qed.

Lemma recent_entries_wf (cutoff : Q) (l : list json) :
  (forall e, In e l -> entry_fields e <> None) ->
  recent_entries cutoff l = Some (List.filter (in_window cutoff) l).
Proof.
  induction l as [|e l IH]; intros H; [reflexivity|].
  cbn [recent_entries List.filter].
  rewrite IH by (intros x Hx; apply H; now right).
  destruct (entry_fields e) as [[q t]|] eqn:E;
    [|exfalso; now apply (H e (or_introl eq_refl))].
  assert (Hw : in_window cutoff e = Coordinator.Qltb cutoff t)
    by (unfold in_window; now rewrite E).
  destruct (entry_fields_reads e q t E) as [-> _]. now rewrite Hw.
Qed.





End Topics.

Section TopicClaims.
Import Json Fs Store.






(** The same round trip through the store: the entry is written by
    [add_recently_used_topic] and read back by [is_topic_recently_used],
    at first from the cache and later from the file. *)
Example topic_round_trip_store :
  let st := add_recently_used_topic Sample.rejects Sample.fresh_store "agentA"
              "Bitcoin price update, following market" 200 200 "20250101120000"
              false no_faults in
  fst (fst (is_topic_recently_used Sample.rejects st "bitcoin price update" 10 203
              "20250101120003")) = true
  /\ fst (fst (is_topic_recently_used Sample.rejects st "bitcoin price update" 10 700
                 "20250101120820")) = true
  /\ fst (fst (is_topic_recently_used Sample.rejects st "bitcoin price update" 10 800
                 "20250101121000")) = false.
Proof. vm_compute. repeat split; reflexivity. Qed.

End TopicClaims.

(** ** More on the routing pipeline *)

Section RoutingShape.
Import Coordinator.

Lemma content_mention_fallback_continue (text : string) (bots : Bots) :
  exists sel r, content_mention_fallback text bots = Continue sel r
                /\ (length sel <= 1)%nat
                /\ forall b, In b sel -> in_bots b bots = true.
Proof.
  induction bots as [|[b n] bots IH]; cbn [content_mention_fallback].
  - exists [], None. repeat split; [simpl; lia | intros b []].
  - destruct (Text.contains (Text.lower n) (Text.lower text)
              || Text.contains (Text.lower b) (Text.lower text)).
    + exists [b], (Some "content_mention_fallback"). repeat split; [simpl; lia|].
      intros x [<-|[]]. unfold in_bots. cbn [existsb fst].
      now rewrite String.eqb_refl.
    + destruct IH as (sel & r & -> & Hl & Hin). exists sel, r. repeat split; auto.
      intros x Hx. unfold in_bots. cbn [existsb fst].
      apply orb_true_iff. right. now apply Hin.
Qed.

Lemma reply_to_bot_check_cases (rid : option Z) (text : string) (bots : Bots)
    (recent : nat -> list Msg) :
  (exists b, reply_to_bot_check rid text bots recent
             = Return {| responders := [b]; reason := Some (direct_reply_reason b);
                         cleared := true |}
             /\ in_bots b bots = true)
  \/ (exists sel r, reply_to_bot_check rid text bots recent = Continue sel r
                    /\ (length sel <= 1)%nat
                    /\ forall b, In b sel -> in_bots b bots = true).
Proof.
  unfold reply_to_bot_check.
  destruct (match find_replied_to_bot rid (recent 500%nat) with
            | Some b => Some b
            | None => infer_replied_to_bot rid text bots (recent 500%nat)
            end) as [b|]; [|right; apply content_mention_fallback_continue].
  destruct (Text.truthy b && in_bots b bots) eqn:E;
    [|right; apply content_mention_fallback_continue].
  left. exists b. split; [reflexivity|]. now apply andb_true_iff in E.
Qed.

Lemma mentioned_bots_registered (text : string) (bots : Bots) (b : string) :
  In b (mentioned_bots text bots) -> in_bots b bots = true.
Proof.
  unfold mentioned_bots.
  assert (H : forall l acc,
             (forall x, In x acc -> in_bots x bots = true) ->
             (forall x, In x l -> in_bots x bots = true) ->
             forall x, In x (fold_left
                               (fun acc b =>
                                  if is_bot_name_mentioned b text bots
                                  then (if Text.mem b acc then acc else acc ++ [b])
                                  else acc) l acc) -> in_bots x bots = true).
  { induction l as [|y l IH]; intros acc Hacc Hl x; cbn [fold_left]; [apply Hacc|].
    apply IH; [|intros z Hz; apply Hl; now right].
    destruct (is_bot_name_mentioned y text bots); [|exact Hacc].
    destruct (Text.mem y acc); [exact Hacc|].
    intros z Hz. apply in_app_iff in Hz as [Hz|[<-|[]]]; [now apply Hacc|].
    apply Hl. now left. }
  apply H; [intros x [] | intros x Hx; now apply in_bots_keys].
Qed.

(** What the [elif] chain can hand on: an early return to one
    registered bot, or a selection of registered bots that has more
    than one member only for several name mentions. *)
Lemma routing_chain_cases reports text rid bots recent :
  (exists b, routing_chain reports text rid bots recent
             = Return {| responders := [b]; reason := Some (direct_reply_reason b);
                         cleared := true |}
             /\ in_bots b bots = true)
  \/ (exists sel r, routing_chain reports text rid bots recent = Continue sel r
                    /\ ((length sel <= 1)%nat \/ r = Some "multiple_name_mentions")
                    /\ forall b, In b sel -> in_bots b bots = true).
Proof.
  rewrite routing_chain_unfold.
  destruct (Text.contains "$evan" (Text.lower text) && in_bots "bot2" bots) eqn:Et.
  { right. exists ["bot2"], (Some "$evan_token_mention"). repeat split.
    - left. simpl. lia.
    - intros b [<-|[]]. now apply andb_true_iff in Et. }
  destruct (id_truthy rid).
  { destruct (reply_to_bot_check_cases rid text bots recent)
      as [H|(sel & r & -> & Hl & Hin)]; [now left|].
    right. exists sel, r. repeat split; auto. }
  right. unfold name_mention_routing.
  pose proof (mentioned_bots_registered text bots) as Hreg.
  destruct (mentioned_bots text bots) as [|x [|y l]].
  - exists [], None. repeat split; [left; simpl; lia | intros b []].
  - exists [x], (Some "name_mention"). repeat split; [left; simpl; lia | exact Hreg].
  - exists (x :: y :: l), (Some "multiple_name_mentions"). repeat split;
      [now right | exact Hreg].
Qed.

Lemma general_request_routing_le (text : string) (bots : Bots) (rnd : Rand) :
  (length (fst (general_request_routing text bots rnd)) <= 1)%nat.
Proof.
  unfold general_request_routing.
  repeat match goal with
         | |- context [if ?c then _ else _] => destruct c
         | |- context [match keys bots with _ => _ end] => destruct (keys bots)
         end; simpl; lia.
Qed.

Lemma direct_reply_fallback_le (rid : option Z) (bots : Bots) (recent : list Msg) :
  (length (fst (direct_reply_fallback rid bots recent)) <= 1)%nat.
Proof.
  unfold direct_reply_fallback.
  assert (H : forall acc : list string * option string,
             (length (fst acc) <= 1)%nat ->
             (length (fst (fold_left
                (fun acc msg =>
                   if opt_Z_eqb (msg_message_id msg) rid
                      && opt_str_is (msg_sender_type msg) "bot"
                   then match msg_sender_id msg with
                        | Some b => if Text.truthy b && in_bots b bots
                                    then ([b], Some "direct_reply_fallback") else acc
                        | None => acc
                        end
                   else acc) recent acc)) <= 1)%nat).
  { induction recent as [|m recent IH]; intros acc Hacc; cbn [fold_left]; [exact Hacc|].
    apply IH. destruct (_ && _); [|exact Hacc].
    destruct (msg_sender_id m) as [b|]; [|exact Hacc].
    destruct (_ && _); [simpl; lia | exact Hacc]. }
  apply H. simpl. lia.
Qed.

Lemma final_check_le rid text bots recent :
  (length (fst (final_check rid text bots recent)) <= 1)%nat.
Proof.
  assert (Hs : (length (fst (search_keyword_fallback text bots)) <= 1)%nat).
  { unfold search_keyword_fallback.
    repeat match goal with |- context [if ?c then _ else _] => destruct c end;
      simpl; lia. }
  assert (Hr : (length (fst (reply_fallbacks rid text bots recent)) <= 1)%nat).
  { unfold reply_fallbacks.
    pose proof (direct_reply_fallback_le rid bots (recent 1000%nat)) as Hd.
    destruct (negb (is_nil (fst (direct_reply_fallback rid bots (recent 1000%nat)))));
      [exact Hd|].
    destruct (List.filter _ (keys bots)); [|simpl; lia].
    repeat match goal with |- context [if ?c then _ else _] => destruct c end;
      try (simpl; lia); try exact Hd. }
  unfold final_check.
  destruct (id_truthy rid).
  - destruct (is_nil (fst (reply_fallbacks rid text bots recent))); assumption.
  - cbn [fst is_nil]. exact Hs.
Qed.

Lemma trigger_shape (sel : list string) (r : option string) (bots : Bots) :
  (forall b, In b (responders (trigger sel r bots)) -> in_bots b bots = true)
  /\ (length (responders (trigger sel r bots)) <= length sel)%nat
  /\ (responders (trigger sel r bots) = [] \/ reason (trigger sel r bots) = r).
Proof.
  unfold trigger, nothing. destruct r as [x|]; cbn [responders reason].
  - repeat split.
    + intros b Hb. apply filter_In in Hb. tauto.
    + apply List.filter_length_le.
    + now right.
  - repeat split; [intros b [] | simpl; lia | now left].
Qed.

Lemma after_chain_shape sel r rid text bots recent rnd :
  let o := after_chain sel r rid text bots recent rnd in
  (forall b, In b (responders o) -> in_bots b bots = true)
  /\ ((length sel <= 1)%nat -> (length (responders o) <= 1)%nat)
  /\ ((length (responders o) <= 1)%nat \/ reason o = r).
Proof.
  unfold after_chain.
  set (sel1 := if is_nil sel then general_request_routing text bots rnd else (sel, r)).
  set (sel2 := if is_nil (fst sel1) then final_check rid text bots recent else sel1).
  assert (H1 : (length sel <= 1)%nat -> (length (fst sel2) <= 1)%nat).
  { intros Hl. unfold sel2, sel1. destruct sel as [|x sel]; cbn [is_nil].
    - pose proof (general_request_routing_le text bots rnd).
      destruct (is_nil (fst (general_request_routing text bots rnd)));
        [apply final_check_le | assumption].
    - cbn [fst is_nil]. exact Hl. }
  assert (H2 : (length (fst sel2) <= 1)%nat \/ sel2 = (sel, r)).
  { unfold sel2, sel1. destruct sel as [|x sel]; cbn [is_nil].
    - left. pose proof (general_request_routing_le text bots rnd).
      destruct (is_nil (fst (general_request_routing text bots rnd)));
        [apply final_check_le | assumption].
    - cbn [fst is_nil]. now right. }
  cbv zeta. destruct (is_nil (fst sel2)).
  { unfold nothing. cbn [responders reason]. repeat split;
      [intros b [] | simpl; lia | left; simpl; lia]. }
  destruct (trigger_shape (fst sel2) (snd sel2) bots) as (T1 & T2 & T3).
  repeat split; [exact T1 | intros Hl; specialize (H1 Hl); lia |].
  destruct H2 as [H2|H2].
  - left. lia.
  - rewrite H2 in *. cbn [fst snd] in *. destruct T3 as [T3|T3];
      [left; rewrite T3; simpl; lia | now right].
Qed.

End RoutingShape.

Section RoutingExtras.
Import Coordinator.

(** X1. The pipeline never asks an unregistered bot to respond. *)
Theorem responders_registered (reports : list (string * Report)) (bots : Bots)
    (recent : nat -> list Msg) (rnd : Rand) (b : string) :
  In b (responders (process_message_interest_after_delay reports bots recent rnd)) ->
  in_bots b bots = true.
Proof.
  unfold process_message_interest_after_delay.
  destruct reports as [|[b0 r0] rest]; [intros []|].
  destruct (is_spam (message_text r0)); [intros []|].
  destruct (negb (is_nil _)).
  { cbn [responders]. intros Hb. apply filter_In in Hb. tauto. }
  destruct (routing_chain_cases ((b0, r0) :: rest) (message_text r0)
              (replied_to_message_id r0) bots recent)
    as [(x & -> & Hx)|(sel & r & -> & _ & Hin)].
  - cbn [responders]. intros [<-|[]]. exact Hx.
  - apply after_chain_shape.
Qed.

Lemma responders_registered_witness :
  In "bot1" (responders (process_message_interest_after_delay
                           [("bot2", Sample.report "bot2" true false
                                       "hey max any update" None)]
                           all_bots Sample.no_history Sample.rnd))
  /\ in_bots "bot1" all_bots = true.
Proof.
  assert (H : In "bot1" (responders (process_message_interest_after_delay
                           [("bot2", Sample.report "bot2" true false
                                       "hey max any update" None)]
                           all_bots Sample.no_history Sample.rnd)))
    by (vm_compute; left; reflexivity).
  split; [exact H|].
  exact (responders_registered _ all_bots Sample.no_history Sample.rnd "bot1" H).
Defined.

(** X2. One run selects at most one bot, except on a personal question
    (every flagged bot) and on several name mentions (every named
    bot). *)
Theorem single_responder (reports : list (string * Report)) (bots : Bots)
    (recent : nat -> list Msg) (rnd : Rand) :
  let o := process_message_interest_after_delay reports bots recent rnd in
  (length (responders o) <= 1)%nat
  \/ reason o = Some "personal_question"
  \/ reason o = Some "multiple_name_mentions".
Proof.
  unfold process_message_interest_after_delay.
  destruct reports as [|[b0 r0] rest]; [left; simpl; lia|].
  destruct (is_spam (message_text r0)); [left; simpl; lia|].
  destruct (negb (is_nil _)); [right; left; reflexivity|].
  destruct (routing_chain_cases ((b0, r0) :: rest) (message_text r0)
              (replied_to_message_id r0) bots recent)
    as [(x & -> & Hx)|(sel & r & -> & Hl & Hin)].
  - left. simpl. lia.
  - destruct (after_chain_shape sel r (replied_to_message_id r0) (message_text r0)
                bots recent rnd) as (_ & A2 & A3).
    cbv zeta. destruct Hl as [Hl|Hl]; [left; now apply A2|].
    destruct A3 as [A3|A3]; [now left | right; right; congruence].
Qed.

End RoutingExtras.

Section RoutingStages.
Import Coordinator.

(** X3. A message that one bot flags as a personal question goes to every
    registered bot that flagged it, whatever the token, reply and name
    stages would have chosen, and the pending entry is removed. *)
Theorem personal_question_override (b0 : string) (r0 : Report)
    (rest : list (string * Report)) (bots : Bots) (recent : nat -> list Msg)
    (rnd : Rand) :
  is_spam (message_text r0) = false ->
  (exists k r, In (k, r) ((b0, r0) :: rest) /\ is_personal_question r = true) ->
  let o := process_message_interest_after_delay ((b0, r0) :: rest) bots recent rnd in
  reason o = Some "personal_question"
  /\ cleared o = true
  /\ forall b, In b (responders o) <->
               in_bots b bots = true
               /\ exists r, In (b, r) ((b0, r0) :: rest) /\ is_personal_question r = true.
Proof.
  intros Hs (k & r & Hin & Hp). cbv zeta.
  unfold process_message_interest_after_delay. rewrite Hs.
  set (reports := (b0, r0) :: rest) in *.
  assert (Hne : negb (is_nil (List.filter (fun kv => is_personal_question (snd kv))
                                reports)) = true).
  { destruct (List.filter _ reports) as [|x l] eqn:E; [|reflexivity].
    assert (H : In (k, r) (List.filter (fun kv => is_personal_question (snd kv)) reports))
      by (apply filter_In; split; [exact Hin | exact Hp]).
    rewrite E in H. destruct H. }
  rewrite Hne. cbn [reason cleared responders].
  split; [reflexivity|]. split; [reflexivity|]. intros b. split.
  - intros Hb. apply filter_In in Hb as [Hb Hreg]. split; [exact Hreg|].
    unfold keys in Hb.
    apply in_map_iff in Hb as ([k' r'] & <- & Hb). apply filter_In in Hb as [Hb Hq].
    exists r'. now split.
  - intros [Hreg (r' & Hb & Hq)]. apply filter_In. split; [|exact Hreg].
    unfold keys. apply in_map_iff. exists (b, r'). split; [reflexivity|].
    apply filter_In. now split.
Qed.

Lemma personal_question_override_witness :
  let o := process_message_interest_after_delay
             [("bot1", Sample.report "bot1" false false "$evan do you like pizza" (Some 7));
              ("bot3", Sample.report "bot3" false true "$evan do you like pizza" (Some 7))]
             all_bots Sample.no_history Sample.rnd in
  reason o = Some "personal_question"
  /\ cleared o = true
  /\ forall b, In b (responders o) <->
               in_bots b all_bots = true
               /\ exists r,
                   In (b, r)
                      [("bot1", Sample.report "bot1" false false
                                  "$evan do you like pizza" (Some 7));
                       ("bot3", Sample.report "bot3" false true
                                  "$evan do you like pizza" (Some 7))]
                   /\ is_personal_question r = true.
Proof.
  apply (personal_question_override "bot1"
           (Sample.report "bot1" false false "$evan do you like pizza" (Some 7))
           [("bot3", Sample.report "bot3" false true "$evan do you like pizza" (Some 7))]
           all_bots Sample.no_history Sample.rnd).
  - vm_compute. reflexivity.
  - exists "bot3", (Sample.report "bot3" false true "$evan do you like pizza" (Some 7)).
    split; [right; left; reflexivity | reflexivity].
Defined.

(** X4. Without spam and personal flags, a text that contains the token
    [$evan] in any case is routed to [bot2] alone when [bot2] is
    registered: the reply target, the names in the text, the history and
    the random draws are not consulted, and the pending entry stays. *)
Theorem evan_token_precedence (b0 : string) (r0 : Report)
    (rest : list (string * Report)) (bots : Bots) (recent : nat -> list Msg)
    (rnd : Rand) :
  is_spam (message_text r0) = false ->
  (forall k r, In (k, r) ((b0, r0) :: rest) -> is_personal_question r = false) ->
  Text.contains "$evan" (Text.lower (message_text r0)) = true ->
  in_bots "bot2" bots = true ->
  process_message_interest_after_delay ((b0, r0) :: rest) bots recent rnd
  = {| responders := ["bot2"]; reason := Some "$evan_token_mention"; cleared := false |}.
Proof.
  intros Hs Hp Ht Hb.
  unfold process_message_interest_after_delay. rewrite Hs.
  assert (Hf : List.filter (fun kv : string * Report => is_personal_question (snd kv))
                 ((b0, r0) :: rest) = []).
  { generalize ((b0, r0) :: rest), Hp. clear. intros l.
    induction l as [|[k r] l IH]; intros H; [reflexivity|].
    cbn [List.filter snd]. rewrite (H k r) by now left.
    apply IH. intros k' r' Hin. apply (H k' r'). now right. }
  rewrite Hf. cbn [is_nil negb].
  rewrite routing_chain_unfold, Ht, Hb. cbn [andb].
  apply after_chain_selected; [discriminate|].
  intros b [<-|[]]. now apply in_bots_keys.
Qed.

Lemma evan_token_precedence_witness :
  process_message_interest_after_delay
    [("bot1", Sample.report "bot1" true false "Max, is $EVAN up today" (Some 7))]
    all_bots Sample.history_42 Sample.rnd
  = {| responders := ["bot2"]; reason := Some "$evan_token_mention"; cleared := false |}.
Proof.
  apply (evan_token_precedence "bot1"
           (Sample.report "bot1" true false "Max, is $EVAN up today" (Some 7)) []
           all_bots Sample.history_42 Sample.rnd).
  - vm_compute. reflexivity.
  - intros k r [H|[]]. inversion H. reflexivity.
  - vm_compute. reflexivity.
  - reflexivity.
Defined.

(** X5. A general request that no earlier stage claims is answered by
    exactly one registered bot whenever a bot is registered, for every
    value of the two random draws. *)
Theorem general_request_one_responder (b0 : string) (r0 : Report)
    (rest : list (string * Report)) (bots : Bots) (recent : nat -> list Msg)
    (rnd : Rand) :
  is_spam (message_text r0) = false ->
  (forall k r, In (k, r) ((b0, r0) :: rest) -> is_personal_question r = false) ->
  Text.contains "$evan" (Text.lower (message_text r0)) = false ->
  id_truthy (replied_to_message_id r0) = false ->
  mentioned_bots (message_text r0) bots = [] ->
  is_general_request (message_text r0) = true ->
  bots <> [] ->
  exists b r,
    process_message_interest_after_delay ((b0, r0) :: rest) bots recent rnd
    = {| responders := [b]; reason := Some r; cleared := false |}
    /\ in_bots b bots = true
    /\ (r = "general_request" \/ r = "general_request_fallback").
Proof.
  intros Hs Hp Ht Hr Hm Hg Hne.
  unfold process_message_interest_after_delay. rewrite Hs.
  assert (Hf : List.filter (fun kv : string * Report => is_personal_question (snd kv))
                 ((b0, r0) :: rest) = []).
  { generalize ((b0, r0) :: rest), Hp. clear. intros l.
    induction l as [|[k r] l IH]; intros H; [reflexivity|].
    cbn [List.filter snd]. rewrite (H k r) by now left.
    apply IH. intros k' r' Hin. apply (H k' r'). now right. }
  rewrite Hf. cbn [is_nil negb].
  rewrite routing_chain_unfold, Ht, Hr. cbn [andb].
  unfold name_mention_routing. rewrite Hm.
  assert (Hg' : exists b r,
             general_request_routing (message_text r0) bots rnd = ([b], Some r)
             /\ in_bots b bots = true
             /\ (r = "general_request" \/ r = "general_request_fallback")).
  { unfold general_request_routing. rewrite Hg. cbv zeta.
    destruct (Qltb (random_random rnd) (7 # 10) && in_bots "bot2" bots) eqn:E2.
    { exists "bot2", "general_request". apply andb_true_iff in E2. tauto. }
    destruct (Qltb (random_random rnd) (85 # 100) && in_bots "bot1" bots) eqn:E1.
    { exists "bot1", "general_request". apply andb_true_iff in E1. tauto. }
    destruct (in_bots "bot3" bots) eqn:E3.
    { exists "bot3", "general_request". tauto. }
    destruct (keys bots) as [|b l] eqn:Ek.
    { destruct bots; [contradiction | discriminate]. }
    exists (nth (random_choice rnd mod length (b :: l)) (b :: l) b),
      "general_request_fallback".
    repeat split; [|now right]. apply in_bots_keys. rewrite Ek.
    apply nth_In. apply Nat.mod_upper_bound. discriminate. }
  destruct Hg' as (b & r & Hgr & Hb & Hrr). exists b, r. repeat split; auto.
  unfold after_chain. cbn [is_nil]. rewrite Hgr. cbn [fst snd is_nil].
  unfold trigger. cbn [List.filter]. now rewrite Hb.
Qed.

Lemma general_request_one_responder_witness :
  exists b r,
    process_message_interest_after_delay
      [("bot3", Sample.report "bot3" false false "can someone explain how staking works" None)]
      all_bots Sample.no_history Sample.rnd
    = {| responders := [b]; reason := Some r; cleared := false |}
    /\ in_bots b all_bots = true
    /\ (r = "general_request" \/ r = "general_request_fallback").
Proof.
  apply (general_request_one_responder "bot3"
           (Sample.report "bot3" false false "can someone explain how staking works" None)
           [] all_bots Sample.no_history Sample.rnd).
  - vm_compute. reflexivity.
  - intros k r [H|[]]. inversion H. reflexivity.
  - vm_compute. reflexivity.
  - reflexivity.
  - vm_compute. reflexivity.
  - vm_compute. reflexivity.
  - discriminate.
Defined.

End RoutingStages.

(** ** More on the consumer and its timers *)

Section PendingTable.
Import Coordinator Aggregator.





Lemma dict_set_overwrite {V : Type} (k : string) (v1 v2 : V) (d : list (string * V)) :
  dict_set k v2 (dict_set k v1 d) = dict_set k v2 d.
Proof.
  induction d as [|[a x] d IH]; cbn [dict_set].
  - now rewrite String.eqb_refl.
  - destruct (String.eqb a k) eqn:E; cbn [dict_set].
    + now rewrite String.eqb_refl.
    + now rewrite E, IH.
Qed.











(** X8. A bot that reports again on the same message replaces its
    earlier report: the table, the timers and the position of the report
    in the entry are as if only the later report had been made. *)
Theorem resubmitted_report_supersedes (r1 r2 : Report) (st : State) :
  bot_id r1 = bot_id r2 -> message_id r1 = message_id r2 ->
  evan_protection r2 = false ->
  coordinate_user_responses r2 (coordinate_user_responses r1 st)
  = coordinate_user_responses r2 st.
Proof.
  intros Hb Hm Hp. unfold coordinate_user_responses at 2.
  destruct (evan_protection r1); [reflexivity|].
  unfold coordinate_user_responses. rewrite Hp, Hb, Hm.
  destruct (timer_handle (default fresh_bucket
                            (pending_interest_reports st !! message_id r2)));
    cbn [pending_interest_reports armed runs];
    rewrite lookup_insert_eq; cbn [default from_option id timer_handle reports];
    now rewrite insert_insert_eq, dict_set_overwrite.
Qed.

Lemma resubmitted_report_supersedes_witness :
  coordinate_user_responses (Sample.report "bot1" false false "hey max any update" None)
    (coordinate_user_responses (Sample.report "bot1" true false "hey max any update" None)
       initial)
  = coordinate_user_responses (Sample.report "bot1" false false "hey max any update" None)
      initial.
Proof.
  apply (resubmitted_report_supersedes
           (Sample.report "bot1" true false "hey max any update" None)
           (Sample.report "bot1" false false "hey max any update" None) initial);
    vm_compute; reflexivity.
Defined.

End PendingTable.

(** ** Joining a bot's answer *)

Section ChainSelection.
Import Coordinator Chain.

Lemma joiners_spec ids initiator_id chain interesting base random drawn b :
  In b (joiners ids initiator_id chain interesting base random drawn) ->
  In b ids /\ b <> initiator_id /\ ~ In b (last_two chain).
Proof.
  revert drawn. induction ids as [|x ids IH]; intros drawn; cbn [joiners]; [intros []|].
  destruct (negb (String.eqb x initiator_id) && negb (Text.mem x (last_two chain))) eqn:E.
  - intros H. apply in_app_iff in H as [H|H].
    + assert (b = x) as ->.
      { destruct (if interesting x then _ else _); [|destruct H].
        destruct H as [H|[]]. now symmetry. }
      apply andb_true_iff in E as [E1 E2].
      apply negb_true_iff in E1, E2. split; [now left|]. split.
      * intros ->. now rewrite String.eqb_refl in E1.
      * intros Hin. apply mem_In in Hin. congruence.
    + destruct (IH _ H) as (H1 & H2 & H3). split; [now right | now split].
  - intros H. destruct (IH _ H) as (H1 & H2 & H3). split; [now right | now split].
Qed.

Lemma joiners_nodup ids initiator_id chain interesting base random drawn :
  List.NoDup ids ->
  List.NoDup (joiners ids initiator_id chain interesting base random drawn).
Proof.
  revert drawn. induction ids as [|x ids IH]; intros drawn Hnd; cbn [joiners];
    [constructor|].
  inversion Hnd as [|? ? Hx Hids]; subst.
  destruct (negb (String.eqb x initiator_id) && negb (Text.mem x (last_two chain)));
    [|now apply IH].
  destruct (if interesting x then _ else _); cbn [app]; [|now apply IH].
  constructor; [|now apply IH].
  intros Hin. apply joiners_spec in Hin. now apply Hx.
Qed.

Lemma sample_go_length pool n rb i k :
  (length (sample_go pool n rb i k) <= k)%nat.
Proof.
  revert pool i. induction k as [|k IH]; intros pool i; cbn [sample_go]; [simpl; lia|].
  destruct (pool !! _); [|simpl; lia].
  destruct (pool !! _); [|simpl; lia].
  cbn [length]. specialize (IH (<[(rb i mod (n - i))%nat := s0]> pool) (S i)). lia.
Qed.

Lemma perm_vacancy (t1 t2 : list string) (x y : string) :
  (t1 ++ x :: t2) ++ [y] ≡ₚ x :: (t1 ++ y :: t2).
Proof.
  etransitivity; [apply Permutation_app_comm|]. cbn [app].
  rewrite <- !Permutation_middle. apply perm_swap.
Qed.

(** The picks are distinct members of the part of the pool that is
    still in play. *)
Lemma sample_go_picks (n : nat) (rb : nat -> nat) (k : nat) :
  forall (pool : list string) (i : nat),
    length pool = n -> (i + k <= n)%nat -> NoDup (take (n - i) pool) ->
    NoDup (sample_go pool n rb i k)
    /\ length (sample_go pool n rb i k) = k
    /\ forall x, x ∈ sample_go pool n rb i k -> x ∈ take (n - i) pool.
Proof.
  induction k as [|k IH]; intros pool i Hlen Hik Hnd; cbn [sample_go].
  { split; [constructor|]. split; [reflexivity|]. intros x Hx. inversion Hx. }
  set (m := (n - i)%nat) in *.
  assert (Hm : (0 < m)%nat) by (unfold m; lia).
  set (j := (rb i mod m)%nat).
  assert (Hj : (j < m)%nat) by (apply Nat.mod_upper_bound; lia).
  assert (Hmn : (m <= length pool)%nat) by (unfold m; lia).
  destruct (lookup_lt_is_Some_2 pool j ltac:(lia)) as [x Hx].
  destruct (lookup_lt_is_Some_2 pool (m - 1)%nat ltac:(lia)) as [y Hy].
  replace (n - i - 1)%nat with (m - 1)%nat by (unfold m; lia).
  rewrite Hx, Hy.
  assert (Htake : take m pool = take (m - 1) pool ++ [y]).
  { replace m with (S (m - 1)) at 1 by lia. now apply take_S_r. }
  assert (Hstep : NoDup (x :: take (m - 1) (<[j := y]> pool))
                  /\ forall z, z ∈ take (m - 1) (<[j := y]> pool) -> z ∈ take m pool).
  { destruct (decide (j = (m - 1)%nat)) as [Ej|Ej].
    - rewrite take_insert_ge by lia.
      assert (x = y) as -> by (rewrite Ej in Hx; congruence).
      rewrite Htake in Hnd. split.
      + apply NoDup_cons. apply NoDup_app in Hnd as (N1 & N2 & N3). split; [|exact N1].
        intros Hin. apply (N2 y Hin). now left.
      + intros z Hz. rewrite Htake. apply elem_of_app. now left.
    - assert (Hjt : take (m - 1) pool !! j = Some x)
        by (rewrite lookup_take_lt by lia; exact Hx).
      assert (Hlt : (j < length (take (m - 1) pool))%nat)
        by (rewrite length_take; lia).
      rewrite take_insert_lt by lia.
      rewrite (insert_take_drop _ _ _ Hlt).
      pose proof (take_drop_middle _ _ _ Hjt) as Hmid.
      set (t1 := take j (take (m - 1) pool)) in *.
      set (t2 := drop (S j) (take (m - 1) pool)) in *.
      assert (Hperm : take m pool ≡ₚ x :: (t1 ++ y :: t2)).
      { rewrite Htake, <- Hmid. apply perm_vacancy. }
      split.
      + now rewrite <- Hperm.
      + intros z Hz. rewrite Hperm. now right. }
  destruct Hstep as [Hnd' Hsub].
  apply NoDup_cons in Hnd' as [Hx' Hnd'].
  destruct (IH (<[j := y]> pool) (S i)) as (I1 & I2 & I3).
  - now rewrite length_insert.
  - lia.
  - replace (n - S i)%nat with (m - 1)%nat by (unfold m; lia). exact Hnd'.
  - replace (n - S i)%nat with (m - 1)%nat in I3 by (unfold m; lia).
    split; [|split].
    + apply NoDup_cons. split; [|exact I1]. intros Hin. now apply Hx', I3.
    + cbn [length]. now rewrite I2.
    + intros z Hz. apply elem_of_cons in Hz as [->|Hz].
      * apply (list_elem_of_lookup_2 _ j). rewrite lookup_take_lt by lia. exact Hx.
      * now apply Hsub, I3.
Qed.

Lemma sample_spec (population : list string) (k : nat) (rb : nat -> nat) :
  (k <= length population)%nat -> List.NoDup population ->
  List.NoDup (sample population k rb)
  /\ length (sample population k rb) = k
  /\ forall x, In x (sample population k rb) -> In x population.
Proof.
  intros Hk Hnd. unfold sample.
  destruct (sample_go_picks (length population) rb k population 0%nat eq_refl
              ltac:(lia)) as (S1 & S2 & S3).
  - rewrite Nat.sub_0_r, firstn_all. now apply NoDup_ListNoDup.
  - split; [now apply NoDup_ListNoDup|]. split; [exact S2|].
    intros x Hx. apply list_elem_of_In in Hx. apply S3 in Hx.
    rewrite Nat.sub_0_r, firstn_all in Hx. now apply list_elem_of_In.
Qed.

Lemma In_insert (l : list string) (j : nat) (y x : string) :
  In x (<[j := y]> l) -> x = y \/ In x l.
Proof.
  revert j. induction l as [|a l IH]; intros [|j]; cbn; try tauto.
  - intros [H|H]; [left; now symmetry | right; now right].
  - intros [H|H]; [right; now left|]. destruct (IH j H); [now left | right; now right].
Qed.

Lemma sample_go_in (P : string -> Prop) n rb k :
  forall pool i, (forall x, In x pool -> P x) ->
                 forall x, In x (sample_go pool n rb i k) -> P x.
Proof.
  induction k as [|k IH]; intros pool i Hp x; cbn [sample_go]; [intros []|].
  destruct (pool !! (rb i mod (n - i))%nat) as [a|] eqn:Ea; [|intros []].
  destruct (pool !! (n - i - 1)%nat) as [y|] eqn:Ey; [|intros []].
  intros [<-|Hin].
  - apply Hp, list_elem_of_In. eapply list_elem_of_lookup_2, Ea.
  - apply (IH (<[(rb i mod (n - i))%nat := y]> pool) (S i)); [|exact Hin].
    intros z Hz. apply In_insert in Hz as [->|Hz]; [|now apply Hp].
    apply Hp, list_elem_of_In. eapply list_elem_of_lookup_2, Ey.
Qed.

End ChainSelection.

Section ChainExtras.
Import Coordinator Chain.

Lemma responding_bots_joiners n bots interesting rnd b :
  In b (responding_bots n bots interesting rnd) ->
  In b (joiners (keys bots) (initiator_bot_id n) (chain_of n) interesting
          (base_response_chance (length (chain_of n))) (random rnd) 0).
Proof.
  unfold responding_bots. cbv zeta.
  set (responding := joiners _ _ _ _ _ _ _).
  destruct (Z.ltb _ _); [|tauto].
  destruct (negb (is_nil _) && _).
  - intros H. now apply filter_In in H.
  - unfold sample. apply (sample_go_in (fun x => In x responding)). tauto.
Qed.

Lemma max_responding_bots_bounds (len : nat) :
  1 <= max_responding_bots len <= 3
  /\ ((4 <= len)%nat -> max_responding_bots len = 1).
Proof.
  unfold max_responding_bots.
  assert (H0 : 0 <= Z.of_nat len / 2) by (apply Z.div_pos; lia).
  split; [lia|]. intros H4.
  assert (H2 : 2 <= Z.of_nat len / 2) by (apply Z.div_le_lower_bound; lia).
  lia.
Qed.

Lemma last_two_lookup (l : list string) (i : nat) (x : string) :
  l !! i = Some x -> (length l <= i + 2)%nat -> In x (last_two l).
Proof.
  intros Hx Hi. unfold last_two. apply list_elem_of_In.
  apply (list_elem_of_lookup_2 _ (i - (length l - 2))%nat).
  rewrite lookup_drop. rewrite <- Hx. f_equal.
  apply lookup_lt_Some in Hx. lia.
Qed.

Lemma process_outs n bots interesting rnd deliver outs m n' :
  process_bot_notifications n bots interesting rnd deliver = Some outs ->
  In (m, n') outs ->
  in_bots (initiator_bot_id n) bots = true
  /\ exists bot_id response sent_msg_id,
      In bot_id (responding_bots n bots interesting rnd)
      /\ deliver bot_id = Some (response, sent_msg_id)
      /\ sent_msg_id <> -1
      /\ m = response_data n bot_id sent_msg_id
      /\ n' = new_notification n bot_id response sent_msg_id.
Proof.
  unfold process_bot_notifications. cbv zeta.
  destruct (is_nil _).
  { intros H. inversion H; subst. intros []. }
  destruct (in_bots (initiator_bot_id n) bots); [|discriminate].
  intros H. inversion H; subst; clear H. intros Hin. split; [reflexivity|].
  apply in_flat_map in Hin as (bot_id & Hb & Hin).
  destruct (deliver bot_id) as [[response sent]|] eqn:Ed; [|destruct Hin].
  destruct (Z.eqb sent (-1)) eqn:Es; [destruct Hin|].
  destruct Hin as [Hin|[]]. inversion Hin; subst.
  exists bot_id, response, sent. apply Z.eqb_neq in Es. repeat split; auto.
Qed.

Lemma spaced_snoc (l : list string) (b : string) :
  spaced l -> ~ In b (last_two l) -> spaced (l ++ [b]).
Proof.
  intros Hs Hb i j x Hij Hj Hi Hjx.
  destruct (decide (j < length l)%nat) as [Hlt|Hge].
  - rewrite lookup_app_l in Hi by lia. rewrite lookup_app_l in Hjx by lia.
    exact (Hs i j x Hij Hj Hi Hjx).
  - destruct (decide (j = length l)) as [->|Hne].
    + rewrite lookup_app_l in Hi by lia.
      rewrite lookup_app_r in Hjx by lia.
      rewrite Nat.sub_diag in Hjx. cbn in Hjx. inversion Hjx; subst.
      apply Hb. apply (last_two_lookup l i x Hi). lia.
    + apply lookup_lt_Some in Hjx. rewrite length_app in Hjx. cbn in Hjx. lia.
Qed.

(** What holds of every notification of a conversation. *)
Lemma thread_inv (bots : Bots) (n : Notification) :
  thread bots n ->
  spaced (chain_of n)
  /\ last (chain_of n) = Some (initiator_bot_id n)
  /\ (in_reply_to_bot n = true ->
      forall x, In x (chain_of n) -> in_bots x bots = true).
Proof.
  induction 1 as [n Hu | n n' m interesting rnd deliver outs Ht IH Hp Hin].
  - unfold chain_of. rewrite Hu. split; [|split; [reflexivity | discriminate]].
    intros i j x Hij Hj Hi Hjx. apply lookup_lt_Some in Hjx. cbn in Hjx.
    apply lookup_lt_Some in Hi. cbn in Hi. lia.
  - destruct IH as (I1 & I2 & I3).
    destruct (process_outs _ _ _ _ _ _ _ _ Hp Hin)
      as (Hreg & b & response & sent & Hb & _ & _ & _ & ->).
    apply responding_bots_joiners, joiners_spec in Hb as (Hk & Hne & Hl).
    unfold chain_of at 1 2 3. cbn [new_notification in_reply_to_bot conversation_chain
                                  initiator_bot_id].
    split; [now apply spaced_snoc|]. split; [apply last_snoc|].
    intros _ x Hx. apply in_app_iff in Hx as [Hx|[<-|[]]]; [|now apply in_bots_keys].
    destruct (in_reply_to_bot n) eqn:Er; [now apply I3|].
    unfold chain_of in Hx. rewrite Er in Hx. destruct Hx as [<-|[]]. exact Hreg.
Qed.

(** X9. A bot chosen to join is registered, is not the bot whose answer
    is being joined, and is not one of the last two bots of the chain. *)
Theorem chain_responders_eligible (n : Notification) (bots : Bots)
    (interesting : string -> bool) (rnd : Source) (b : string) :
  In b (responding_bots n bots interesting rnd) ->
  in_bots b bots = true
  /\ b <> initiator_bot_id n
  /\ ~ In b (last_two (chain_of n)).
Proof.
  intros H. apply responding_bots_joiners, joiners_spec in H as (H1 & H2 & H3).
  split; [now apply in_bots_keys | now split].
Qed.

Lemma chain_responders_eligible_witness :
  let n := {| initiator_bot_id := "bot1"; user_message := "gm"; bot_response := "gm!";
              bot_message_id := Some 11; in_reply_to_bot := false;
              conversation_chain := [] |} in
  let rnd := {| random := fun _ => 0%Q; randbelow := fun _ => 0%nat |} in
  In "bot3" (responding_bots n all_bots (fun _ => false) rnd)
  /\ in_bots "bot3" all_bots = true
  /\ "bot3" <> initiator_bot_id n
  /\ ~ In "bot3" (last_two (chain_of n)).
Proof.
  cbv zeta.
  assert (H : In "bot3"
                (responding_bots
                   {| initiator_bot_id := "bot1"; user_message := "gm";
                      bot_response := "gm!"; bot_message_id := Some 11;
                      in_reply_to_bot := false; conversation_chain := [] |}
                   all_bots (fun _ => false)
                   {| random := fun _ => 0%Q; randbelow := fun _ => 0%nat |}))
    by (vm_compute; right; left; reflexivity).
  split; [exact H|].
  exact (chain_responders_eligible _ _ _ _ _ H).
Defined.

(** X10. The number of bots that join one answer is at most
    [max(1, 3 - chain_length // 2)]: never more than three, and one at
    most from a chain of four on. *)
Theorem chain_responders_bounded (n : Notification) (bots : Bots)
    (interesting : string -> bool) (rnd : Source) :
  let k := length (responding_bots n bots interesting rnd) in
  Z.of_nat k <= max_responding_bots (length (chain_of n))
  /\ (k <= 3)%nat
  /\ ((4 <= length (chain_of n))%nat -> (k <= 1)%nat).
Proof.
  cbv zeta.
  destruct (max_responding_bots_bounds (length (chain_of n))) as [Hb H4].
  assert (H : Z.of_nat (length (responding_bots n bots interesting rnd))
              <= max_responding_bots (length (chain_of n))).
  { unfold responding_bots. cbv zeta.
    set (responding := joiners _ _ _ _ _ _ _).
    destruct (Z.ltb _ _) eqn:El; [|apply Z.ltb_ge in El; exact El].
    destruct (negb (is_nil _) && _) eqn:En.
    - apply andb_true_iff in En as [_ En]. now apply Z.leb_le in En.
    - unfold sample.
      pose proof (sample_go_length responding (length responding) (randbelow rnd) 0
                    (Z.to_nat (max_responding_bots (length (chain_of n))))).
      lia. }
  split; [exact H|]. split; [lia|]. intros Hlen. rewrite (H4 Hlen) in H. lia.
Qed.

(** X11. No bot is chosen twice for one answer. *)
Theorem chain_responders_distinct (n : Notification) (bots : Bots)
    (interesting : string -> bool) (rnd : Source) :
  List.NoDup (keys bots) ->
  List.NoDup (responding_bots n bots interesting rnd).
Proof.
  intros Hnd. unfold responding_bots. cbv zeta.
  pose proof (joiners_nodup (keys bots) (initiator_bot_id n) (chain_of n) interesting
                (base_response_chance (length (chain_of n))) (random rnd) 0 Hnd) as Hj.
  set (responding := joiners _ _ _ _ _ _ _) in *.
  destruct (Z.ltb _ _) eqn:El; [|exact Hj].
  destruct (negb (is_nil _) && _); [now apply List.NoDup_filter|].
  apply Z.ltb_lt in El. apply sample_spec; [lia | exact Hj].
Qed.

Lemma chain_responders_distinct_witness :
  List.NoDup
    (responding_bots
       {| initiator_bot_id := "bot1"; user_message := "gm"; bot_response := "gm!";
          bot_message_id := Some 11; in_reply_to_bot := true;
          conversation_chain := ["bot2"; "bot3"; "bot2"; "bot1"] |}
       [("bot1", "BTC Max"); ("bot2", "$EVAN the hobo"); ("bot3", "Goldilocks");
        ("bot4", "Dana"); ("bot5", "Eli")]
       (fun _ => true)
       {| random := fun _ => 0%Q; randbelow := fun _ => 1%nat |}).
Proof.
  apply chain_responders_distinct.
  repeat (constructor; [cbn; intuition discriminate|]). constructor.
Defined.

(** X12. Every answer that was sent is recorded as a bot message that
    replies to the answer it joins, and queues a bot-to-bot notification
    whose chain is the chain worked on with the joining bot appended;
    the original user message is passed on unchanged. *)
Theorem follow_up_extends_chain (n : Notification) (bots : Bots)
    (interesting : string -> bool) (rnd : Source)
    (deliver : string -> option (string * Z))
    (outs : list (Msg * Notification)) (m : Msg) (n' : Notification) :
  process_bot_notifications n bots interesting rnd deliver = Some outs ->
  In (m, n') outs ->
  In (initiator_bot_id n') (responding_bots n bots interesting rnd)
  /\ in_reply_to_bot n' = true
  /\ chain_of n' = chain_of n ++ [initiator_bot_id n']
  /\ user_message n' = user_message n
  /\ bot_message_id n' <> Some (-1)
  /\ msg_message_id m = bot_message_id n'
  /\ msg_sender_type m = Some "bot"
  /\ msg_sender_id m = Some (initiator_bot_id n')
  /\ msg_in_reply_to m = bot_message_id n.
Proof.
  intros Hp Hin.
  destruct (process_outs _ _ _ _ _ _ _ _ Hp Hin)
    as (_ & b & response & sent & Hb & _ & Hs & -> & ->).
  cbn. repeat split; auto. intros H. inversion H. contradiction.
Qed.

Lemma follow_up_extends_chain_witness :
  let n := {| initiator_bot_id := "bot1"; user_message := "gm"; bot_response := "gm!";
              bot_message_id := Some 11; in_reply_to_bot := false;
              conversation_chain := [] |} in
  let rnd := {| random := fun _ => 0%Q; randbelow := fun _ => 0%nat |} in
  let m := response_data n "bot2" 12 in
  let n' := new_notification n "bot2" "hello" 12 in
  In (initiator_bot_id n') (responding_bots n all_bots (fun _ => false) rnd)
  /\ in_reply_to_bot n' = true
  /\ chain_of n' = chain_of n ++ [initiator_bot_id n']
  /\ user_message n' = user_message n
  /\ bot_message_id n' <> Some (-1)
  /\ msg_message_id m = bot_message_id n'
  /\ msg_sender_type m = Some "bot"
  /\ msg_sender_id m = Some (initiator_bot_id n')
  /\ msg_in_reply_to m = bot_message_id n.
Proof.
  cbv zeta.
  eapply (follow_up_extends_chain _ all_bots (fun _ => false) _
            (fun _ => Some ("hello", 12))).
  - vm_compute. reflexivity.
  - left. reflexivity.
Defined.

(** X13. In a conversation that starts with an answer to a user, no bot
    of the chain is one of the two bots before it, and the chain ends
    with the bot whose answer the notification reports. *)
Theorem thread_chain_spaced (bots : Bots) (n : Notification) :
  thread bots n ->
  spaced (chain_of n) /\ last (chain_of n) = Some (initiator_bot_id n).
Proof.
  intros H. destruct (thread_inv bots n H) as (H1 & H2 & _). now split.
Qed.

Lemma thread_chain_spaced_witness :
  let n := {| initiator_bot_id := "bot1"; user_message := "gm"; bot_response := "gm!";
              bot_message_id := Some 11; in_reply_to_bot := false;
              conversation_chain := [] |} in
  let n' := new_notification n "bot2" "hello" 12 in
  spaced (chain_of n') /\ last (chain_of n') = Some (initiator_bot_id n').
Proof.
  cbv zeta. apply (thread_chain_spaced all_bots).
  eapply (thread_next all_bots
            {| initiator_bot_id := "bot1"; user_message := "gm"; bot_response := "gm!";
               bot_message_id := Some 11; in_reply_to_bot := false;
               conversation_chain := [] |}
            _ _ (fun _ => false)
            {| random := fun _ => 0%Q; randbelow := fun _ => 0%nat |}
            (fun _ => Some ("hello", 12))).
  - apply thread_start. reflexivity.
  - vm_compute. reflexivity.
  - left. reflexivity.
Defined.

(** X14. With two registered bots a conversation ends after the first
    bot-to-bot answer: no chain grows beyond two bots. *)
Theorem two_bots_chain_ends (bots : Bots) (a b : string) (n : Notification) :
  keys bots = [a; b] -> thread bots n -> (length (chain_of n) <= 2)%nat.
Proof.
  intros Hk Ht.
  destruct Ht as [n Hu | n n' m interesting rnd deliver outs Ht Hp Hin].
  { unfold chain_of. rewrite Hu. simpl. lia. }
  destruct (thread_inv bots n Ht) as (I1 & I2 & I3).
  destruct (process_outs _ _ _ _ _ _ _ _ Hp Hin)
    as (Hreg & c & response & sent & Hc & _ & _ & _ & ->).
  apply responding_bots_joiners, joiners_spec in Hc as (Hck & Hne & Hl).
  unfold chain_of at 1.
  cbn [new_notification in_reply_to_bot conversation_chain].
  rewrite length_app. cbn [length].
  destruct (le_lt_dec (length (chain_of n)) 1) as [Hle|Hgt]; [lia|]. exfalso.
  assert (Hr : in_reply_to_bot n = true).
  { destruct (in_reply_to_bot n) eqn:Er; [reflexivity|].
    unfold chain_of in Hgt. rewrite Er in Hgt. simpl in Hgt. lia. }
  specialize (I3 Hr).
  set (len := length (chain_of n)) in *.
  destruct (lookup_lt_is_Some_2 (chain_of n) (len - 2)%nat ltac:(lia)) as [x Hx].
  destruct (lookup_lt_is_Some_2 (chain_of n) (len - 1)%nat ltac:(lia)) as [y Hy].
  assert (Hxy : x <> y).
  { intros ->. apply (I1 (len - 2)%nat (len - 1)%nat y); [lia | lia | exact Hx | exact Hy]. }
  assert (Hxl : In x (last_two (chain_of n)))
    by (apply (last_two_lookup _ (len - 2)%nat); [exact Hx | fold len; lia]).
  assert (Hyl : In y (last_two (chain_of n)))
    by (apply (last_two_lookup _ (len - 1)%nat); [exact Hy | fold len; lia]).
  assert (Hxk : In x (keys bots)).
  { apply in_bots_keys, I3, list_elem_of_In. eapply list_elem_of_lookup_2, Hx. }
  assert (Hyk : In y (keys bots)).
  { apply in_bots_keys, I3, list_elem_of_In. eapply list_elem_of_lookup_2, Hy. }
  rewrite Hk in Hck, Hxk, Hyk. cbn in Hck, Hxk, Hyk.
  assert (c <> x) by (intros ->; contradiction).
  assert (c <> y) by (intros ->; contradiction).
  intuition congruence.
Qed.

Lemma two_bots_chain_ends_witness :
  let n := {| initiator_bot_id := "bot1"; user_message := "gm"; bot_response := "gm!";
              bot_message_id := Some 11; in_reply_to_bot := false;
              conversation_chain := [] |} in
  (length (chain_of (new_notification n "bot2" "hello" 12)) <= 2)%nat.
Proof.
  cbv zeta.
  apply (two_bots_chain_ends [("bot1", "BTC Max"); ("bot2", "$EVAN the hobo")]
           "bot1" "bot2"); [reflexivity|].
  eapply (thread_next _
            {| initiator_bot_id := "bot1"; user_message := "gm"; bot_response := "gm!";
               bot_message_id := Some 11; in_reply_to_bot := false;
               conversation_chain := [] |}
            _ _ (fun _ => false)
            {| random := fun _ => 0%Q; randbelow := fun _ => 0%nat |}
            (fun _ => Some ("hello", 12))).
  - apply thread_start. reflexivity.
  - vm_compute. reflexivity.
  - left. reflexivity.
Defined.

End ChainExtras.

(** ** More on the store: what is read after a write, and recovery *)

Section StoreRoundTrip.
Import Json Fs Store.



(** A call of [save_data] with a successful attempt ends with the new
    document in the primary file and in the cache, stamped with the time
    of the call. *)
Lemma save_data_committed (st : Store) (data : dict) (now : Q) (stamp : string)
    (copy_fails : bool) (faults : nat -> Fault) :
  Text.contains "/" stamp = false ->
  (exists a, (a < max_retries)%nat /\ faults a = NoFault) ->
  exists fs',
    save_data st data now stamp copy_fails faults
    = with_cache (with_fs st fs') (JObj data) now
    /\ fs' !! file_path st = Some {| Fs.data := Dumped (JObj data); mtime := now |}.
Proof.
  intros Hs (a & Ha & Hna). unfold save_data, save_trace.
  pose proof (save_attempts_spec (file_path st) (fs st !! file_path st)
                (seq 0 max_retries) data now stamp copy_fails faults (fs st)
                Hs eq_refl) as H.
  cbv zeta in H.
  destruct (save_attempts (seq 0 max_retries) (file_path st) data now stamp
              copy_fails faults (fs st)) as [t [|]].
  - destruct H as [(pre & written & final & -> & _ & _ & _ & Hf & _) _].
    eexists. split; [reflexivity|]. unfold last_fs.
    change (pre ++ [written; final]) with (pre ++ [written] ++ [final]).
    now rewrite app_assoc, last_last.
  - destruct H as [_ Hall]. exfalso. apply (Hall a); [|exact Hna].
    apply in_seq. lia.
Qed.

(** X15. For five seconds after a successful [save_data], [load_data]
    answers with the saved document from the cache and touches nothing,
    whatever has happened to the files in the meantime. *)
Theorem saved_document_served_from_cache (json_loads : string -> option json)
    (st : Store) (data : dict) (now : Q) (stamp : string) (copy_fails : bool)
    (faults : nat -> Fault) (others : gmap string file) (now' : Q) (stamp' : string) :
  Text.contains "/" stamp = false ->
  (exists a, (a < max_retries)%nat /\ faults a = NoFault) ->
  (now' - now < 5)%Q ->
  let st' := with_fs (save_data st data now stamp copy_fails faults) others in
  load_data json_loads st' now' stamp' = (Ok (JObj data), st').
Proof.
  intros Hs Hok Hlt st'. subst st'.
  destruct (save_data_committed st data now stamp copy_fails faults Hs Hok)
    as (fs' & -> & _).
  unfold load_data. cbn [with_fs with_cache _cached_data _cache_timestamp].
  assert (H : Coordinator.Qltb (now' - now) _cache_valid_seconds = true)
    by (apply Qltb_lt; exact Hlt).
  now rewrite H.
Qed.

Lemma saved_document_served_from_cache_witness :
  let st' := with_fs (save_data Sample.fresh_store Sample.version1 1 "20250101120001"
                        false no_faults) ∅ in
  load_data Sample.rejects st' 3 "20250101120003" = (Ok (JObj Sample.version1), st').
Proof.
  apply (saved_document_served_from_cache Sample.rejects Sample.fresh_store
           Sample.version1 1 "20250101120001" false no_faults ∅ 3 "20250101120003").
  - vm_compute. reflexivity.
  - exists 0%nat. split; [unfold max_retries; lia | reflexivity].
  - reflexivity.
Defined.

(** X16. Once the five seconds are over, [load_data] reads the saved
    document back from the primary file: every field that was saved has
    its saved value, each of the five required fields that was missing
    is an empty container, and no file is written. *)
Theorem saved_document_read_back (json_loads : string -> option json)
    (st : Store) (data : dict) (now : Q) (stamp : string) (copy_fails : bool)
    (faults : nat -> Fault) (now' : Q) (stamp' : string) :
  Text.contains "/" stamp = false ->
  (exists a, (a < max_retries)%nat /\ faults a = NoFault) ->
  (5 <= now' - now)%Q ->
  let st' := save_data st data now stamp copy_fails faults in
  exists d,
    fst (load_data json_loads st' now' stamp') = Ok (JObj d)
    /\ (forall k, get k d = if has_key k data then get k data else empty_container k)
    /\ fs (snd (load_data json_loads st' now' stamp')) = fs st'
    /\ _cached_data (snd (load_data json_loads st' now' stamp')) = Some (JObj d).
Proof.
  intros Hs Hok Hge st'. subst st'.
  destruct (save_data_committed st data now stamp copy_fails faults Hs Hok)
    as (fs' & -> & Hf).
  unfold load_data. cbn [with_fs with_cache _cached_data _cache_timestamp].
  assert (H : Coordinator.Qltb (now' - now) _cache_valid_seconds = false).
  { apply not_true_iff_false. intros H. apply Qltb_lt in H.
    apply (Qlt_not_le _ _ H). exact Hge. }
  rewrite H. unfold max_retries. cbn [seq load_attempts].
  unfold read_json. cbn [fs file_path with_cache with_fs]. rewrite Hf. cbn [Fs.data].
  unfold finish_load.
  destruct (ensure_required_fields_backfills data) as (d & -> & Hd).
  exists d. cbn [fst snd copy fs with_cache _cached_data]. auto.
Qed.

Lemma saved_document_read_back_witness :
  let st' := save_data Sample.fresh_store [("user_data", JObj [])] 1 "20250101120001"
               false no_faults in
  exists d,
    fst (load_data Sample.rejects st' 8 "20250101120008") = Ok (JObj d)
    /\ (forall k, get k d = if has_key k [("user_data", JObj [])]
                            then get k [("user_data", JObj [])] else empty_container k)
    /\ fs (snd (load_data Sample.rejects st' 8 "20250101120008")) = fs st'
    /\ _cached_data (snd (load_data Sample.rejects st' 8 "20250101120008"))
       = Some (JObj d).
Proof.
  apply (saved_document_read_back Sample.rejects Sample.fresh_store
           [("user_data", JObj [])] 1 "20250101120001" false no_faults
           8 "20250101120008").
  - vm_compute. reflexivity.
  - exists 0%nat. split; [unfold max_retries; lia | reflexivity].
  - vm_compute. discriminate.
Defined.



End StoreRoundTrip.

(** ** Construction of the store *)

Section Construction.
Import Json Fs Store.

Lemma same_keys_refl (a : json) : same_keys a a = true.
Proof. destruct a; try reflexivity. cbn. apply Nat.eqb_refl. Qed.

Lemma ensure_field_present (k : string) (v : json) (d : dict) :
  has_key k d = true -> ensure_field k v (JObj d) = Ok (JObj d).
Proof. intros H. unfold ensure_field. now rewrite H. Qed.

Lemma verify_structure_complete (d : dict) :
  complete d = true -> verify_structure (JObj d) = Ok (JObj d).
Proof.
  unfold complete, required_fields. cbn [forallb]. intros H.
  repeat (apply andb_true_iff in H as [? H]).
  unfold verify_structure.
  repeat (rewrite ensure_field_present by assumption; cbn [bind]).
  reflexivity.
Qed.

Lemma verify_structure_dict (d : dict) :
  exists d', verify_structure (JObj d) = Ok (JObj d') /\ complete d' = true.
Proof.
  unfold verify_structure.
  destruct (ensure_field_dict "conversations" (JArr []) d) as (d1 & -> & K1 & P1).
  cbn [bind].
  destruct (ensure_field_dict "user_data" (JObj []) d1) as (d2 & -> & K2 & P2).
  cbn [bind].
  destruct (ensure_field_dict "web_content" (JArr []) d2) as (d3 & -> & K3 & P3).
  cbn [bind].
  destruct (ensure_field_dict "recent_bot_topics" (JArr []) d3) as (d4 & -> & K4 & P4).
  cbn [bind].
  destruct (ensure_field_dict "recent_topics" (JObj []) d4) as (d5 & -> & K5 & P5).
  exists d5. split; [reflexivity|].
  unfold complete, required_fields. cbn [forallb].
  rewrite (P5 _ (P4 _ (P3 _ (P2 _ K1)))), (P5 _ (P4 _ (P3 _ K2))),
    (P5 _ (P4 _ K3)), (P5 _ K4), K5. reflexivity.
Qed.

Lemma verify_structure_other (data r : json) :
  (forall d, data <> JObj d) -> verify_structure data = Ok r -> r = data.
Proof.
  intros Hn. unfold verify_structure.
  destruct (ensure_field "conversations" (JArr []) data) as [r1|] eqn:E1; [|discriminate].
  apply ensure_field_other in E1; [subst r1 | exact Hn]. cbn [bind].
  destruct (ensure_field "user_data" (JObj []) data) as [r2|] eqn:E2; [|discriminate].
  apply ensure_field_other in E2; [subst r2 | exact Hn]. cbn [bind].
  destruct (ensure_field "web_content" (JArr []) data) as [r3|] eqn:E3; [|discriminate].
  apply ensure_field_other in E3; [subst r3 | exact Hn]. cbn [bind].
  destruct (ensure_field "recent_bot_topics" (JArr []) data) as [r4|] eqn:E4;
    [|discriminate].
  apply ensure_field_other in E4; [subst r4 | exact Hn]. cbn [bind].
  intros E5. now apply ensure_field_other in E5.
Qed.

(** The backfill changes nothing the second time. *)
Lemma verify_structure_idem (data data' : json) :
  verify_structure data = Ok data' -> verify_structure data' = Ok data'.
Proof.
  intros H. destruct data as [|b|q|s|l|d].
  6: { destruct (verify_structure_dict d) as (d' & Hd & Hc).
       rewrite H in Hd. inversion Hd; subst. now apply verify_structure_complete. }
  all: match type of H with
       | verify_structure ?x = _ =>
           assert (Hn : forall d0, x <> JObj d0) by (intros d0 Hd0; discriminate Hd0);
           pose proof (verify_structure_other _ _ Hn H) as E
       end; subst data'; exact H.
Qed.

Lemma ensure_file_exists_verified (json_loads : string -> option json)
    (path : string) (data : json) (now now' : Q) (stamp : string)
    (fs : gmap string file) :
  verify_structure data = Ok data ->
  ensure_file_exists json_loads path now' stamp (write_json path data now fs)
  = Ok (write_json path data now fs).
Proof.
  intros Hv. unfold ensure_file_exists, write_json. rewrite lookup_insert_eq.
  cbn [verify_attempts]. rewrite lookup_insert_eq.
  cbn [mbind option_bind Fs.data parse]. now rewrite Hv, same_keys_refl.
Qed.

(** X18. [ensure_file_exists] changes nothing when it runs again on the
    files it left: a store can be constructed again on the same path
    without touching the files, and the primary file is there. *)
Theorem ensure_file_exists_idempotent (json_loads : string -> option json)
    (path : string) (now now' : Q) (stamp stamp' : string)
    (fs fs' : gmap string file) :
  ensure_file_exists json_loads path now stamp fs = Ok fs' ->
  ensure_file_exists json_loads path now' stamp' fs' = Ok fs'
  /\ is_Some (fs' !! path).
Proof.
  assert (Hdef : verify_structure (JObj default_data) = Ok (JObj default_data))
    by reflexivity.
  assert (Hw : forall data t fs0, is_Some (write_json path data t fs0 !! path)).
  { intros data t fs0. unfold write_json. rewrite lookup_insert_eq. now eexists. }
  unfold ensure_file_exists at 1.
  destruct (fs !! path) as [f|] eqn:Ef.
  - cbn [verify_attempts]. rewrite Ef. cbn [mbind option_bind].
    destruct (parse json_loads (Fs.data f)) as [data|] eqn:Ep.
    + destruct (verify_structure data) as [data'|] eqn:Ev; [|discriminate].
      intros H. inversion H; subst fs'; clear H.
      destruct (same_keys data data') eqn:Es.
      * split; [|now rewrite Ef].
        unfold ensure_file_exists. rewrite Ef. cbn [verify_attempts]. rewrite Ef.
        cbn [mbind option_bind]. now rewrite Ep, Ev, Es.
      * split; [|apply Hw]. apply ensure_file_exists_verified.
        now apply (verify_structure_idem data).
    + cbn [Nat.eqb]. intros H. inversion H; subst fs'; clear H.
      split; [|apply Hw]. now apply ensure_file_exists_verified.
  - intros H. inversion H; subst fs'; clear H.
    split; [|apply Hw]. now apply ensure_file_exists_verified.
Qed.

Lemma ensure_file_exists_idempotent_witness :
  let fs : gmap string file :=
    {["shared_memory.json" :=
        {| Fs.data := Dumped (JObj [("conversations", JArr [])]); mtime := 1 |}]} in
  exists fs',
    ensure_file_exists Sample.rejects "shared_memory.json" 2 "20250101_120002" fs = Ok fs'
    /\ ensure_file_exists Sample.rejects "shared_memory.json" 9 "20250101_120009" fs'
       = Ok fs'
    /\ is_Some (fs' !! "shared_memory.json").
Proof.
  cbv zeta. eexists. split; [vm_compute; reflexivity|].
  apply (ensure_file_exists_idempotent Sample.rejects "shared_memory.json" 2 9
           "20250101_120002" "20250101_120009"
           {["shared_memory.json" :=
               {| Fs.data := Dumped (JObj [("conversations", JArr [])]); mtime := 1 |}]}).
  vm_compute. reflexivity.
Defined.

End Construction.

(** ** The backups *)

Section BackupFiles.
Import Json Fs Store Backups.














End BackupFiles.

Section AdjacentBackup.
Import Json Fs Store.




End AdjacentBackup.

(** ** What a call finds after a load or a save *)

Section LoadFacts.
Import Json Fs Store.

Lemma Qltb_self (now : Q) : Coordinator.Qltb (now - now) _cache_valid_seconds = true.
Proof. apply Qltb_lt. unfold Qminus. rewrite Qplus_opp_r. reflexivity. Qed.

Lemma finish_load_cached (data : json) (st : Store) (now : Q) (v : json) :
  fst (finish_load data st now) = Ok v ->
  _cached_data (snd (finish_load data st now)) = Some v
  /\ _cache_timestamp (snd (finish_load data st now)) = now.
Proof.
  unfold finish_load. destruct (ensure_required_fields data) as [data'|]; [|discriminate].
  cbn [fst snd with_cache _cached_data _cache_timestamp]. intros H.
  apply copy_ok in H. subst. now split.
Qed.

Lemma load_attempts_cached (json_loads : string -> option json) (attempts : list nat)
    (st : Store) (now : Q) (stamp : string) (v : json) :
  fst (load_attempts json_loads attempts st now stamp) = Ok v ->
  _cached_data (snd (load_attempts json_loads attempts st now stamp)) = Some v
  /\ _cache_timestamp (snd (load_attempts json_loads attempts st now stamp)) = now.
Proof.
  revert st. induction attempts as [|attempt rest IH]; intros st; cbn [load_attempts].
  - unfold all_retries_failed. cbn. intros H. inversion H. now split.
  - destruct (read_json json_loads st) as [data|]; [apply finish_load_cached|].
    destruct (Nat.eqb attempt 0); [apply IH|].
    destruct (Nat.eqb attempt 1); [apply IH|].
    destruct (Nat.eqb attempt (max_retries - 1)); [|apply IH].
    cbn. intros H. inversion H. now split.
Qed.

(** What [load_data] returns is what it leaves in the cache, and the
    cache is valid at the time of the call. *)
Lemma load_data_cached (json_loads : string -> option json) (st : Store) (now : Q)
    (stamp : string) (v : json) :
  fst (load_data json_loads st now stamp) = Ok v ->
  _cached_data (snd (load_data json_loads st now stamp)) = Some v
  /\ Coordinator.Qltb (now - _cache_timestamp (snd (load_data json_loads st now stamp)))
       _cache_valid_seconds = true.
Proof.
  unfold load_data.
  assert (Hm : fst (load_attempts json_loads (seq 0 max_retries) st now stamp) = Ok v ->
               _cached_data (snd (load_attempts json_loads (seq 0 max_retries) st now stamp))
               = Some v
               /\ Coordinator.Qltb
                    (now - _cache_timestamp
                             (snd (load_attempts json_loads (seq 0 max_retries) st now stamp)))
                    _cache_valid_seconds = true).
  { intros H. destruct (load_attempts_cached _ _ _ _ _ _ H) as [H1 H2].
    split; [exact H1|]. rewrite H2. apply Qltb_self. }
  destruct (_cached_data st) as [cached|] eqn:Ec; [|exact Hm].
  destruct (Coordinator.Qltb (now - _cache_timestamp st) _cache_valid_seconds) eqn:Eq;
    [|exact Hm].
  cbn [fst snd]. intros H. apply copy_ok in H. subst. now split.
Qed.

Lemma load_data_hit (json_loads : string -> option json) (st : Store) (now : Q)
    (stamp : string) (v : json) :
  _cached_data st = Some v ->
  Coordinator.Qltb (now - _cache_timestamp st) _cache_valid_seconds = true ->
  load_data json_loads st now stamp = (copy v, st).
Proof. intros Hc Hq. unfold load_data. now rewrite Hc, Hq. Qed.

Lemma file_path_save_data (st : Store) (data : dict) now stamp copy_fails faults :
  file_path (save_data st data now stamp copy_fails faults) = file_path st.
Proof.
  unfold save_data. destruct (save_trace _ _ _ _ _ _) as [t [|]]; reflexivity.
Qed.

Lemma save_data_cache_value (st : Store) (data : dict) now stamp copy_fails faults :
  _cached_data st = Some (JObj data) ->
  _cached_data (save_data st data now stamp copy_fails faults) = Some (JObj data).
Proof.
  unfold save_data. destruct (save_trace _ _ _ _ _ _) as [t [|]]; [reflexivity|].
  intros H. exact H.
Qed.

(** A call of [save_data] in which every attempt fails leaves the
    primary file and the cache as they were. *)
Lemma save_data_failed (st : Store) (data : dict) (now : Q) (stamp : string)
    (copy_fails : bool) (faults : nat -> Fault) :
  Text.contains "/" stamp = false ->
  (forall a, (a < max_retries)%nat -> faults a <> NoFault) ->
  exists fs',
    save_data st data now stamp copy_fails faults = with_fs st fs'
    /\ fs' !! file_path st = fs st !! file_path st.
Proof.
  intros Hs Hall. unfold save_data, save_trace.
  pose proof (save_attempts_spec (file_path st) (fs st !! file_path st)
                (seq 0 max_retries) data now stamp copy_fails faults (fs st)
                Hs eq_refl) as H.
  cbv zeta in H.
  destruct (save_attempts (seq 0 max_retries) (file_path st) data now stamp
              copy_fails faults (fs st)) as [t [|]].
  - destruct H as [_ (a & Ha & Hn)]. exfalso. apply (Hall a); [|exact Hn].
    apply in_seq in Ha. lia.
  - destruct H as [Hk _]. eexists. split; [reflexivity|].
    apply (last_kept (file_path st) (fs st !! file_path st) t (fs st) Hk eq_refl).
Qed.

(** The backfill on a dictionary, key by key. *)
Lemma ensure_required_fields_keys (d0 : dict) :
  exists d, ensure_required_fields (JObj d0) = Ok (JObj d)
            /\ (forall k, has_key k d0 = true ->
                          has_key k d = true /\ get k d = get k d0)
            /\ (forall k, Text.mem k required_fields = false ->
                          has_key k d = has_key k d0).
Proof.
  exists (fill "recent_topics" (JObj [])
           (fill "web_content" (JArr [])
              (fill "user_data" (JObj [])
                 (fill "conversations" (JArr [])
                    (fill "recent_bot_topics" (JArr []) d0))))).
  split; [reflexivity|]. split.
  - intros k Hk. rewrite !get_fill, !has_key_fill, Hk. now split.
  - intros k Hk. rewrite !has_key_fill.
    unfold Text.mem, required_fields in Hk. cbn [existsb] in Hk.
    repeat (apply orb_false_iff in Hk as [? Hk]).
    rewrite !(String.eqb_sym _ k).
    repeat match goal with H : String.eqb _ _ = false |- _ => rewrite H; clear H end.
    now rewrite !orb_false_r.
Qed.

(** Reading a store whose cache and primary file hold the same
    dictionary: from the cache or from the file, the fields that are
    there are read as they are, and no optional field appears. *)
Lemma load_saved (json_loads : string -> option json) (st : Store) (data : dict)
    (m now : Q) (stamp : string) :
  _cached_data st = Some (JObj data) ->
  fs st !! file_path st = Some {| Fs.data := Dumped (JObj data); mtime := m |} ->
  exists d,
    fst (load_data json_loads st now stamp) = Ok (JObj d)
    /\ (forall k, has_key k data = true -> has_key k d = true /\ get k d = get k data)
    /\ (forall k, Text.mem k required_fields = false -> has_key k d = has_key k data).
Proof.
  intros Hc Hf. unfold load_data. rewrite Hc.
  destruct (Coordinator.Qltb _ _).
  - exists data. cbn [fst copy]. split; [reflexivity|]. split; [now split | reflexivity].
  - unfold max_retries. cbn [seq load_attempts]. unfold read_json. rewrite Hf.
    cbn [Fs.data]. unfold finish_load.
    destruct (ensure_required_fields_keys data) as (d & -> & H1 & H2).
    exists d. cbn [fst copy]. now split.
Qed.

Lemma has_key_set_ne (k k' : string) (v : json) (d : dict) :
  k <> k' -> has_key k' (set k v d) = has_key k' d.
Proof.
  intros Hne. destruct (has_key k' d) eqn:E.
  - now apply has_key_set_other.
  - apply has_key_set_absent; [|exact E]. now apply String.eqb_neq.
Qed.

Lemma get_set_ne (k k' : string) (v : json) (d : dict) :
  k <> k' -> get k' (set k v d) = get k' d.
Proof. intros Hne. apply get_set_other. now apply String.eqb_neq. Qed.

End LoadFacts.

(** ** System settings *)

Section Settings.
Import Json Fs Store Ops.

Lemma system_setting_reads (d d' : dict) (key : string) (default_value : json) :
  has_key "system_settings" d' = has_key "system_settings" d ->
  (has_key "system_settings" d = true ->
   get "system_settings" d' = get "system_settings" d) ->
  system_setting (JObj d') key default_value = system_setting (JObj d) key default_value.
Proof.
  intros Hk Hg. unfold system_setting. rewrite Hk.
  destruct (has_key "system_settings" d); [|reflexivity]. now rewrite Hg.
Qed.

(** X21. A setting written by [set_system_setting], in a call whose
    write went through, is what [get_system_setting] answers for that
    key afterwards, from the cache or from the file; the other keys
    answer as before. *)
Theorem system_setting_round_trip (json_loads : string -> option json)
    (st : Store) (key : string) (value : json) (now : Q) (stamp : string)
    (copy_fails : bool) (faults : nat -> Fault) (d : dict)
    (now' : Q) (stamp' : string) (default_value : json) :
  fst (load_data json_loads st now stamp) = Ok (JObj d) ->
  (has_key "system_settings" d = true ->
   exists settings, get "system_settings" d = JObj settings) ->
  Text.contains "/" stamp = false ->
  (exists a, (a < max_retries)%nat /\ faults a = NoFault) ->
  let r := set_system_setting json_loads st key value now stamp copy_fails faults in
  fst r = true
  /\ fst (get_system_setting json_loads (snd r) key default_value now' stamp') = value
  /\ forall k, k <> key ->
       fst (get_system_setting json_loads (snd r) k default_value now' stamp')
       = system_setting (JObj d) k default_value.
Proof.
  intros Hl Hset Hs Hok r. subst r. unfold set_system_setting.
  destruct (load_data json_loads st now stamp) as [r0 st1] eqn:El.
  cbn [fst] in Hl. subst r0.
  assert (Hafter : forall st2 data',
             has_key "system_settings" data' = true ->
             (exists settings',
                 get "system_settings" data' = JObj settings'
                 /\ has_key key settings' = true /\ get key settings' = value
                 /\ forall k, k <> key ->
                      (if has_key k settings' then get k settings' else default_value)
                      = system_setting (JObj d) k default_value) ->
             let st' := save_data st2 data' now stamp copy_fails faults in
             fst (get_system_setting json_loads st' key default_value now' stamp') = value
             /\ forall k, k <> key ->
                  fst (get_system_setting json_loads st' k default_value now' stamp')
                  = system_setting (JObj d) k default_value).
  { intros st2 data' Hk (settings' & Hg & Hkk & Hgk & Hother) st'. subst st'.
    destruct (save_data_committed st2 data' now stamp copy_fails faults Hs Hok)
      as (fs' & -> & Hf).
    destruct (load_saved json_loads
                (with_cache (with_fs st2 fs') (JObj data') now) data' now now' stamp'
                eq_refl Hf) as (d'' & Hl'' & H1 & H2).
    unfold get_system_setting.
    destruct (load_data json_loads (with_cache (with_fs st2 fs') (JObj data') now)
                now' stamp') as [r'' st''].
    cbn [fst] in Hl''. subst r''. cbn [fst].
    destruct (H1 _ Hk) as [Hk'' Hg''].
    unfold system_setting. rewrite Hk'', Hg'', Hg. split.
    - now rewrite Hkk.
    - intros k Hne. now apply Hother. }
  destruct (has_key "system_settings" d) eqn:Ek.
  - destruct (Hset eq_refl) as (settings & Hg). rewrite Hg. cbn [fst snd].
    split; [reflexivity|].
    apply Hafter; [apply has_key_set_same|].
    exists (set key value settings). rewrite get_set_same.
    split; [reflexivity|]. split; [apply has_key_set_same|].
    split; [apply get_set_same|].
    intros k Hne. unfold system_setting. rewrite Ek, Hg.
    rewrite has_key_set_ne by congruence. now rewrite get_set_ne by congruence.
  - cbn [fst snd]. split; [reflexivity|].
    apply Hafter; [apply has_key_set_same|].
    exists [(key, value)]. rewrite get_set_same.
    split; [reflexivity|]. cbn [has_key existsb get fst]. rewrite String.eqb_refl.
    split; [reflexivity|]. split; [reflexivity|].
    intros k Hne. unfold system_setting. rewrite Ek.
    assert (E : String.eqb key k = false) by (apply String.eqb_neq; congruence).
    now rewrite E.
Qed.

Lemma system_setting_round_trip_witness :
  let r := set_system_setting Sample.rejects Sample.fresh_store "chattiness"
             (JNum 3) 2 "20250101120002" false no_faults in
  fst r = true
  /\ fst (get_system_setting Sample.rejects (snd r) "chattiness" JNull 30
            "20250101120030") = JNum 3
  /\ forall k, k <> "chattiness" ->
       fst (get_system_setting Sample.rejects (snd r) k JNull 30 "20250101120030")
       = system_setting (JObj default_data) k JNull.
Proof.
  apply (system_setting_round_trip Sample.rejects Sample.fresh_store "chattiness"
           (JNum 3) 2 "20250101120002" false no_faults default_data 30
           "20250101120030" JNull).
  - vm_compute. reflexivity.
  - intros H. vm_compute in H. discriminate.
  - vm_compute. reflexivity.
  - exists 0%nat. split; [unfold max_retries; lia | reflexivity].
Defined.

(** X22. [set_system_setting] reports success although no attempt of the
    write went through: when the document had no settings yet, the
    setting is then neither in the primary file nor in the cache, and a
    [get_system_setting] that follows answers with its default. *)
Theorem system_setting_lost_on_failed_write (json_loads : string -> option json)
    (st : Store) (key : string) (value : json) (now : Q) (stamp : string)
    (copy_fails : bool) (faults : nat -> Fault) (d : dict)
    (stamp' : string) (default_value : json) :
  fst (load_data json_loads st now stamp) = Ok (JObj d) ->
  has_key "system_settings" d = false ->
  Text.contains "/" stamp = false ->
  (forall a, (a < max_retries)%nat -> faults a <> NoFault) ->
  let st1 := snd (load_data json_loads st now stamp) in
  let r := set_system_setting json_loads st key value now stamp copy_fails faults in
  fst r = true
  /\ fs (snd r) !! file_path st = fs st1 !! file_path st
  /\ _cached_data (snd r) = Some (JObj d)
  /\ fst (get_system_setting json_loads (snd r) key default_value now stamp')
     = default_value.
Proof.
  intros Hl Hk Hs Hall st1 r. subst st1 r. unfold set_system_setting.
  destruct (load_data_cached json_loads st now stamp _ Hl) as [Hc Hq].
  pose proof (file_path_load json_loads st now stamp) as Hp.
  destruct (load_data json_loads st now stamp) as [r0 st1] eqn:El.
  cbn [fst snd] in *. subst r0. rewrite Hk. cbn [fst snd].
  destruct (save_data_failed st1 (set "system_settings" (JObj [(key, value)]) d)
              now stamp copy_fails faults Hs Hall) as (fs' & -> & Hf).
  cbn [with_fs fs _cached_data]. rewrite Hp in Hf.
  split; [reflexivity|]. split; [exact Hf|]. split; [exact Hc|].
  unfold get_system_setting.
  rewrite (load_data_hit json_loads (with_fs st1 fs') now stamp' (JObj d) Hc Hq).
  cbn [copy fst]. unfold system_setting. now rewrite Hk.
Qed.

Lemma system_setting_lost_on_failed_write_witness :
  let st1 := snd (load_data Sample.rejects Sample.fresh_store 2 "20250101120002") in
  let r := set_system_setting Sample.rejects Sample.fresh_store "chattiness"
             (JNum 3) 2 "20250101120002" false (fun _ => OpenFails) in
  fst r = true
  /\ fs (snd r) !! file_path Sample.fresh_store = fs st1 !! file_path Sample.fresh_store
  /\ _cached_data (snd r) = Some (JObj default_data)
  /\ fst (get_system_setting Sample.rejects (snd r) "chattiness" JNull 2
            "20250101120003") = JNull.
Proof.
  apply (system_setting_lost_on_failed_write Sample.rejects Sample.fresh_store
           "chattiness" (JNum 3) 2 "20250101120002" false (fun _ => OpenFails)
           default_data "20250101120003" JNull).
  - vm_compute. reflexivity.
  - reflexivity.
  - vm_compute. reflexivity.
  - intros a _. discriminate.
Defined.

End Settings.

(** ** User records *)

Section UserData.
Import Json Fs Store Ops.

Lemma update_absent (update_data : dict) (k : string) (record : dict) :
  has_key k update_data = false ->
  get k (update update_data record) = get k record
  /\ has_key k (update update_data record) = has_key k record.
Proof.
  unfold update. revert record.
  induction update_data as [|[k1 v1] rest IH]; intros record H; cbn [fold_left fst snd].
  - now split.
  - cbn [has_key existsb fst] in H. apply orb_false_iff in H as [H1 H2].
    destruct (IH (set k1 v1 record) H2) as [I1 I2]. rewrite I1, I2.
    apply String.eqb_neq in H1.
    split; [now apply get_set_ne | now apply has_key_set_ne].
Qed.

Lemma update_present (update_data : dict) (k : string) (v : json) (record : dict) :
  List.NoDup (Coordinator.keys update_data) -> In (k, v) update_data ->
  get k (update update_data record) = v
  /\ has_key k (update update_data record) = true.
Proof.
  unfold update. revert record.
  induction update_data as [|[k1 v1] rest IH]; intros record Hnd Hin; [destruct Hin|].
  cbn [fold_left fst snd]. cbn [Coordinator.keys map fst] in Hnd.
  inversion Hnd as [|? ? Hk Hrest]; subst.
  destruct Hin as [E|Hin].
  - inversion E; subst.
    assert (Ha : has_key k rest = false).
    { apply not_true_iff_false. intros H. apply Hk.
      unfold has_key in H. apply existsb_exists in H as ([k' v'] & Hin' & E').
      cbn [fst] in E'. apply String.eqb_eq in E'. subst.
      apply in_map_iff. now exists (k, v'). }
    destruct (update_absent rest k (set k v record) Ha) as [I1 I2].
    unfold update in I1, I2. rewrite I1, I2.
    split; [apply get_set_same | apply has_key_set_same].
  - now apply IH.
Qed.

(** X23. After [update_user_data], whether or not a write attempt went
    through, [get_user_data] answers from the still valid cache with the
    updated record: the updated fields have their new values and the
    others are as they were. *)
Theorem user_data_read_your_write (json_loads : string -> option json)
    (st : Store) (user_id : string) (update_data : dict) (now : Q) (stamp : string)
    (copy_fails : bool) (faults : nat -> Fault) (d users record : dict)
    (now' : Q) (stamp' : string) :
  fst (load_data json_loads st now stamp) = Ok (JObj d) ->
  has_key "user_data" d = true ->
  get "user_data" d = JObj users ->
  (if has_key user_id users then get user_id users else JObj []) = JObj record ->
  List.NoDup (Coordinator.keys update_data) ->
  let r := update_user_data json_loads st user_id update_data now stamp
             copy_fails faults in
  (now' - _cache_timestamp (snd r) < _cache_valid_seconds)%Q ->
  fst r = Ok tt
  /\ exists record',
      fst (get_user_data json_loads (snd r) user_id now' stamp') = Ok (JObj record')
      /\ (forall k v, In (k, v) update_data -> get k record' = v)
      /\ (forall k, has_key k update_data = false ->
                    get k record' = get k record
                    /\ has_key k record' = has_key k record).
Proof.
  intros Hl Hk Hg Hrec Hnd r. subst r. unfold update_user_data.
  destruct (load_data json_loads st now stamp) as [r0 st1] eqn:El.
  cbn [fst] in Hl. subst r0. rewrite Hk, Hg. cbv zeta.
  assert (Hgen : forall users1,
             get user_id users1 = JObj record ->
             let r := match get user_id users1 with
                      | JObj record0 =>
                          (Ok tt,
                           save_data
                             (with_cache st1
                                (JObj (set "user_data"
                                         (JObj (set user_id
                                                  (JObj (update update_data record0))
                                                  users1)) d))
                                (_cache_timestamp st1))
                             (set "user_data"
                                (JObj (set user_id (JObj (update update_data record0))
                                         users1)) d)
                             now stamp copy_fails faults)
                      | _ => (Raise, st1)
                      end in
             (now' - _cache_timestamp (snd r) < _cache_valid_seconds)%Q ->
             fst r = Ok tt
             /\ exists record',
                 fst (get_user_data json_loads (snd r) user_id now' stamp')
                 = Ok (JObj record')
                 /\ (forall k v, In (k, v) update_data -> get k record' = v)
                 /\ (forall k, has_key k update_data = false ->
                               get k record' = get k record
                               /\ has_key k record' = has_key k record)).
  { intros users1 Hu. rewrite Hu. cbn [fst snd].
    set (data' := set "user_data"
                      (JObj (set user_id (JObj (update update_data record)) users1)) d).
    set (st2 := with_cache st1 (JObj data') (_cache_timestamp st1)).
    intros Hw. split; [reflexivity|].
    exists (update update_data record).
    assert (Hc : _cached_data (save_data st2 data' now stamp copy_fails faults)
                 = Some (JObj data')) by (now apply save_data_cache_value).
    apply Qltb_lt in Hw.
    split; [|split].
    - unfold get_user_data. rewrite (load_data_hit json_loads _ now' stamp' _ Hc Hw).
      cbn [copy]. unfold data'.
      rewrite has_key_set_same, get_set_same, has_key_set_same, get_set_same.
      reflexivity.
    - intros k v Hin. now apply (update_present update_data k v record Hnd Hin).
    - intros k Ha. now apply update_absent. }
  destruct (has_key user_id users).
  - now apply Hgen.
  - apply Hgen. now rewrite get_set_same.
Qed.

Lemma user_data_read_your_write_witness :
  let r := update_user_data Sample.rejects Sample.fresh_store "1001"
             [("name", JStr "alice")] 2 "20250101120002" false (fun _ => OpenFails) in
  fst r = Ok tt
  /\ exists record',
      fst (get_user_data Sample.rejects (snd r) "1001" 3 "20250101120003")
      = Ok (JObj record')
      /\ (forall k v, In (k, v) [("name", JStr "alice")] -> get k record' = v)
      /\ (forall k, has_key k [("name", JStr "alice")] = false ->
                    get k record' = get k [] /\ has_key k record' = has_key k []).
Proof.
  apply (user_data_read_your_write Sample.rejects Sample.fresh_store "1001"
           [("name", JStr "alice")] 2 "20250101120002" false (fun _ => OpenFails)
           default_data [] [] 3 "20250101120003").
  - vm_compute. reflexivity.
  - reflexivity.
  - reflexivity.
  - reflexivity.
  - constructor; [intros [] | constructor].
  - vm_compute. reflexivity.
Defined.

End UserData.

(** ** Bot topics and the conversation window *)

Section BotTopics.
Import Json Fs Store Ops.

Lemma newer_topics_wf (cutoff : Q) (l : list json) :
  (forall e, In e l -> timestamp_of e <> None) ->
  newer_topics cutoff l
  = Some (List.filter (fun e => match timestamp_of e with
                                | Some t => Coordinator.Qltb cutoff t
                                | None => false
                                end) l).
Proof.
  induction l as [|e l IH]; intros H; [reflexivity|].
  cbn [newer_topics List.filter].
  destruct (timestamp_of e) as [t|] eqn:Et; [|now destruct (H e (or_introl eq_refl))].
  rewrite IH by (intros x Hx; apply H; now right).
  now destruct (Coordinator.Qltb cutoff t).
Qed.

Lemma In_firstn_In {A : Type} (n : nat) (x : A) (l : list A) :
  In x (firstn n l) -> In x l.
Proof.
  revert l. induction n as [|n IH]; intros l; [intros []|].
  destruct l as [|a l]; [intros []|].
  intros [H|H]; [now left | right; now apply IH].
Qed.

Lemma get_present (k : string) (d : dict) (v : json) :
  get k d = v -> v <> JNull -> has_key k d = true.
Proof.
  intros Hg Hv. destruct (has_key k d) eqn:E; [reflexivity|].
  apply get_absent in E. congruence.
Qed.

(** X24. After [add_bot_topic], in a call whose write went through, the
    new topic is the first one [get_recent_bot_topics] answers with
    while the cache is valid and the topic is inside the window; the
    others are earlier topics inside the window, and the answer never
    has more than fifty topics. *)
Theorem bot_topic_newest_first (json_loads : string -> option json)
    (st : Store) (bot_id : string) (topic content_summary : json) (now : Q)
    (stamp : string) (copy_fails : bool) (faults : nat -> Fault)
    (d : dict) (topics : list json) (hours now' : Q) (stamp' : string) :
  fst (load_data json_loads st now stamp) = Ok (JObj d) ->
  get "recent_bot_topics" d = JArr topics ->
  (forall e, In e topics -> timestamp_of e <> None) ->
  Text.contains "/" stamp = false ->
  (exists a, (a < max_retries)%nat /\ faults a = NoFault) ->
  (now' - now < _cache_valid_seconds)%Q ->
  (now' - hours * 3600 < now)%Q ->
  let r := add_bot_topic json_loads st bot_id topic content_summary now stamp
             copy_fails faults in
  fst r = Ok tt
  /\ exists rest,
      fst (get_recent_bot_topics json_loads (snd r) hours now' stamp')
      = Ok (bot_topic_entry bot_id topic content_summary now :: rest)
      /\ (length rest < max_topics)%nat
      /\ forall e, In e rest -> In e topics.
Proof.
  intros Hl Hg Hts Hs Hok Hw Hin r. subst r. unfold add_bot_topic.
  assert (Hk : has_key "recent_bot_topics" d = true)
    by (apply (get_present _ _ _ Hg); discriminate).
  destruct (load_data json_loads st now stamp) as [r0 st1] eqn:El.
  cbn [fst] in Hl. subst r0. rewrite Hk, Hg. cbv zeta. cbn [fst snd].
  split; [reflexivity|].
  set (entry := bot_topic_entry bot_id topic content_summary now).
  set (kept := if Nat.ltb max_topics (length (entry :: topics))
               then firstn max_topics (entry :: topics) else entry :: topics).
  assert (Hkept : kept = entry :: firstn 49 topics).
  { unfold kept, max_topics. destruct (Nat.ltb 50 (length (entry :: topics))) eqn:E.
    - reflexivity.
    - apply Nat.ltb_ge in E. cbn [length] in E. f_equal.
      symmetry. apply firstn_all2. lia. }
  destruct (save_data_committed
              (with_cache st1 (JObj (set "recent_bot_topics" (JArr (entry :: topics)) d))
                 (_cache_timestamp st1))
              (set "recent_bot_topics" (JArr kept) d) now stamp copy_fails faults Hs Hok)
    as (fs' & -> & _).
  unfold get_recent_bot_topics.
  match goal with
  | |- context [load_data json_loads ?s now' stamp'] =>
      rewrite (load_data_hit json_loads s now' stamp'
                 (JObj (set "recent_bot_topics" (JArr kept) d)) eq_refl
                 (proj2 (Qltb_lt _ _) Hw))
  end.
  cbn [copy]. rewrite has_key_set_same, get_set_same, Hkept.
  assert (Hts' : forall e, In e (entry :: firstn 49 topics) -> timestamp_of e <> None).
  { intros e [<-|He]; [discriminate|]. apply Hts. now apply (In_firstn_In 49%nat). }
  rewrite (newer_topics_wf _ _ Hts'). cbn [List.filter].
  change (timestamp_of entry) with (Some now).
  cbv iota. rewrite (proj2 (Qltb_lt _ _) Hin). cbn [fst].
  eexists. split; [reflexivity|]. split.
  - eapply Nat.le_lt_trans; [apply List.filter_length_le|].
    rewrite length_firstn. unfold max_topics. lia.
  - intros e He. apply filter_In in He as [He _]. now apply (In_firstn_In 49%nat).
Qed.

Lemma bot_topic_newest_first_witness :
  let r := add_bot_topic Sample.rejects Sample.fresh_store "bot1" (JStr "Bitcoin price")
             (JStr "up") 2 "20250101120002" false no_faults in
  fst r = Ok tt
  /\ exists rest,
      fst (get_recent_bot_topics Sample.rejects (snd r) 3 4 "20250101120004")
      = Ok (bot_topic_entry "bot1" (JStr "Bitcoin price") (JStr "up") 2 :: rest)
      /\ (length rest < max_topics)%nat
      /\ forall e, In e rest -> In e [].
Proof.
  apply (bot_topic_newest_first Sample.rejects Sample.fresh_store "bot1"
           (JStr "Bitcoin price") (JStr "up") 2 "20250101120002" false no_faults
           default_data [] 3 4 "20250101120004").
  - vm_compute. reflexivity.
  - reflexivity.
  - intros e [].
  - vm_compute. reflexivity.
  - exists 0%nat. split; [unfold max_retries; lia | reflexivity].
  - vm_compute. reflexivity.
  - vm_compute. reflexivity.
Defined.

Lemma conversations_load (json_loads : string -> option json) (st : Store) now stamp :
  conversations (snd (load_data json_loads st now stamp)) = conversations st.
Proof.
  assert (Ha : forall attempts st0,
             conversations (snd (load_attempts json_loads attempts st0 now stamp))
             = conversations st0).
  { induction attempts as [|a rest IH]; intros st0; cbn [load_attempts].
    - reflexivity.
    - destruct (read_json json_loads st0) as [data|].
      + unfold finish_load. now destruct (ensure_required_fields data).
      + destruct (Nat.eqb a 0).
        { rewrite IH. unfold _try_restore_from_backup.
          destruct (glob _ _); [reflexivity|]. now destruct (copy2 _ _ _). }
        destruct (Nat.eqb a 1).
        { rewrite IH. unfold _try_repair_json_file.
          destruct (fs st0 !! file_path st0) as [f|]; [|reflexivity].
          destruct (Fs.data f); [reflexivity|].
          destruct (negb _); [reflexivity|]. now destruct (json_loads _). }
        destruct (Nat.eqb a (max_retries - 1)); [reflexivity | apply IH]. }
  unfold load_data. destruct (_cached_data st); [|apply Ha].
  destruct (Coordinator.Qltb _ _); [reflexivity | apply Ha].
Qed.

Lemma slice_from_split {A : Type} (start : Z) (l : list A) :
  exists older, l = older ++ slice_from start l
                /\ Z.of_nat (length older)
                   = if Z.ltb start 0
                     then Z.max 0 (Z.of_nat (length l) + start)
                     else Z.min start (Z.of_nat (length l)).
Proof.
  unfold slice_from. destruct (Z.ltb start 0) eqn:E.
  - exists (firstn (Z.to_nat (Z.max 0 (Z.of_nat (length l) + start))) l).
    split; [symmetry; apply firstn_skipn|].
    apply Z.ltb_lt in E. rewrite length_firstn. lia.
  - exists (firstn (Z.to_nat start) l).
    split; [symmetry; apply firstn_skipn|].
    apply Z.ltb_ge in E. rewrite length_firstn. lia.
Qed.

(** X25. On a document with a non-empty log, [get_recent_conversations]
    answers with an end piece of the log and remembers the whole log:
    for a positive limit the last [limit] records (all of them if there
    are fewer), for the limit [0] the whole log, and for a negative
    limit the log without its first [-limit] records. *)
Theorem recent_conversations_window (json_loads : string -> option json)
    (st : Store) (limit : Z) (now : Q) (stamp : string) (d : dict) (log : list json) :
  fst (load_data json_loads st now stamp) = Ok (JObj d) ->
  get "conversations" d = JArr log ->
  log <> [] ->
  let r := get_recent_conversations json_loads st limit now stamp in
  conversations (snd r) = JArr log
  /\ exists older out,
      fst r = Ok (JArr out)
      /\ log = older ++ out
      /\ (0 < limit -> Z.of_nat (length out) = Z.min limit (Z.of_nat (length log)))
      /\ (limit = 0 -> out = log)
      /\ (limit < 0 -> Z.of_nat (length older) = Z.min (- limit) (Z.of_nat (length log))).
Proof.
  intros Hl Hg Hne r. subst r. unfold get_recent_conversations.
  assert (Hk : has_key "conversations" d = true)
    by (apply (get_present _ _ _ Hg); discriminate).
  destruct (load_data json_loads st now stamp) as [r0 st1] eqn:El.
  cbn [fst] in Hl. subst r0. rewrite Hg, Hk.
  assert (Ht : truthy (JArr log) = true) by (destruct log; [contradiction | reflexivity]).
  rewrite Ht. cbn [negb andb fst snd tail_of with_conversations conversations].
  split; [reflexivity|].
  destruct (slice_from_split (- limit) log) as (older & Hsplit & Hlen).
  exists older, (slice_from (- limit) log).
  split; [reflexivity|]. split; [exact Hsplit|].
  assert (Hlog : (length log = length older + length (slice_from (- limit) log))%nat).
  { rewrite Hsplit at 1. apply length_app. }
  split; [|split].
  - intros Hpos. assert (E : Z.ltb (- limit) 0 = true) by (apply Z.ltb_lt; lia).
    rewrite E in Hlen. lia.
  - intros ->. reflexivity.
  - intros Hneg. assert (E : Z.ltb (- limit) 0 = false) by (apply Z.ltb_ge; lia).
    now rewrite E in Hlen.
Qed.

Lemma recent_conversations_window_witness :
  let log := [JObj (Sample.record 1 "user"); JObj (Sample.record 2 "bot")] in
  let st := save_data Sample.fresh_store Sample.version2 2 "20250101120002"
              false no_faults in
  let r := get_recent_conversations Sample.rejects st 0 3 "20250101120003" in
  conversations (snd r) = JArr log
  /\ exists older out,
      fst r = Ok (JArr out)
      /\ log = older ++ out
      /\ (0 < 0 -> Z.of_nat (length out) = Z.min 0 (Z.of_nat (length log)))
      /\ (0 = 0 -> out = log)
      /\ (0 < 0 -> Z.of_nat (length older) = Z.min (- 0) (Z.of_nat (length log))).
Proof.
  apply (recent_conversations_window Sample.rejects
           (save_data Sample.fresh_store Sample.version2 2 "20250101120002"
              false no_faults)
           0 3 "20250101120003" Sample.version2).
  - vm_compute. reflexivity.
  - reflexivity.
  - discriminate.
Defined.

(** X26. When the log of the document is empty or missing while the
    instance remembers a non-empty log from an earlier call,
    [get_recent_conversations] answers from the remembered log and keeps
    it. *)
Theorem recent_conversations_remembered (json_loads : string -> option json)
    (st : Store) (limit : Z) (now : Q) (stamp : string) (d : dict) (own : list json) :
  fst (load_data json_loads st now stamp) = Ok (JObj d) ->
  truthy (get "conversations" d) = false ->
  conversations st = JArr own ->
  own <> [] ->
  let r := get_recent_conversations json_loads st limit now stamp in
  fst r = Ok (JArr (slice_from (- limit) own))
  /\ conversations (snd r) = JArr own.
Proof.
  intros Hl Ht Hc Hne r. subst r. unfold get_recent_conversations.
  pose proof (conversations_load json_loads st now stamp) as Hcl.
  destruct (load_data json_loads st now stamp) as [r0 st1] eqn:El.
  cbn [fst snd] in *. subst r0. rewrite Ht, Hcl, Hc.
  assert (Ho : truthy (JArr own) = true) by (destruct own; [contradiction | reflexivity]).
  rewrite Ho. cbn [negb andb fst snd tail_of].
  split; [reflexivity | now rewrite Hcl].
Qed.

Lemma recent_conversations_remembered_witness :
  let own := [JObj (Sample.record 1 "user"); JObj (Sample.record 2 "bot")] in
  let st := with_conversations Sample.fresh_store (JArr own) in
  let r := get_recent_conversations Sample.rejects st 1 3 "20250101120003" in
  fst r = Ok (JArr (slice_from (- 1) own))
  /\ conversations (snd r) = JArr own.
Proof.
  apply (recent_conversations_remembered Sample.rejects
           (with_conversations Sample.fresh_store
              (JArr [JObj (Sample.record 1 "user"); JObj (Sample.record 2 "bot")]))
           1 3 "20250101120003" default_data).
  - vm_compute. reflexivity.
  - reflexivity.
  - reflexivity.
  - discriminate.
Defined.

End BotTopics.

(** ** Cleaning the topic ledger *)

Section TopicCleanup.
Import Json Fs Store Ops.

Lemma filter_all {A : Type} (p : A -> bool) (l : list A) :
  ~ (length (List.filter p l) < length l)%nat -> List.filter p l = l.
Proof.
  induction l as [|x l IH]; [reflexivity|]. cbn [List.filter].
  pose proof (List.filter_length_le p l) as Hle.
  destruct (p x); cbn [length]; intros H.
  - f_equal. apply IH. lia.
  - exfalso. apply H. lia.
Qed.

Lemma in_window_mono (c c' : Q) (e : json) :
  (c <= c')%Q -> in_window c' e = true -> in_window c e = true.
Proof.
  unfold in_window. destruct (entry_fields e) as [[q t]|]; [|discriminate].
  intros Hle H. apply Qltb_lt in H. apply Qltb_lt.
  now apply Qle_lt_trans with c'.
Qed.

Lemma filter_window_twice (c c' : Q) (l : list json) :
  (c <= c')%Q ->
  List.filter (in_window c') (List.filter (in_window c) l)
  = List.filter (in_window c') l.
Proof.
  intros Hle. induction l as [|e l IH]; [reflexivity|]. cbn [List.filter].
  destruct (in_window c e) eqn:E; cbn [List.filter].
  - now rewrite IH.
  - destruct (in_window c' e) eqn:E'; [|exact IH].
    apply (in_window_mono c c' e Hle) in E'. congruence.
Qed.

(** On a ledger of lists of entries with a text and a time the loop does
    not raise, and what it leaves answers every later window as the
    ledger did. *)
Lemma cleanup_ledger_wf (c : Q) (ledger : dict) :
  wf_ledger ledger ->
  exists ledger' modified,
    cleanup_ledger c ledger = (ledger', modified, false)
    /\ forall c', (c <= c')%Q -> recent_by_bot c' ledger' = recent_by_bot c' ledger.
Proof.
  induction ledger as [|[bot_id topics] rest IH]; intros Hwf.
  - exists [], false. now split.
  - destruct (Hwf bot_id topics (or_introl eq_refl)) as (l & -> & Hl).
    destruct IH as (rest' & modified & Hr & Hsame).
    { intros b t Hin. apply (Hwf b t). now right. }
    cbn [cleanup_ledger recent_of]. rewrite (recent_entries_wf c l Hl), Hr.
    cbn [len_of].
    assert (Hhead : forall c', (c <= c')%Q ->
               recent_of c' (JArr (List.filter (in_window c) l)) = recent_of c' (JArr l)).
    { intros c' Hle. cbn [recent_of].
      rewrite (recent_entries_wf c' l Hl).
      rewrite recent_entries_wf
        by (intros e He; apply Hl; now apply filter_In in He).
      now rewrite filter_window_twice. }
    destruct (Nat.ltb (length (List.filter (in_window c) l)) (length l)) eqn:E.
    + exists ((bot_id, JArr (List.filter (in_window c) l)) :: rest'), true.
      split; [reflexivity|]. intros c' Hle. cbn [recent_by_bot].
      now rewrite (Hhead c' Hle), (Hsame c' Hle).
    + exists ((bot_id, JArr l) :: rest'), modified.
      split; [reflexivity|]. intros c' Hle. cbn [recent_by_bot].
      now rewrite (Hsame c' Hle).
Qed.

Lemma save_data_cache_cases (st : Store) (data : dict) now stamp copy_fails faults :
  (_cached_data (save_data st data now stamp copy_fails faults) = Some (JObj data)
   /\ _cache_timestamp (save_data st data now stamp copy_fails faults) = now)
  \/ (_cached_data (save_data st data now stamp copy_fails faults) = _cached_data st
      /\ _cache_timestamp (save_data st data now stamp copy_fails faults)
         = _cache_timestamp st).
Proof.
  unfold save_data. destruct (save_trace _ _ _ _ _ _) as [t [|]];
    [left | right]; now split.
Qed.

(** X27. [cleanup_old_topics] does not change what
    [is_topic_recently_used] answers afterwards, from the cache, for any
    window that begins no earlier than the cleanup horizon: the answer
    is the one the document gave before the cleanup, whether or not the
    cleanup wrote the file. *)
Theorem cleanup_keeps_lookups (json_loads : string -> option json)
    (st : Store) (hours now : Q) (stamp : string) (copy_fails : bool)
    (faults : nat -> Fault) (d ledger : dict)
    (topic_query : string) (minutes now' : Q) (stamp' : string) :
  fst (load_data json_loads st now stamp) = Ok (JObj d) ->
  get "recent_topics" d = JObj ledger ->
  wf_ledger ledger ->
  (now - hours * 3600 <= now' - minutes * 60)%Q ->
  let st' := cleanup_old_topics json_loads st hours now stamp copy_fails faults in
  (now' - _cache_timestamp st' < _cache_valid_seconds)%Q ->
  fst (is_topic_recently_used json_loads st' topic_query minutes now' stamp')
  = topic_recently_used (JObj d) topic_query now' minutes.
Proof.
  intros Hl Hg Hwf Hle st'. subst st'.
  assert (Hk : has_key "recent_topics" d = true)
    by (apply (get_present _ _ _ Hg); discriminate).
  destruct (load_data_cached json_loads st now stamp _ Hl) as [Hc _].
  unfold cleanup_old_topics.
  destruct (load_data json_loads st now stamp) as [r0 st1] eqn:El.
  cbn [fst snd] in Hl, Hc. subst r0. rewrite Hk, Hg.
  destruct (cleanup_ledger_wf (now - hours * 3600) ledger Hwf)
    as (ledger' & modified & -> & Hsame).
  cbv zeta. cbn iota.
  set (d1 := set "recent_topics" (JObj ledger') d).
  set (st2 := with_cache st1 (JObj d1) (_cache_timestamp st1)).
  assert (Hdoc : forall dfinal,
             has_key "recent_topics" dfinal = true ->
             get "recent_topics" dfinal = JObj ledger' ->
             topic_recently_used (JObj dfinal) topic_query now' minutes
             = topic_recently_used (JObj d) topic_query now' minutes).
  { intros dfinal Hkf Hgf. unfold topic_recently_used, get_recently_used_topics.
    now rewrite Hkf, Hgf, Hk, Hg, (Hsame _ Hle). }
  assert (Hstore : forall s dfinal,
             _cached_data s = Some (JObj dfinal) ->
             has_key "recent_topics" dfinal = true ->
             get "recent_topics" dfinal = JObj ledger' ->
             (now' - _cache_timestamp s < _cache_valid_seconds)%Q ->
             fst (is_topic_recently_used json_loads s topic_query minutes now' stamp')
             = topic_recently_used (JObj d) topic_query now' minutes).
  { intros s dfinal Hcs Hkf Hgf Hw. unfold is_topic_recently_used.
    rewrite (load_data_hit json_loads s now' stamp' _ Hcs (proj2 (Qltb_lt _ _) Hw)).
    cbn [copy fst]. now apply Hdoc. }
  assert (H1k : has_key "recent_topics" d1 = true) by apply has_key_set_same.
  assert (H1g : get "recent_topics" d1 = JObj ledger') by apply get_set_same.
  assert (Hst2 : (now' - _cache_timestamp st2 < _cache_valid_seconds)%Q ->
                 fst (is_topic_recently_used json_loads st2 topic_query minutes now'
                        stamp')
                 = topic_recently_used (JObj d) topic_query now' minutes)
    by (apply (Hstore st2 d1 eq_refl H1k H1g)).
  assert (Hsave : forall data,
             has_key "recent_topics" data = true ->
             get "recent_topics" data = JObj ledger' ->
             (now' - _cache_timestamp (save_data st2 data now stamp copy_fails faults)
              < _cache_valid_seconds)%Q ->
             fst (is_topic_recently_used json_loads
                    (save_data st2 data now stamp copy_fails faults)
                    topic_query minutes now' stamp')
             = topic_recently_used (JObj d) topic_query now' minutes).
  { intros data Hkd Hgd Hw.
    destruct (save_data_cache_cases st2 data now stamp copy_fails faults)
      as [[Hcs _]|[Hcs _]].
    - now apply (Hstore _ data).
    - now apply (Hstore _ d1). }
  destruct (has_key "recent_bot_topics" d1).
  - destruct (stamped_after_of _ _) as [[kept old_count]|]; [|exact Hst2].
    destruct (modified || Nat.ltb (length kept) old_count); [|exact Hst2].
    apply Hsave.
    + now apply has_key_set_other.
    + rewrite get_set_ne by discriminate. exact H1g.
  - destruct modified; [|exact Hst2]. now apply Hsave.
Qed.

Lemma cleanup_keeps_lookups_witness :
  let d := set "recent_topics"
             (JObj [("bot1", JArr [topic_entry "bitcoin halving news" 1;
                                   topic_entry "solana outage report" 19900])])
             default_data in
  let st := save_data Sample.fresh_store d 19900 "20250101120000" false no_faults in
  let st' := cleanup_old_topics Sample.rejects st 3 20000 "20250101120100" false
               no_faults in
  fst (is_topic_recently_used Sample.rejects st' "Solana outage report" 10 20001
         "20250101120101")
  = topic_recently_used (JObj d) "Solana outage report" 20001 10.
Proof.
  cbv zeta.
  apply (cleanup_keeps_lookups Sample.rejects
           (save_data Sample.fresh_store
              (set "recent_topics"
                 (JObj [("bot1", JArr [topic_entry "bitcoin halving news" 1;
                                       topic_entry "solana outage report" 19900])])
                 default_data)
              19900 "20250101120000" false no_faults)
           3 20000 "20250101120100" false no_faults
           (set "recent_topics"
              (JObj [("bot1", JArr [topic_entry "bitcoin halving news" 1;
                                    topic_entry "solana outage report" 19900])])
              default_data)
           [("bot1", JArr [topic_entry "bitcoin halving news" 1;
                           topic_entry "solana outage report" 19900])]
           "Solana outage report" 10 20001 "20250101120101").
  - vm_compute. reflexivity.
  - reflexivity.
  - intros bot_id topics [H|[]]. inversion H; subst. eexists. split; [reflexivity|].
    intros e [<-|[<-|[]]]; discriminate.
  - vm_compute. discriminate.
  - vm_compute. reflexivity.
Defined.

End TopicCleanup.

(** ** The web content store *)

Section WebContent.
Import Json Store Ops Web.

Lemma stamped_after_spec (c : Q) (l kept : list json) :
  stamped_after c l = Some kept ->
  kept = List.filter (fun e => match timestamp_or_zero e with
                               | Some t => Coordinator.Qltb c t
                               | None => false
                               end) l
  /\ forall e, In e l -> timestamp_or_zero e <> None.
Proof.
  revert kept. induction l as [|e l IH]; intros kept; cbn [stamped_after List.filter].
  - intros H. inversion H. split; [reflexivity | intros e []].
  - destruct (timestamp_or_zero e) as [t|] eqn:Et; [|discriminate].
    destruct (stamped_after c l) as [r|]; [|discriminate].
    destruct (IH r eq_refl) as [-> Hall]. intros H. inversion H; subst. split.
    + now destruct (Coordinator.Qltb c t).
    + intros x [<-|Hx]; [congruence | now apply Hall].
Qed.

Lemma lastn_sub {A : Type} (n : nat) (l : list A) (x : A) :
  In x (lastn n l) -> In x l.
Proof. unfold lastn. apply In_skipn_In. Qed.

Lemma lastn_last {A : Type} (n : nat) (l : list A) (x : A) :
  (0 < n)%nat -> In x (lastn n (l ++ [x])).
Proof.
  intros Hn. unfold lastn. rewrite length_app. cbn [length].
  rewrite skipn_app. apply in_app_iff. right.
  replace (length l + 1 - n - length l)%nat with 0%nat by lia. now left.
Qed.

Lemma lastn_length {A : Type} (n : nat) (l : list A) :
  (length (lastn n l) <= n)%nat.
Proof. unfold lastn. rewrite length_skipn. lia. Qed.

(** The loop answers true when an item of the window has the query,
    provided no item makes it raise. *)
Lemma similar_recent_found (cutoff : Q) (ql : string) (l : list json) :
  (forall e, In e l -> timestamp_or_zero e <> None /\ used_query_of e <> None) ->
  (exists e t, In e l /\ timestamp_or_zero e = Some t
               /\ Coordinator.Qltb t cutoff = false /\ used_query_of e = Some ql) ->
  similar_recent cutoff ql l = Some true.
Proof.
  induction l as [|x l IH]; intros Hwf (e & t & Hin & Ht & Hc & Hq); [destruct Hin|].
  cbn [similar_recent].
  destruct (Hwf x (or_introl eq_refl)) as [Hx1 Hx2].
  destruct (timestamp_or_zero x) as [tx|] eqn:Etx; [|congruence].
  assert (Htail : In e l -> similar_recent cutoff ql l = Some true).
  { intros Hl. apply IH; [intros y Hy; apply Hwf; now right|].
    exists e, t. now repeat split. }
  destruct (Coordinator.Qltb tx cutoff) eqn:Ec.
  - apply Htail. destruct Hin as [<-|Hin]; [congruence | exact Hin].
  - destruct (used_query_of x) as [iq|] eqn:Eq; [|congruence].
    destruct (String.eqb ql iq) eqn:Ee; [reflexivity|].
    destruct (_ && _); [reflexivity|].
    apply Htail. destruct Hin as [<-|Hin]; [|exact Hin].
    rewrite Eq in Hq. inversion Hq; subst. now rewrite String.eqb_refl in Ee.
Qed.

(** What a call that reaches [save_data] hands to it. *)
Lemma add_content_saved (content : dict) (now : Q) (d data' : dict) (items : list json) :
  get "web_content" d = JArr items ->
  add_content content now (JObj d) = Saved data' ->
  let stamped := JObj (if has_key "timestamp" content then content
                       else set "timestamp" (JNum now) content) in
  let capped := if Nat.ltb max_content_items (length (items ++ [stamped]))
                then lastn max_content_items (items ++ [stamped])
                else items ++ [stamped] in
  exists kept,
    stamped_after (now - default_retention_hours * 3600) capped = Some kept
    /\ data' = set "last_update" (JNum now) (set "web_content" (JArr kept) d).
Proof.
  intros Hg. unfold add_content.
  assert (Hk : has_key "web_content" d = true)
    by (apply (get_present _ _ _ Hg); discriminate).
  destruct (if has_key "query" content then get "query" content else JStr "");
    try discriminate.
  destruct (has_recent_search _ _ _ _) as [[|]|]; try discriminate.
  rewrite Hk, Hg. cbv zeta.
  destruct (stamped_after _ _) as [kept|]; [|discriminate].
  intros H. inversion H. exists kept. now split.
Qed.

(** X28. A query that was just stored is not stored again: a second
    [add_content] whose query has the same lower-cased text, made while
    the first item is within the duplicate window, returns without
    saving. *)
Theorem repeated_query_skipped (content content' : dict) (q q' : string)
    (now now' : Q) (d data' : dict) (items : list json) :
  get "web_content" d = JArr items ->
  (forall e, In e items -> used_query_of e <> None) ->
  has_key "timestamp" content = false ->
  has_key "query" content = true -> get "query" content = JStr q ->
  has_key "query" content' = true -> get "query" content' = JStr q' ->
  Text.lower q' = Text.lower q ->
  (now' - duplicate_check_hours * 3600 <= now)%Q ->
  add_content content now (JObj d) = Saved data' ->
  add_content content' now' (JObj data') = Skipped.
Proof.
  intros Hg Hq Hts Hkq Hgq Hkq' Hgq' Hlow Hwin Hadd.
  destruct (add_content_saved content now d data' items Hg Hadd) as (kept & Hkept & ->).
  rewrite Hts in Hkept.
  set (stamped := JObj (set "timestamp" (JNum now) content)) in *.
  set (capped := if Nat.ltb max_content_items (length (items ++ [stamped]))
                 then lastn max_content_items (items ++ [stamped])
                 else items ++ [stamped]) in *.
  destruct (stamped_after_spec _ _ _ Hkept) as [Hf Hall].
  assert (Hst : timestamp_or_zero stamped = Some now).
  { unfold stamped, timestamp_or_zero. now rewrite has_key_set_same, get_set_same. }
  assert (Hsq : used_query_of stamped = Some (Text.lower q)).
  { unfold stamped, used_query_of.
    rewrite has_key_set_other by exact Hkq.
    rewrite get_set_ne by discriminate. now rewrite Hgq. }
  assert (Hsub : forall e, In e capped -> In e items \/ e = stamped).
  { intros e He. unfold capped in He.
    destruct (Nat.ltb _ _); [apply lastn_sub in He|];
      apply in_app_iff in He as [He|[<-|[]]]; auto. }
  assert (Hin : In stamped capped).
  { unfold capped. destruct (Nat.ltb _ _).
    - apply lastn_last. unfold max_content_items. lia.
    - apply in_app_iff. right. now left. }
  assert (Hink : In stamped kept).
  { rewrite Hf. apply filter_In. split; [exact Hin|]. rewrite Hst.
    apply Qltb_lt. unfold default_retention_hours.
    apply Qlt_minus_iff. ring_simplify. reflexivity. }
  unfold add_content. rewrite Hkq', Hgq'.
  assert (Hs : has_recent_search
                 (JObj (set "last_update" (JNum now) (set "web_content" (JArr kept) d)))
                 q' duplicate_check_hours now' = Some true).
  { unfold has_recent_search, content_of.
    rewrite has_key_set_other by apply has_key_set_same.
    rewrite get_set_ne by discriminate. rewrite get_set_same.
    apply similar_recent_found.
    - intros e He. rewrite Hf in He. apply filter_In in He as [He _]. split.
      + now apply Hall.
      + destruct (Hsub e He) as [Hi| ->]; [now apply Hq | congruence].
    - exists stamped, now. split; [exact Hink|]. split; [exact Hst|]. split.
      + apply not_true_iff_false. intros H. apply Qltb_lt in H.
        now apply (Qlt_not_le _ _ H).
      + now rewrite Hlow. }
  now rewrite Hs.
Qed.

Lemma repeated_query_skipped_witness :
  add_content [("query", JStr "bitcoin PRICE today")] 130
    (JObj (set "last_update" (JNum 100)
             (set "web_content"
                (JArr [JObj [("query", JStr "Bitcoin price today");
                             ("timestamp", JNum 100)]])
                [("web_content", JArr []); ("last_update", JNum 1)])))
  = Skipped.
Proof.
  apply (repeated_query_skipped [("query", JStr "Bitcoin price today")]
           [("query", JStr "bitcoin PRICE today")]
           "Bitcoin price today" "bitcoin PRICE today" 100 130
           [("web_content", JArr []); ("last_update", JNum 1)] _ []).
  - reflexivity.
  - intros e [].
  - reflexivity.
  - reflexivity.
  - reflexivity.
  - reflexivity.
  - reflexivity.
  - vm_compute. reflexivity.
  - vm_compute. discriminate.
  - vm_compute. reflexivity.
Defined.

(** X29. What [add_content] hands to [save_data] holds at most a hundred
    items, each newer than three hours before the call and each either
    an item that was there or the new one; an item that comes with a
    timestamp of its own is stored only if that timestamp is inside the
    three hours.  The other fields are passed on unchanged. *)
Theorem stored_content_bounded (content : dict) (now : Q) (d data' : dict)
    (items : list json) :
  get "web_content" d = JArr items ->
  add_content content now (JObj d) = Saved data' ->
  exists kept,
    get "web_content" data' = JArr kept
    /\ get "last_update" data' = JNum now
    /\ (length kept <= max_content_items)%nat
    /\ (forall e, In e kept ->
          (exists t, timestamp_or_zero e = Some t
                     /\ (now - default_retention_hours * 3600 < t)%Q)
          /\ (In e items
              \/ e = JObj (if has_key "timestamp" content then content
                           else set "timestamp" (JNum now) content)))
    /\ (forall k, k <> "web_content" -> k <> "last_update" -> get k data' = get k d).
Proof.
  intros Hg Hadd.
  destruct (add_content_saved content now d data' items Hg Hadd) as (kept & Hkept & ->).
  cbv zeta in Hkept.
  set (stamped := JObj (if has_key "timestamp" content then content
                        else set "timestamp" (JNum now) content)) in *.
  set (capped := if Nat.ltb max_content_items (length (items ++ [stamped]))
                 then lastn max_content_items (items ++ [stamped])
                 else items ++ [stamped]) in *.
  destruct (stamped_after_spec _ _ _ Hkept) as [Hf Hall].
  exists kept. split; [|split; [|split; [|split]]].
  - rewrite get_set_ne by discriminate. apply get_set_same.
  - apply get_set_same.
  - rewrite Hf. eapply Nat.le_trans; [apply List.filter_length_le|].
    unfold capped. destruct (Nat.ltb _ _) eqn:E; [apply lastn_length|].
    now apply Nat.ltb_ge in E.
  - intros e He. rewrite Hf in He. apply filter_In in He as [He Ht]. split.
    + destruct (timestamp_or_zero e) as [t|]; [|discriminate].
      exists t. split; [reflexivity | now apply Qltb_lt].
    + unfold capped in He.
      destruct (Nat.ltb _ _); [apply lastn_sub in He|];
        apply in_app_iff in He as [He|[<-|[]]]; auto.
  - intros k H1 H2. rewrite get_set_ne by congruence. now rewrite get_set_ne by congruence.
Qed.

Lemma stored_content_bounded_witness :
  exists kept,
    get "web_content"
      (set "last_update" (JNum 20000)
         (set "web_content" (JArr []) [("web_content", JArr []); ("last_update", JNum 1)]))
    = JArr kept
    /\ get "last_update"
         (set "last_update" (JNum 20000)
            (set "web_content" (JArr [])
               [("web_content", JArr []); ("last_update", JNum 1)]))
       = JNum 20000
    /\ (length kept <= max_content_items)%nat
    /\ (forall e, In e kept ->
          (exists t, timestamp_or_zero e = Some t
                     /\ (20000 - default_retention_hours * 3600 < t)%Q)
          /\ (In e []
              \/ e = JObj (if has_key "timestamp"
                                [("query", JStr "old news"); ("timestamp", JNum 5)]
                           then [("query", JStr "old news"); ("timestamp", JNum 5)]
                           else set "timestamp" (JNum 20000)
                                  [("query", JStr "old news"); ("timestamp", JNum 5)])))
    /\ (forall k, k <> "web_content" -> k <> "last_update" ->
          get k (set "last_update" (JNum 20000)
                   (set "web_content" (JArr [])
                      [("web_content", JArr []); ("last_update", JNum 1)]))
          = get k [("web_content", JArr []); ("last_update", JNum 1)]).
Proof.
  apply (stored_content_bounded [("query", JStr "old news"); ("timestamp", JNum 5)]
           20000 [("web_content", JArr []); ("last_update", JNum 1)] _ []).
  - reflexivity.
  - vm_compute. reflexivity.
Defined.

Lemma keyed_spec (items : list json) (l : list (Q * json)) :
  keyed items = Some l ->
  map snd l = items /\ forall t e, In (t, e) l -> timestamp_or_zero e = Some t.
Proof.
  revert l. induction items as [|x items IH]; intros l; cbn [keyed].
  - intros H. inversion H. split; [reflexivity | intros t e []].
  - destruct (timestamp_or_zero x) as [tx|] eqn:Ex; [|discriminate].
    destruct (keyed items) as [r|]; [|discriminate].
    destruct (IH r eq_refl) as [Hm Hall]. intros H. inversion H; subst. split.
    + reflexivity.
    + intros t e [E|Hin]; [inversion E; now subst | now apply Hall].
Qed.

Lemma insert_desc_perm (x : Q * json) (l : list (Q * json)) :
  Permutation (insert_desc x l) (x :: l).
Proof.
  induction l as [|y l IH]; cbn [insert_desc]; [reflexivity|].
  destruct (Coordinator.Qltb _ _); [|reflexivity].
  rewrite IH. apply perm_swap.
Qed.

Lemma sort_desc_perm (l : list (Q * json)) : Permutation (sort_desc l) l.
Proof.
  induction l as [|x l IH]; cbn; [reflexivity|].
  fold (sort_desc l). rewrite insert_desc_perm. now constructor.
Qed.

Lemma insert_desc_descending (x : Q * json) (l : list (Q * json)) :
  descending l -> descending (insert_desc x l).
Proof.
  induction l as [|y l IH]; cbn [insert_desc descending].
  - intros _. split; [intros y []|exact I].
  - intros [Hy Hl]. destruct (Coordinator.Qltb (fst x) (fst y)) eqn:E.
    + apply Qltb_lt in E. cbn [descending]. split; [|now apply IH].
      intros z Hz. apply (Permutation_in _ (insert_desc_perm x l)) in Hz.
      destruct Hz as [<-|Hz]; [now apply Qlt_le_weak | now apply Hy].
    + cbn [descending]. split; [|split; assumption].
      assert (Hxy : (fst y <= fst x)%Q).
      { apply Qnot_lt_le. intros Hlt. apply Qltb_lt in Hlt. congruence. }
      intros z [<-|Hz]; [exact Hxy|].
      apply Qle_trans with (fst y); [now apply Hy | exact Hxy].
Qed.

Lemma sort_desc_descending (l : list (Q * json)) : descending (sort_desc l).
Proof.
  induction l as [|x l IH]; cbn; [exact I|].
  fold (sort_desc l). now apply insert_desc_descending.
Qed.

Lemma descending_lookup (l : list (Q * json)) (i j : nat) (a b : Q * json) :
  descending l -> (i < j)%nat -> l !! i = Some a -> l !! j = Some b ->
  (fst b <= fst a)%Q.
Proof.
  revert i j. induction l as [|x l IH]; intros i j Hd Hij Ha Hb; [discriminate|].
  destruct Hd as [Hx Hl]. destruct j as [|j]; [lia|]. cbn in Hb.
  destruct i as [|i].
  - cbn in Ha. inversion Ha; subst. apply Hx.
    apply list_elem_of_In. eapply list_elem_of_lookup_2, Hb.
  - cbn in Ha. apply (IH i j); [exact Hl | lia | exact Ha | exact Hb].
Qed.

(** X30. [get_recent_content] with a limit that is not negative answers
    with [limit] items, or all of them if there are fewer; they are the
    newest ones, newest first: together with the items left out, in
    some order, they are the stored items sorted by timestamp. *)
Theorem recent_content_newest_first (d : dict) (items : list json) (limit : Z)
    (out : list json) :
  get "web_content" d = JArr items ->
  0 <= limit ->
  get_recent_content (JObj d) limit = Some out ->
  Z.of_nat (length out) = Z.min limit (Z.of_nat (length items))
  /\ exists rest,
      Permutation items (out ++ rest)
      /\ forall i j a b,
           (i < j)%nat -> (out ++ rest) !! i = Some a -> (out ++ rest) !! j = Some b ->
           exists ta tb, timestamp_or_zero a = Some ta /\ timestamp_or_zero b = Some tb
                         /\ (tb <= ta)%Q.
Proof.
  intros Hg Hlim. unfold get_recent_content.
  assert (Hk : has_key "web_content" d = true)
    by (apply (get_present _ _ _ Hg); discriminate).
  rewrite Hk, Hg. destruct (keyed items) as [l|] eqn:El; [|discriminate].
  destruct (keyed_spec items l El) as [Hm Hall].
  intros H. inversion H; subst out; clear H.
  unfold slice_to. assert (E : Z.ltb limit 0 = false) by (apply Z.ltb_ge; lia).
  rewrite E.
  set (sorted := sort_desc l).
  assert (Hperm : Permutation sorted l) by apply sort_desc_perm.
  assert (Hlen : length (map snd sorted) = length items).
  { rewrite length_map, (Permutation_length Hperm), <- Hm. now rewrite length_map. }
  split.
  - rewrite length_firstn, Hlen. lia.
  - exists (skipn (Z.to_nat limit) (map snd sorted)).
    rewrite firstn_skipn. split.
    + rewrite <- Hm. apply Permutation_map. now symmetry.
    + intros i j a b Hij Ha Hb.
      rewrite list_lookup_fmap in Ha, Hb.
      destruct (sorted !! i) as [[ta a']|] eqn:Ei; [|discriminate].
      destruct (sorted !! j) as [[tb b']|] eqn:Ej; [|discriminate].
      cbn in Ha, Hb. inversion Ha; inversion Hb; subst.
      exists ta, tb. split; [|split].
      * apply Hall. apply (Permutation_in _ Hperm).
        apply list_elem_of_In. eapply list_elem_of_lookup_2, Ei.
      * apply Hall. apply (Permutation_in _ Hperm).
        apply list_elem_of_In. eapply list_elem_of_lookup_2, Ej.
      * apply (descending_lookup sorted i j (ta, a) (tb, b));
          [apply sort_desc_descending | exact Hij | exact Ei | exact Ej].
Qed.

Lemma recent_content_newest_first_witness :
  let items := [JObj [("query", JStr "a"); ("timestamp", JNum 10)];
                JObj [("query", JStr "b"); ("timestamp", JNum 30)];
                JObj [("query", JStr "c"); ("timestamp", JNum 20)]] in
  let out := [JObj [("query", JStr "b"); ("timestamp", JNum 30)];
              JObj [("query", JStr "c"); ("timestamp", JNum 20)]] in
  Z.of_nat (length out) = Z.min 2 (Z.of_nat (length items))
  /\ exists rest,
      Permutation items (out ++ rest)
      /\ forall i j a b,
           (i < j)%nat -> (out ++ rest) !! i = Some a -> (out ++ rest) !! j = Some b ->
           exists ta tb, timestamp_or_zero a = Some ta /\ timestamp_or_zero b = Some tb
                         /\ (tb <= ta)%Q.
Proof.
  cbv zeta.
  apply (recent_content_newest_first
           [("web_content",
             JArr [JObj [("query", JStr "a"); ("timestamp", JNum 10)];
                   JObj [("query", JStr "b"); ("timestamp", JNum 30)];
                   JObj [("query", JStr "c"); ("timestamp", JNum 20)]])]
           _ 2).
  - reflexivity.
  - lia.
  - vm_compute. reflexivity.
Defined.

End WebContent.
